(** * ai-goofish-monitor: the scrape engine of [spider_v2.py]

    A shallow embedding of the pure helpers of [spider_v2.py]
    ([get_link_unique_key], [safe_get], [format_registration_days],
    [calculate_reputation_from_ratings], the response parsing of
    [get_ai_analysis], [retry_on_failure]) and of the control flow of
    [scrape_xianyu], with the properties of the specification proved about
    them.

    Conventions.
    - A Python [str] is a list of code points ([pystr]); [str "..."] turns an
      ASCII literal into one.
    - A value decoded from JSON is a [json]; a Python [float] is an IEEE 754
      binary64 number, computed with the Standard Library's [SpecFloat].
    - A Python call that can raise returns a [res]: [Ok v] or [Raise e]. *)

From Stdlib Require Import ZArith Ascii String DecimalString SpecFloat.
From stdpp Require Import base option list gmap.

Local Open Scope Z_scope.
#[local] Set Warnings "-register-all".

(** ** Python strings *)

Module PyStr.

Definition pystr := list N.

(** An ASCII literal as a Python string. *)
Definition str (s : string) : pystr :=
  map N_of_ascii (list_ascii_of_string s).

Definition chr (c : ascii) : N := N_of_ascii c.

Definition amp : N := chr "&".
Definition lbrace : N := chr "{".
Definition rbrace : N := chr "}".

(** [cut sep s]: the text before the first [sep], and the text after it when
    [sep] occurs. *)
Fixpoint cut (sep : N) (s : pystr) : pystr * option pystr :=
  match s with
  | [] => ([], None)
  | c :: r =>
      if N.eqb c sep then ([], Some r)
      else let '(a, o) := cut sep r in (c :: a, o)
  end.

(** [s.split(sep, maxsplit)] for a one-character separator. *)
Fixpoint split (sep : N) (maxsplit : nat) (s : pystr) : list pystr :=
  match maxsplit with
  | O => [s]
  | S k =>
      match cut sep s with
      | (a, None) => [a]
      | (a, Some r) => a :: split sep k r
      end
  end.

(** [s.find(c)] for a one-character needle: [-1] when absent. *)
Fixpoint find_from (c : N) (s : pystr) (i : Z) : Z :=
  match s with
  | [] => -1
  | x :: r => if N.eqb x c then i else find_from c r (i + 1)
  end.

Definition find (c : N) (s : pystr) : Z := find_from c s 0.

(** [s.rfind(c)]: the last index of [c], [-1] when absent. *)
Fixpoint rfind_from (c : N) (s : pystr) (i : Z) (last : Z) : Z :=
  match s with
  | [] => last
  | x :: r => rfind_from c r (i + 1) (if N.eqb x c then i else last)
  end.

Definition rfind (c : N) (s : pystr) : Z := rfind_from c s 0 (-1).

(** [s[a:b]] for indices that are not negative. *)
Definition slice (s : pystr) (a b : Z) : pystr :=
  take (Z.to_nat (b - a)) (drop (Z.to_nat a) s).

Fixpoint starts_with (p s : pystr) : bool :=
  match p, s with
  | [], _ => true
  | _ :: _, [] => false
  | a :: p', b :: s' => N.eqb a b && starts_with p' s'
  end.

(** [needle in s] for two strings. *)
Fixpoint contains (needle s : pystr) : bool :=
  starts_with needle s ||
  match s with
  | [] => false
  | _ :: r => contains needle r
  end.

End PyStr.
Export PyStr.

(** ** The dedup key *)

(** [link.split('&', 1)[0]]; [split] never returns the empty list, the
    default of [hd] is not reached. *)
Definition get_link_unique_key (link : pystr) : pystr :=
  hd [] (split amp 1 link).

Section DedupKey.

Lemma cut_spec sep s :
  (sep ∉ (cut sep s).1) ∧
  (match (cut sep s).2 with
   | None => s = (cut sep s).1
   | Some r => s = (cut sep s).1 ++ sep :: r
   end).
Proof.
  induction s as [|c s [IH1 IH2]]; simpl.
  - split; [apply not_elem_of_nil | done].
  - destruct (N.eqb_spec c sep) as [->|Hne]; simpl.
    + split; [apply not_elem_of_nil | done].
    + destruct (cut sep s) as [a o]; simpl in *. split.
      * rewrite elem_of_cons. intros [?|?]; [congruence | done].
      * destruct o; by f_equal.
Qed.

Lemma cut_app_sep sep p r :
  sep ∉ p → cut sep (p ++ sep :: r) = (p, Some r).
Proof.
  induction p as [|c p IH]; simpl; intros Hp.
  - by rewrite N.eqb_refl.
  - apply not_elem_of_cons in Hp as [Hc Hp].
    destruct (N.eqb_spec c sep); [congruence|]. by rewrite IH.
Qed.

Lemma key_is_cut link : get_link_unique_key link = (cut amp link).1.
Proof.
  unfold get_link_unique_key; simpl.
  by destruct (cut amp link) as [a [r|]].
Qed.

Lemma key_of_parts p r : amp ∉ p → get_link_unique_key (p ++ amp :: r) = p.
Proof. intros Hp. by rewrite key_is_cut, cut_app_sep. Qed.

End DedupKey.

(** C2. The dedup key of a link is the part of the link before its first
    ['&'], the whole link when it has none: the link is the key followed
    either by nothing or by ['&'] and the parameters, and the key holds no
    ['&'].  Hence two links that agree before their first ['&'] and differ
    only after it have the same key. *)
Theorem get_link_unique_key_prefix (link : pystr) :
  (∃ rest, link = get_link_unique_key link ++ rest ∧
           (amp ∉ get_link_unique_key link) ∧
           (rest = [] ∨ (∃ params, rest = amp :: params))) ∧
  (∀ p params params',
      amp ∉ p → link = p ++ amp :: params →
      get_link_unique_key (p ++ amp :: params') = get_link_unique_key link).
Proof.
  split.
  - rewrite key_is_cut. destruct (cut_spec amp link) as [Hno Hs].
    destruct (cut amp link) as [a [r|]]; simpl in *.
    + exists (amp :: r). eauto.
    + exists []. rewrite app_nil_r. eauto.
  - intros p r r' Hp ->. by rewrite !key_of_parts.
Qed.

Lemma get_link_unique_key_prefix_witness :
  get_link_unique_key (str "https://www.goofish.com/item?id=7&spm=a21&categoryId=3")
  = get_link_unique_key (str "https://www.goofish.com/item?id=7&spm=zz9").
Proof.
  apply (proj2 (get_link_unique_key_prefix
                  (str "https://www.goofish.com/item?id=7&spm=zz9"))
               (str "https://www.goofish.com/item?id=7")
               (str "spm=zz9") (str "spm=a21&categoryId=3")).
  - apply (bool_decide_unpack _). by vm_compute.
  - reflexivity.
Defined.

(** ** Values and exceptions *)

(** What [json.loads] returns: [None], [bool], [int], [float], [str], [list]
    and [dict] with string keys (in insertion order, a key at most once). *)
Inductive json : Type :=
  | JNull
  | JBool (b : bool)
  | JInt (n : Z)
  | JFloat (f : spec_float)
  | JStr (s : pystr)
  | JList (l : list json)
  | JDict (d : list (pystr * json)).

(** The exceptions the modelled code raises or catches; all are subclasses
    of [Exception]. *)
Inductive exn : Type :=
  | KeyError
  | TypeError
  | IndexError
  | AttributeError
  | ValueError
  | OverflowError
  | ZeroDivisionError
  | JSONDecodeError
  | IOError
  | HTTPError
  | PlaywrightTimeoutError.

Inductive res (A : Type) : Type :=
  | Ok (a : A)
  | Raise (e : exn).
Arguments Ok {A} a.
Arguments Raise {A} e.

#[global] Instance res_ret : MRet res := λ A a, Ok a.
#[global] Instance res_bind : MBind res := λ A B f m,
  match m with
  | Ok a => f a
  | Raise e => Raise e
  end.

Lemma bind_Ok {A B} (a : A) (f : A → res B) : Ok a ≫= f = f a.
Proof. reflexivity. Qed.

Lemma bind_Raise {A B} (e : exn) (f : A → res B) : Raise e ≫= f = Raise e.
Proof. reflexivity. Qed.

#[global] Instance exn_eq_dec : EqDecision exn.
Proof. solve_decision. Defined.

(** A subscript: the code only subscripts with string and integer literals. *)
Inductive key : Type :=
  | KStr (s : pystr)
  | KInt (i : Z).

Fixpoint pystr_eqb (a b : pystr) : bool :=
  match a, b with
  | [], [] => true
  | x :: a', y :: b' => N.eqb x y && pystr_eqb a' b'
  | _, _ => false
  end.

Lemma pystr_eqb_eq a b : pystr_eqb a b = true ↔ a = b.
Proof.
  revert b. induction a as [|x a IH]; intros [|y b]; simpl; try done.
  rewrite andb_true_iff, N.eqb_eq, IH. split; [intros [-> ->]|intros [= -> ->]]; done.
Qed.

(** [d.get(k)] on the entries of a dict. *)
Fixpoint dict_lookup (k : pystr) (d : list (pystr * json)) : option json :=
  match d with
  | [] => None
  | (k', v) :: r => if pystr_eqb k' k then Some v else dict_lookup k r
  end.

(** [d[k] = v]: the value of an existing key is replaced in place, a new key
    is appended. *)
Fixpoint dict_set (k : pystr) (v : json) (d : list (pystr * json))
  : list (pystr * json) :=
  match d with
  | [] => [(k, v)]
  | (k', v') :: r =>
      if pystr_eqb k' k then (k, v) :: r else (k', v') :: dict_set k v r
  end.

(** [l[i]] on a sequence: a negative index counts from the end. *)
Definition seq_index {A} (l : list A) (i : Z) : option A :=
  let n := Z.of_nat (length l) in
  let j := if i <? 0 then i + n else i in
  if (0 <=? j) && (j <? n) then l !! Z.to_nat j else None.

(** [data[key]]. *)
Definition py_getitem (data : json) (k : key) : res json :=
  match data, k with
  | JDict d, KStr s =>
      match dict_lookup s d with
      | Some v => Ok v
      | None => Raise KeyError
      end
  | JDict d, KInt _ => Raise KeyError
  | JList l, KInt i =>
      match seq_index l i with
      | Some v => Ok v
      | None => Raise IndexError
      end
  | JList _, KStr _ => Raise TypeError
  | JStr s, KInt i =>
      match seq_index s i with
      | Some c => Ok (JStr [c])
      | None => Raise IndexError
      end
  | JStr _, KStr _ => Raise TypeError
  | (JNull | JBool _ | JInt _ | JFloat _), _ => Raise TypeError
  end.

Definition NOT_AVAILABLE : json := JStr (str "Not available").

(** [except (KeyError, TypeError, IndexError)]. *)
Definition safe_get_catches (e : exn) : bool :=
  match e with
  | KeyError | TypeError | IndexError => true
  | _ => false
  end.

Fixpoint safe_get_loop (data : json) (keys : list key) (default : json)
  : res json :=
  match keys with
  | [] => Ok data
  | k :: keys' =>
      match py_getitem data k with
      | Ok v => safe_get_loop v keys' default
      | Raise e => if safe_get_catches e then Ok default else Raise e
      end
  end.

(** [safe_get(data, *keys, default=...)]; [None] stands for a call that does
    not pass [default]. *)
Definition safe_get (data : json) (keys : list key) (default : option json)
  : res json :=
  safe_get_loop data keys (from_option id NOT_AVAILABLE default).

(** The nested value: every lookup of the path succeeds. *)
Fixpoint nested_value (data : json) (keys : list key) : option json :=
  match keys with
  | [] => Some data
  | k :: keys' =>
      match py_getitem data k with
      | Ok v => nested_value v keys'
      | Raise _ => None
      end
  end.

Section SafeGet.

Lemma py_getitem_raises data k e :
  py_getitem data k = Raise e → e = KeyError ∨ e = TypeError ∨ e = IndexError.
Proof.
  destruct data, k; simpl; repeat case_match; intros [= <-]; auto.
Qed.

Lemma safe_get_loop_nested data keys d :
  safe_get_loop data keys d = Ok (from_option id d (nested_value data keys)).
Proof.
  revert data. induction keys as [|k keys IH]; intros data; simpl; [done|].
  destruct (py_getitem data k) as [v|e] eqn:E; [apply IH|].
  by destruct (py_getitem_raises _ _ _ E) as [->|[->| ->]].
Qed.

Lemma safe_get_nested data keys default :
  safe_get data keys default =
    Ok (from_option id (from_option id NOT_AVAILABLE default)
          (nested_value data keys)).
Proof. apply safe_get_loop_nested. Qed.

End SafeGet.

(** C10. [safe_get] is total and never raises: it returns the nested value
    when every lookup of the path succeeds and the default otherwise, the
    string "Not available" when the call passes no default; the only
    exceptions a lookup raises are the three that [safe_get] catches. *)
Theorem safe_get_total (data : json) (keys : list key) (default : option json) :
  (∃ v, safe_get data keys default = Ok v) ∧
  (∀ v, nested_value data keys = Some v → safe_get data keys default = Ok v) ∧
  (nested_value data keys = None →
     safe_get data keys default = Ok (from_option id NOT_AVAILABLE default)) ∧
  (nested_value data keys = None →
     safe_get data keys None = Ok (JStr (str "Not available"))) ∧
  (∀ d k e, py_getitem d k = Raise e → safe_get_catches e = true).
Proof.
  unfold safe_get. rewrite !safe_get_loop_nested. repeat split.
  - eauto.
  - by intros v ->.
  - by intros ->.
  - by intros ->.
  - intros d k e E. by destruct (py_getitem_raises _ _ _ E) as [->|[->| ->]].
Qed.

Lemma safe_get_total_witness :
  safe_get (JDict [(str "data", JDict [(str "itemDO", JList [JInt 7])])])
           [KStr (str "data"); KStr (str "itemDO"); KInt 0] None = Ok (JInt 7) ∧
  safe_get (JDict [(str "data", JInt 3)])
           [KStr (str "data"); KStr (str "itemDO")] None = Ok NOT_AVAILABLE ∧
  safe_get (JList [JInt 1]) [KInt 4] (Some (JList [])) = Ok (JList []).
Proof.
  split; [|split].
  - apply (proj1 (proj2 (safe_get_total _ _ None))). reflexivity.
  - apply (proj1 (proj2 (proj2 (proj2 (safe_get_total _ _ None))))). reflexivity.
  - apply (proj1 (proj2 (proj2 (safe_get_total (JList [JInt 1]) [KInt 4]
                                   (Some (JList [])))))). reflexivity.
Defined.

(** ** Python numbers *)

Module PyNum.

Definition prec : Z := 53.
Definition emax : Z := 1024.

Definition float := spec_float.

(** The binary64 number nearest to [m * 2^e] (ties to even). *)
Definition float_of_scaled (m e : Z) : float :=
  binary_normalize prec emax m e false.

Definition fdiv : float → float → float := SFdiv prec emax.
Definition fmul : float → float → float := SFmul prec emax.
Definition fsub : float → float → float := SFsub prec emax.

Definition float_is_zero (x : float) : bool :=
  match x with
  | S754_zero _ => true
  | _ => false
  end.

(** [float(n)] for an [int]: the nearest binary64 number, [OverflowError]
    when it is out of range. *)
Definition float_of_int (n : Z) : res float :=
  match float_of_scaled n 0 with
  | S754_infinity _ => Raise OverflowError
  | x => Ok x
  end.

Definition signed (s : bool) (m : Z) : Z := if s then - m else m.

(** [math.floor(x)]. *)
Definition math_floor (x : float) : res Z :=
  match x with
  | S754_zero _ => Ok 0
  | S754_finite s m e =>
      Ok (if 0 <=? e then signed s (Z.pos m * 2 ^ e)
          else signed s (Z.pos m) / 2 ^ (- e))
  | S754_infinity _ => Raise OverflowError
  | S754_nan => Raise ValueError
  end.

(** The integer nearest to [m / d], ties to even, for [0 <= m] and [0 < d]. *)
Definition div_half_even (m d : Z) : Z :=
  let q := m / d in
  let r := m mod d in
  match 2 * r ?= d with
  | Lt => q
  | Gt => q + 1
  | Eq => if Z.even q then q else q + 1
  end.

(** [round(x)] with one argument. *)
Definition py_round (x : float) : res Z :=
  match x with
  | S754_zero _ => Ok 0
  | S754_finite s m e =>
      Ok (signed s (if 0 <=? e then Z.pos m * 2 ^ e
                    else div_half_even (Z.pos m) (2 ^ (- e))))
  | S754_infinity _ => Raise OverflowError
  | S754_nan => Raise ValueError
  end.

(** [x == n] for a float and an int: the comparison is exact. *)
Definition float_eq_int (x : float) (n : Z) : bool :=
  match x with
  | S754_zero _ => n =? 0
  | S754_finite s m e =>
      if 0 <=? e then signed s (Z.pos m * 2 ^ e) =? n
      else signed s (Z.pos m) =? n * 2 ^ (- e)
  | _ => false
  end.

(** [str(n)] for an [int]. *)
Definition str_of_int (n : Z) : pystr :=
  str (NilZero.string_of_int (Z.to_int n)).

Definition pad2 (n : Z) : pystr :=
  if n <? 10 then str "0" ++ str_of_int n else str_of_int n.

(** The integer nearest to [100 * |x|], ties to even. *)
Definition hundredths (x : float) : Z :=
  match x with
  | S754_finite _ m e =>
      if 0 <=? e then Z.pos m * 2 ^ e * 100
      else div_half_even (Z.pos m * 100) (2 ^ (- e))
  | _ => 0
  end.

(** [f"{x:.2f}"]: the decimal with two places nearest to the exact value of
    [x], ties to even. *)
Definition format_2f (x : float) : pystr :=
  match x with
  | S754_nan => str "nan"
  | S754_infinity s => if s then str "-inf" else str "inf"
  | S754_zero s => (if s then str "-" else []) ++ str "0.00"
  | S754_finite s m e =>
      let h := hundredths x in
      (if s then str "-" else []) ++
      str_of_int (h / 100) ++ str "." ++ pad2 (h mod 100)
  end.

(** An [int] as an exact binary number, before any rounding. *)
Definition float_of_exact (n : Z) : float :=
  match n with
  | Z0 => S754_zero false
  | Zpos p => S754_finite false p 0
  | Zneg p => S754_finite true p 0
  end.

End PyNum.
Export PyNum.

(** ** Registration duration *)

(** [isinstance(v, int)], with the integer value: [bool] is a subclass of
    [int], [True] is [1] and [False] is [0]. *)
Definition int_instance (v : json) : option Z :=
  match v with
  | JInt n => Some n
  | JBool b => Some (if b then 1 else 0)
  | _ => None
  end.

(** [365.25] and [365.25 / 12]. *)
Definition DAYS_IN_YEAR : float := float_of_scaled 1461 (-2).
Definition DAYS_IN_MONTH : float := fdiv DAYS_IN_YEAR (float_of_scaled 12 0).

(** [years] and [remaining_days] of [format_registration_days]. *)
Definition years_and_remaining (total_days : Z) : res (Z * float) :=
  x ← float_of_int total_days;
  years ← math_floor (fdiv x DAYS_IN_YEAR);
  fy ← float_of_int years;
  Ok (years, fsub x (fmul fy DAYS_IN_YEAR)).

Definition registration_phrase (years months : Z) : pystr :=
  if (0 <? years) && (0 <? months) then
    str "On Xianyu for " ++ str_of_int years ++ str " years and " ++
    str_of_int months ++ str " months"
  else if (0 <? years) && (months =? 0) then
    str "On Xianyu for " ++ str_of_int years ++ str " years"
  else if (years =? 0) && (0 <? months) then
    str "On Xianyu for " ++ str_of_int months ++ str " months"
  else str "On Xianyu for less than a month".

Definition format_registration_days (total_days : json) : res pystr :=
  match int_instance total_days with
  | None => Ok (str "Unknown")
  | Some n =>
      if n <=? 0 then Ok (str "Unknown")
      else
        '(years, remaining_days) ← years_and_remaining n;
        months ← py_round (fdiv remaining_days DAYS_IN_MONTH);
        if months =? 12 then Ok (registration_phrase (years + 1) 0)
        else Ok (registration_phrase years months)
  end.

Example format_registration_days_10 :
  format_registration_days (JInt 10) = Ok (str "On Xianyu for less than a month").
Proof. vm_compute. reflexivity. Qed.

Example format_registration_days_30 :
  format_registration_days (JInt 30) = Ok (str "On Xianyu for 1 months").
Proof. vm_compute. reflexivity. Qed.

Example format_registration_days_365 :
  format_registration_days (JInt 365) = Ok (str "On Xianyu for 1 years").
Proof. vm_compute. reflexivity. Qed.

(** [True] is an [int] in Python and counts as one day. *)
Example format_registration_days_True :
  format_registration_days (JBool true) =
    Ok (str "On Xianyu for less than a month").
Proof. vm_compute. reflexivity. Qed.

Example format_registration_days_800 :
  format_registration_days (JInt 800) = Ok (str "On Xianyu for 2 years and 2 months").
Proof. vm_compute. reflexivity. Qed.

Section RegistrationDays.

Lemma round_of_zero_remaining r :
  float_is_zero r = true → py_round (fdiv r DAYS_IN_MONTH) = Ok 0.
Proof. destruct r as [s| | |]; try discriminate. by destruct s. Qed.

Lemma years_only_phrase years :
  1 ≤ years →
  registration_phrase years 0 =
    str "On Xianyu for " ++ str_of_int years ++ str " years".
Proof.
  intros Hy. unfold registration_phrase.
  replace (0 <? years) with true by (symmetry; apply Z.ltb_lt; lia).
  reflexivity.
Qed.

End RegistrationDays.

(** C9. [format_registration_days] answers "Unknown" for every value that is
    not an [int] and for every [int] that is zero or negative; for 400 days
    it answers the phrase with 1 year and 1 month; and whenever at least one
    year is counted and the remaining days after the division by 365.25 are
    exactly zero, it answers the phrase with the years alone. *)
Theorem format_registration_days_spec :
  (∀ v, int_instance v = None ∨ (∃ n, int_instance v = Some n ∧ n ≤ 0) →
        format_registration_days v = Ok (str "Unknown")) ∧
  format_registration_days (JInt 400) =
    Ok (str "On Xianyu for 1 years and 1 months") ∧
  (∀ v n years remaining_days,
      int_instance v = Some n → 0 < n →
      years_and_remaining n = Ok (years, remaining_days) →
      1 ≤ years → float_is_zero remaining_days = true →
      format_registration_days v =
        Ok (str "On Xianyu for " ++ str_of_int years ++ str " years")).
Proof.
  split; [|split].
  - intros v [Hv|(n & Hv & Hn)]; unfold format_registration_days; rewrite Hv.
    + reflexivity.
    + by replace (n <=? 0) with true by (symmetry; apply Z.leb_le; lia).
  - vm_compute. reflexivity.
  - intros v n years r Hv Hn Hyr Hy Hr.
    unfold format_registration_days. rewrite Hv.
    replace (n <=? 0) with false by (symmetry; apply Z.leb_gt; lia).
    rewrite Hyr. simpl. rewrite (round_of_zero_remaining r Hr). simpl.
    by rewrite years_only_phrase.
Qed.

Lemma format_registration_days_spec_witness :
  format_registration_days (JInt (-3)) = Ok (str "Unknown") ∧
  format_registration_days (JStr (str "400")) = Ok (str "Unknown") ∧
  format_registration_days (JInt 1461) = Ok (str "On Xianyu for 4 years").
Proof.
  destruct format_registration_days_spec as (Hu & _ & Hy).
  split; [|split].
  - apply Hu. right. exists (-3). split; [reflexivity | lia].
  - apply Hu. left. reflexivity.
  - apply (Hy (JInt 1461) 1461 4 (S754_zero false)).
    + reflexivity.
    + lia.
    + vm_compute. reflexivity.
    + lia.
    + reflexivity.
Defined.

(** ** Reputation from rating cards *)

(** [a / b] for two [int]s: the binary64 number nearest to the quotient. *)
Definition int_truediv (a b : Z) : res float :=
  if b =? 0 then Raise ZeroDivisionError
  else match fdiv (float_of_exact a) (float_of_exact b) with
       | S754_infinity _ => Raise OverflowError
       | q => Ok q
       end.

(** [needle in v]: substring of a [str], element of a [list], key of a
    [dict]; [TypeError] for a value that is not a container. *)
Definition py_in (needle : pystr) (v : json) : res bool :=
  match v with
  | JStr s => Ok (contains needle s)
  | JList l =>
      Ok (existsb (λ x, match x with
                        | JStr s => pystr_eqb s needle
                        | _ => false
                        end) l)
  | JDict d => Ok (existsb (λ kv, pystr_eqb kv.1 needle) d)
  | _ => Raise TypeError
  end.

(** [a in v or b in v]. *)
Definition py_in_either (a b : pystr) (v : json) : res bool :=
  x ← py_in a v;
  if x : bool then Ok true else py_in b v.

(** [v == n] for an [int] literal [n]. *)
Definition py_eq_int (v : json) (n : Z) : bool :=
  match v with
  | JInt m => m =? n
  | JBool b => (if b then 1 else 0) =? n
  | JFloat x => float_eq_int x n
  | _ => false
  end.

(** "卖家" and "买家". *)
Definition SELLER_ZH : pystr := [21334; 23478]%N.
Definition BUYER_ZH : pystr := [20080; 23478]%N.

Record tally : Type := Tally {
  seller_total : Z;
  seller_positive : Z;
  buyer_total : Z;
  buyer_positive : Z
}.

(** One iteration of the loop over the cards. *)
Definition tally_card (t : tally) (card : json) : res tally :=
  data ← safe_get card [KStr (str "cardData")] (Some (JDict []));
  role_tag ← safe_get data [KStr (str "rateTagList"); KInt 0; KStr (str "text")]
                      (Some (JStr []));
  rate_type ← safe_get data [KStr (str "rate")] None;
  is_seller ← py_in_either SELLER_ZH (str "Seller") role_tag;
  if is_seller : bool then
    Ok (Tally (seller_total t + 1)
              (if py_eq_int rate_type 1 then seller_positive t + 1
               else seller_positive t)
              (buyer_total t) (buyer_positive t))
  else
    is_buyer ← py_in_either BUYER_ZH (str "Buyer") role_tag;
    if is_buyer : bool then
      Ok (Tally (seller_total t) (seller_positive t)
                (buyer_total t + 1)
                (if py_eq_int rate_type 1 then buyer_positive t + 1
                 else buyer_positive t))
    else Ok t.

Fixpoint tally_cards (t : tally) (cards : list json) : res tally :=
  match cards with
  | [] => Ok t
  | card :: rest => t' ← tally_card t card; tally_cards t' rest
  end.

(** [f"{(positive / total * 100):.2f}%" if total > 0 else "N/A"]. *)
Definition rate_text (positive total : Z) : res pystr :=
  if 0 <? total then
    q ← int_truediv positive total;
    Ok (format_2f (fmul q (float_of_scaled 100 0)) ++ str "%")
  else Ok (str "N/A").

Definition calculate_reputation_from_ratings (ratings_json : list json)
  : res json :=
  t ← tally_cards (Tally 0 0 0 0) ratings_json;
  seller_rate ← rate_text (seller_positive t) (seller_total t);
  buyer_rate ← rate_text (buyer_positive t) (buyer_total t);
  Ok (JDict
        [(str "positive_reviews_as_seller",
          JStr (str_of_int (seller_positive t) ++ str "/" ++
                str_of_int (seller_total t)));
         (str "positive_rate_as_seller", JStr seller_rate);
         (str "positive_reviews_as_buyer",
          JStr (str_of_int (buyer_positive t) ++ str "/" ++
                str_of_int (buyer_total t)));
         (str "positive_rate_as_buyer", JStr buyer_rate)]).

(** A rating card as the rating-list API sends it. *)
Definition rating_card (role : pystr) (rate : Z) : json :=
  JDict [(str "cardData",
          JDict [(str "rateTagList", JList [JDict [(str "text", JStr role)]]);
                 (str "rate", JInt rate)])].

Example rate_text_1_3 : rate_text 1 3 = Ok (str "33.33%").
Proof. vm_compute. reflexivity. Qed.
Example rate_text_2_3 : rate_text 2 3 = Ok (str "66.67%").
Proof. vm_compute. reflexivity. Qed.
Example rate_text_1_160 : rate_text 1 160 = Ok (str "0.62%").
Proof. vm_compute. reflexivity. Qed.
Example rate_text_1_32 : rate_text 1 32 = Ok (str "3.12%").
Proof. vm_compute. reflexivity. Qed.
Example rate_text_5_5 : rate_text 5 5 = Ok (str "100.00%").
Proof. vm_compute. reflexivity. Qed.
Example rate_text_0_4 : rate_text 0 4 = Ok (str "0.00%").
Proof. vm_compute. reflexivity. Qed.
Example rate_text_123_457 : rate_text 123 457 = Ok (str "26.91%").
Proof. vm_compute. reflexivity. Qed.
Example rate_text_1_2000 : rate_text 1 2000 = Ok (str "0.05%").
Proof. vm_compute. reflexivity. Qed.

(** Outside the data model: the text of the role tag is a number, and
    [in] raises. *)
Example reputation_role_not_text :
  calculate_reputation_from_ratings
    [JDict [(str "cardData",
             JDict [(str "rateTagList", JList [JDict [(str "text", JInt 5)]])])]] =
  Raise TypeError.
Proof. vm_compute. reflexivity. Qed.

Example reputation_two_of_three :
  calculate_reputation_from_ratings
    [rating_card (SELLER_ZH ++ str "2") 1; rating_card (str "Buyer") 1;
     rating_card (str "Seller") 0; rating_card (str "Top Seller") 1;
     JInt 5] =
  Ok (JDict [(str "positive_reviews_as_seller", JStr (str "2/3"));
             (str "positive_rate_as_seller", JStr (str "66.67%"));
             (str "positive_reviews_as_buyer", JStr (str "1/1"));
             (str "positive_rate_as_buyer", JStr (str "100.00%"))]).
Proof. vm_compute. reflexivity. Qed.

(** *** The quotient of two counts is in range *)

Section QuotientRange.

Lemma shr_1_halves mrs : 0 ≤ shr_m mrs → shr_m (shr_1 mrs) = shr_m mrs / 2.
Proof.
  destruct mrs as [m r s]; simpl. intros Hm.
  destruct m as [|p|p]; try lia; [reflexivity|].
  destruct p; simpl shr_m.
  - rewrite Pos2Z.inj_xI. apply Z.div_unique with (r := 1); lia.
  - rewrite Pos2Z.inj_xO. apply Z.div_unique with (r := 0); lia.
  - reflexivity.
Qed.

Lemma shr_iter_divides p : ∀ mrs, 0 ≤ shr_m mrs →
  shr_m (SpecFloat.iter_pos shr_1 p mrs) = shr_m mrs / 2 ^ Z.pos p.
Proof.
  induction p as [p IH|p IH|]; intros mrs Hm; simpl SpecFloat.iter_pos.
  - assert (H1 : 0 ≤ shr_m (shr_1 mrs))
      by (rewrite shr_1_halves by lia; apply Z.div_pos; lia).
    assert (H2 : 0 ≤ shr_m (SpecFloat.iter_pos shr_1 p (shr_1 mrs)))
      by (rewrite IH by lia; apply Z.div_pos; lia).
    rewrite IH, IH, shr_1_halves by lia.
    rewrite !Z.div_div by lia. f_equal.
    replace (Z.pos p~1) with (1 + Z.pos p + Z.pos p) by lia.
    rewrite !Z.pow_add_r by lia. change (2 ^ 1) with 2. ring.
  - assert (H2 : 0 ≤ shr_m (SpecFloat.iter_pos shr_1 p mrs))
      by (rewrite IH by lia; apply Z.div_pos; lia).
    rewrite IH, IH by lia. rewrite Z.div_div by lia. f_equal.
    replace (Z.pos p~0) with (Z.pos p + Z.pos p) by lia.
    rewrite !Z.pow_add_r by lia. ring.
  - rewrite shr_1_halves by lia. reflexivity.
Qed.

Lemma digits2_pos_le p : ∀ k, 0 ≤ k → Z.pos p ≤ 2 ^ k →
  Z.pos (digits2_pos p) ≤ k + 1.
Proof.
  induction p as [p IH|p IH|]; intros k Hk Hp; simpl digits2_pos; [| |lia].
  all: destruct (Z.eq_dec k 0) as [->|Hk0]; [simpl in Hp; lia|].
  all: rewrite Pos2Z.inj_succ; specialize (IH (k - 1)).
  all: replace k with (Z.succ (k - 1)) in Hp by lia.
  all: rewrite Z.pow_succ_r in Hp by lia; lia.
Qed.

Lemma Zdigits2_le m k : 0 ≤ k → 0 ≤ m ≤ 2 ^ k → Zdigits2 m ≤ k + 1.
Proof.
  intros Hk [H0 Hm]. destruct m as [|p|p]; simpl; try lia.
  apply digits2_pos_le; assumption.
Qed.

Lemma fexp_le x k :
  x ≤ k → k ≤ 53 → fexp prec emax x ≤ k - 53 ∨ fexp prec emax x = -1074.
Proof. unfold fexp, SpecFloat.emin, prec, emax. lia. Qed.

Lemma shr_fexp_spec m e l :
  0 ≤ m →
  let '(mrs, e2) := shr_fexp prec emax m e l in
  e2 = Z.max e (fexp prec emax (Zdigits2 m + e)) ∧
  shr_m mrs = m / 2 ^ (e2 - e).
Proof.
  intros Hm. unfold shr_fexp, shr.
  assert (Hl : shr_m (shr_record_of_loc m l) = m)
    by (destruct l as [|[]]; reflexivity).
  destruct (fexp prec emax (Zdigits2 m + e) - e) as [|p|p] eqn:E.
  - split; [lia|]. rewrite Hl. replace (e - e) with 0 by lia.
    now rewrite Z.div_1_r.
  - split; [lia|]. rewrite shr_iter_divides by lia. rewrite Hl.
    f_equal. f_equal. lia.
  - split; [lia|]. rewrite Hl. replace (e - e) with 0 by lia.
    now rewrite Z.div_1_r.
Qed.

Lemma round_nearest_even_range m l :
  m ≤ round_nearest_even m l ≤ m + 1.
Proof. destruct l as [|[]]; simpl; try lia. destruct (Z.even m); lia. Qed.

Definition is_infinity (x : float) : bool :=
  match x with
  | S754_infinity _ => true
  | _ => false
  end.

Lemma binary_round_aux_small s m e l :
  e ≤ 0 → 0 ≤ m ≤ 2 ^ (- e) →
  is_infinity (binary_round_aux prec emax s m e l) = false.
Proof.
  intros He [Hm0 Hm]. unfold binary_round_aux.
  pose proof (shr_fexp_spec m e l Hm0) as H1.
  destruct (shr_fexp prec emax m e l) as [mrs1 e1]. destruct H1 as [He1 Hm1].
  assert (Hd : Zdigits2 m ≤ - e + 1) by (apply Zdigits2_le; lia).
  assert (He1' : e ≤ e1 ≤ 0)
    by (destruct (fexp_le (Zdigits2 m + e) 1); lia).
  assert (Hm1' : 0 ≤ shr_m mrs1 ≤ 2 ^ (- e1)).
  { rewrite Hm1. split; [apply Z.div_pos; lia|].
    apply Z.div_le_upper_bound; [lia|].
    rewrite <- Z.pow_add_r by lia.
    replace (e1 - e + - e1) with (- e) by lia. lia. }
  set (m2 := round_nearest_even (shr_m mrs1) (loc_of_shr_record mrs1)).
  pose proof (round_nearest_even_range (shr_m mrs1) (loc_of_shr_record mrs1))
    as Hr.
  fold m2 in Hr.
  assert (Hm2 : 0 ≤ m2 ≤ 2 ^ (1 - e1)).
  { split; [lia|]. replace (1 - e1) with (Z.succ (- e1)) by lia.
    rewrite Z.pow_succ_r by lia.
    assert (0 < 2 ^ (- e1)) by (apply Z.pow_pos_nonneg; lia). lia. }
  pose proof (shr_fexp_spec m2 e1 loc_Exact (proj1 Hm2)) as H2.
  destruct (shr_fexp prec emax m2 e1 loc_Exact) as [mrs2 e2].
  destruct H2 as [He2 _].
  assert (Hd2 : Zdigits2 m2 ≤ 1 - e1 + 1) by (apply Zdigits2_le; lia).
  assert (e2 ≤ 0) by (destruct (fexp_le (Zdigits2 m2 + e1) 2); lia).
  destruct (shr_m mrs2); try reflexivity.
  replace (e2 <=? emax - prec) with true
    by (symmetry; apply Z.leb_le; unfold emax, prec; lia).
  reflexivity.
Qed.

Lemma fdiv_le_in_range (a b : positive) :
  (a ≤ b)%positive →
  is_infinity (fdiv (S754_finite false a 0) (S754_finite false b 0)) = false.
Proof.
  intros Hab. unfold fdiv, SFdiv, SFdiv_core_binary.
  set (e' := Z.min _ _).
  assert (He : e' ≤ 0) by (subst e'; lia).
  set (m' := match 0 - 0 - e' with 0 => _ | Z.pos _ => _ | Z.neg _ => _ end).
  assert (Hm' : m' = Z.pos a * 2 ^ (- e')).
  { subst m'. replace (0 - 0 - e') with (- e') by lia.
    destruct (- e') as [|p|p] eqn:E; try lia.
    apply Z.shiftl_mul_pow2; lia. }
  pose proof (Z_div_mod m' (Z.pos b) ltac:(lia)) as Hdm.
  destruct (Z.div_eucl m' (Z.pos b)) as [q r]. destruct Hdm as [Hq Hr].
  apply binary_round_aux_small; [lia|].
  assert (0 < 2 ^ (- e')) by (apply Z.pow_pos_nonneg; lia).
  assert (Hpos : 0 < m') by (rewrite Hm'; apply Z.mul_pos_pos; lia).
  assert (Hle : Z.pos a * 2 ^ (- e') ≤ Z.pos b * 2 ^ (- e'))
    by (apply Z.mul_le_mono_nonneg_r; lia).
  split.
  - destruct (Z.le_gt_cases 0 q) as [|Hneg]; [assumption|exfalso].
    assert (Z.pos b * q ≤ Z.pos b * (-1))
      by (apply Z.mul_le_mono_nonneg_l; lia).
    lia.
  - apply Z.mul_le_mono_pos_l with (p := Z.pos b); lia.
Qed.

End QuotientRange.

(** *** The claim's words: seller cards and positive seller cards *)

(** The rater-role tag of a card: the text of its first rate tag, empty when
    the card has none. *)
Definition rater_role (card : json) : json :=
  let data := from_option id (JDict [])
                (nested_value card [KStr (str "cardData")]) in
  from_option id (JStr [])
    (nested_value data [KStr (str "rateTagList"); KInt 0; KStr (str "text")]).

(** The rate value of a card. *)
Definition rate_value (card : json) : json :=
  let data := from_option id (JDict [])
                (nested_value card [KStr (str "cardData")]) in
  from_option id NOT_AVAILABLE (nested_value data [KStr (str "rate")]).

Definition text_has_marker (zh en : pystr) (role : json) : bool :=
  match role with
  | JStr s => contains zh s || contains en s
  | _ => false
  end.

Definition seller_card (card : json) : bool :=
  text_has_marker SELLER_ZH (str "Seller") (rater_role card).

Definition buyer_card (card : json) : bool :=
  negb (seller_card card) &&
  text_has_marker BUYER_ZH (str "Buyer") (rater_role card).

Definition positive_card (card : json) : bool :=
  py_eq_int (rate_value card) 1.

(** The role tag is text, as in the data model of a rating. *)
Definition textual_role (card : json) : Prop :=
  ∃ s, rater_role card = JStr s.

Definition count (p : json → bool) (cards : list json) : Z :=
  Z.of_nat (length (List.filter p cards)).

(** [S/N] as a percentage with two decimal places. *)
Definition percent (s n : Z) : float :=
  fmul (fdiv (float_of_exact s) (float_of_exact n)) (float_of_scaled 100 0).

Definition percent_2f (s n : Z) : pystr := format_2f (percent s n) ++ str "%".

(** The printed hundredths are nearest to the exact [10000 * s / n]. *)
Definition nearest_hundredth (s n : Z) : bool :=
  2 * Z.abs (hundredths (percent s n) * n - 10000 * s) <=? n.

Section Reputation.

Lemma count_nonneg p cards : 0 ≤ count p cards.
Proof. unfold count. lia. Qed.

Lemma count_cons p card cards :
  count p (card :: cards) = (if p card then 1 else 0) + count p cards.
Proof. unfold count. simpl. destruct (p card); simpl; lia. Qed.

Lemma count_and_le p q cards :
  count (λ c, p c && q c) cards ≤ count p cards.
Proof.
  induction cards as [|c cards IH]; [done|].
  rewrite !count_cons. destruct (p c), (q c); simpl; lia.
Qed.

Lemma rate_text_percent s n :
  0 ≤ s ≤ n →
  rate_text s n = Ok (if n =? 0 then str "N/A" else percent_2f s n).
Proof.
  intros [Hs Hn]. unfold rate_text, percent_2f, percent, int_truediv.
  destruct (Z.ltb_spec 0 n) as [Hpos|Hz].
  - replace (n =? 0) with false by (symmetry; apply Z.eqb_neq; lia).
    destruct n as [|b|b]; try lia. destruct s as [|a|a]; try lia;
      cbn [float_of_exact].
    + reflexivity.
    + pose proof (fdiv_le_in_range a b ltac:(lia)) as Hfin.
      destruct (fdiv (S754_finite false a 0) (S754_finite false b 0));
        try discriminate; reflexivity.
  - by replace n with 0 by lia.
Qed.

Lemma tally_card_textual t card :
  textual_role card →
  tally_card t card =
    Ok (Tally
          (seller_total t + (if seller_card card then 1 else 0))
          (seller_positive t +
             (if seller_card card && positive_card card then 1 else 0))
          (buyer_total t + (if buyer_card card then 1 else 0))
          (buyer_positive t +
             (if buyer_card card && positive_card card then 1 else 0))).
Proof.
  intros [s Hs]. unfold tally_card.
  rewrite safe_get_nested, bind_Ok. cbv beta.
  rewrite !safe_get_nested, !bind_Ok. cbv beta.
  unfold buyer_card, seller_card, positive_card.
  change (from_option id (from_option id NOT_AVAILABLE (Some (JStr [])))
            (nested_value _ _)) with (rater_role card).
  change (from_option id (from_option id NOT_AVAILABLE None)
            (nested_value _ _)) with (rate_value card).
  rewrite Hs.
  unfold py_in_either, text_has_marker, py_in. rewrite !bind_Ok.
  destruct t as [st sp bt bp]; simpl.
  destruct (contains SELLER_ZH s); simpl.
  { destruct (py_eq_int (rate_value card) 1); simpl; f_equal; f_equal; lia. }
  destruct (contains (str "Seller") s); simpl.
  { destruct (py_eq_int (rate_value card) 1); simpl; f_equal; f_equal; lia. }
  destruct (contains BUYER_ZH s); simpl.
  { destruct (py_eq_int (rate_value card) 1); simpl; f_equal; f_equal; lia. }
  destruct (contains (str "Buyer") s); simpl.
  { destruct (py_eq_int (rate_value card) 1); simpl; f_equal; f_equal; lia. }
  f_equal. f_equal; lia.
Qed.

Lemma tally_cards_textual cards : ∀ t,
  Forall textual_role cards →
  tally_cards t cards =
    Ok (Tally
          (seller_total t + count seller_card cards)
          (seller_positive t +
             count (λ c, seller_card c && positive_card c) cards)
          (buyer_total t + count buyer_card cards)
          (buyer_positive t +
             count (λ c, buyer_card c && positive_card c) cards)).
Proof.
  induction cards as [|c cards IH]; intros t Hall.
  - destruct t; simpl. unfold count; simpl. f_equal. f_equal; lia.
  - apply Forall_cons in Hall as [Hc Hall].
    cbn [tally_cards]. rewrite (tally_card_textual t c Hc).
    simpl mbind. unfold res_bind. rewrite (IH _ Hall). simpl.
    rewrite !count_cons. f_equal. f_equal; lia.
Qed.

(** For up to 200 seller cards the printed rate is the hundredth nearest to
    the exact percentage. *)
Lemma percent_2f_nearest s n :
  0 < n ≤ 200 → 0 ≤ s ≤ n → nearest_hundredth s n = true.
Proof.
  intros Hn Hs.
  assert (Hall : forallb (λ n, forallb (λ s, nearest_hundredth s n)
                                       (seqZ 0 (n + 1)))
                         (seqZ 1 200) = true) by (vm_compute; reflexivity).
  assert (Hin : ∀ k len x, k ≤ x < k + len → In x (seqZ k len))
    by (intros k len x Hx; apply list_elem_of_In, elem_of_seqZ; lia).
  pose proof (proj1 (List.forallb_forall _ _) Hall n (Hin 1 200 n ltac:(lia)))
    as Hrow.
  apply (proj1 (List.forallb_forall _ _) Hrow s). apply Hin. lia.
Qed.

End Reputation.

(** C6. For every list of rating cards with textual role tags, let N be the
    number of cards whose role tag contains a seller marker and S the number
    of those whose rate is 1: [calculate_reputation_from_ratings] returns a
    record whose [positive_rate_as_seller] is "N/A" when N = 0 and otherwise
    S/N as a percentage with two decimal places. *)
Theorem positive_rate_as_seller_spec (cards : list json) :
  Forall textual_role cards →
  let N := count seller_card cards in
  let S := count (λ c, seller_card c && positive_card c) cards in
  ∃ d, calculate_reputation_from_ratings cards = Ok (JDict d) ∧
       dict_lookup (str "positive_rate_as_seller") d =
         Some (JStr (if N =? 0 then str "N/A" else percent_2f S N)).
Proof.
  intros Hall N S. unfold calculate_reputation_from_ratings.
  rewrite (tally_cards_textual cards _ Hall). simpl mbind. unfold res_bind.
  cbn [seller_total seller_positive buyer_total buyer_positive].
  rewrite !Z.add_0_l. fold N S.
  rewrite (rate_text_percent S N)
    by (split; [apply count_nonneg | apply count_and_le]).
  rewrite (rate_text_percent _ (count buyer_card cards))
    by (split; [apply count_nonneg | apply count_and_le]).
  eexists. split; [reflexivity|]. reflexivity.
Qed.

Lemma positive_rate_as_seller_spec_witness :
  ∃ d, calculate_reputation_from_ratings
         [rating_card (str "Seller") 1; rating_card (str "Buyer") 1;
          rating_card (SELLER_ZH ++ str "A") (-1);
          rating_card (str "Seller") 1] = Ok (JDict d) ∧
       dict_lookup (str "positive_rate_as_seller") d = Some (JStr (str "66.67%")).
Proof.
  apply (positive_rate_as_seller_spec
           [rating_card (str "Seller") 1; rating_card (str "Buyer") 1;
            rating_card (SELLER_ZH ++ str "A") (-1);
            rating_card (str "Seller") 1]).
  repeat constructor; eexists; reflexivity.
Defined.

(** ** A JSON decoder

    [json_loads] follows Python's [json.loads] on a text: [None] stands for
    [JSONDecodeError].  It is used to evaluate the code on concrete texts;
    the theorems below hold for any decoder. *)

Module JsonText.

Definition dquote : N := 34.
Definition backslash : N := 92.

(** A JSON text written with ['] in place of the double quote. *)
Definition jtext (s : string) : pystr :=
  map (λ c, if N.eqb c (chr "'") then dquote else c) (str s).

Definition is_ws (c : N) : bool :=
  N.eqb c 32 || N.eqb c 9 || N.eqb c 10 || N.eqb c 13.

Fixpoint skip_ws (s : pystr) : pystr :=
  match s with
  | c :: r => if is_ws c then skip_ws r else s
  | [] => []
  end.

Definition digit_value (c : N) : option Z :=
  if (48 <=? c)%N && (c <=? 57)%N then Some (Z.of_N c - 48) else None.

Definition hex_value (c : N) : option N :=
  if (48 <=? c)%N && (c <=? 57)%N then Some (c - 48)%N
  else if (97 <=? c)%N && (c <=? 102)%N then Some (c - 87)%N
  else if (65 <=? c)%N && (c <=? 70)%N then Some (c - 55)%N
  else None.

(** The digits at the head of [s]: their value, their number, the rest. *)
Fixpoint digits (s : pystr) (acc : Z) (n : Z) : Z * Z * pystr :=
  match s with
  | c :: r =>
      match digit_value c with
      | Some d => digits r (acc * 10 + d) (n + 1)
      | None => (acc, n, s)
      end
  | [] => (acc, n, [])
  end.

(** The binary64 number nearest to [(-1)^neg * d * 10^e]. *)
Definition float_of_decimal (neg : bool) (d e : Z) : float :=
  match d with
  | Zpos p =>
      if 0 <=? e then float_of_scaled (signed neg (d * 10 ^ e)) 0
      else match 10 ^ (- e) with
           | Zpos q => fdiv (S754_finite neg p 0) (S754_finite false q 0)
           | _ => S754_nan
           end
  | _ => S754_zero neg
  end.

(** A number: an optional minus sign, an integer part without a leading
    zero, an optional fraction and an optional exponent; an [int] when it has
    neither fraction nor exponent, a [float] otherwise. *)
Definition parse_number (s : pystr) : option (json * pystr) :=
  let '(neg, s1) :=
    match s with
    | c :: r => if N.eqb c (chr "-") then (true, r) else (false, s)
    | [] => (false, s)
    end in
  let '(ip, n, s2) :=
    match s1 with
    | c :: r => if N.eqb c (chr "0") then (0, 1, r) else digits s1 0 0
    | [] => (0, 0, [])
    end in
  if n =? 0 then None
  else
    let '(fp, fn, s3) :=
      match s2 with
      | c :: r =>
          if N.eqb c (chr ".") then
            let '(v, k, r') := digits r 0 0 in
            if k =? 0 then (0, 0, s2) else (v, k, r')
          else (0, 0, s2)
      | [] => (0, 0, s2)
      end in
    let '(has_exp, ex, s4) :=
      match s3 with
      | c :: r =>
          if N.eqb c (chr "e") || N.eqb c (chr "E") then
            let '(eneg, r1) :=
              match r with
              | c' :: r' =>
                  if N.eqb c' (chr "-") then (true, r')
                  else if N.eqb c' (chr "+") then (false, r')
                  else (false, r)
              | [] => (false, r)
              end in
            let '(v, k, r2) := digits r1 0 0 in
            if k =? 0 then (false, 0, s3) else (true, signed eneg v, r2)
          else (false, 0, s3)
      | [] => (false, 0, s3)
      end in
    if (fn =? 0) && negb has_exp then Some (JInt (signed neg ip), s4)
    else Some (JFloat (float_of_decimal neg (ip * 10 ^ fn + fp) (ex - fn)), s4).

Definition hex4 (s : pystr) : option (N * pystr) :=
  match s with
  | a :: b :: c :: d :: r =>
      match hex_value a, hex_value b, hex_value c, hex_value d with
      | Some x, Some y, Some z, Some w =>
          Some ((((x * 16 + y) * 16 + z) * 16 + w)%N, r)
      | _, _, _, _ => None
      end
  | _ => None
  end.

(** The characters of a string literal after its opening quote. *)
Fixpoint parse_chars (fuel : nat) (s : pystr) (acc : pystr)
  : option (pystr * pystr) :=
  match fuel, s with
  | S fuel', c :: r =>
      if N.eqb c dquote then Some (rev acc, r)
      else if N.eqb c backslash then
        match r with
        | e :: r' =>
            if N.eqb e (chr "u") then
              match hex4 r' with
              | Some (u, r'') =>
                  let low :=
                    match r'' with
                    | b :: v :: r3 =>
                        if N.eqb b backslash && N.eqb v (chr "u")
                        then hex4 r3 else None
                    | _ => None
                    end in
                  match low with
                  | Some (u2, r4) =>
                      if (55296 <=? u)%N && (u <=? 56319)%N &&
                         (56320 <=? u2)%N && (u2 <=? 57343)%N
                      then parse_chars fuel' r4
                             ((65536 + (u - 55296) * 1024 + (u2 - 56320))%N
                                :: acc)
                      else parse_chars fuel' r'' (u :: acc)
                  | None => parse_chars fuel' r'' (u :: acc)
                  end
              | None => None
              end
            else
              let plain (x : N) := parse_chars fuel' r' (x :: acc) in
              if N.eqb e dquote then plain dquote
              else if N.eqb e backslash then plain backslash
              else if N.eqb e (chr "/") then plain (chr "/")
              else if N.eqb e (chr "b") then plain 8%N
              else if N.eqb e (chr "f") then plain 12%N
              else if N.eqb e (chr "n") then plain 10%N
              else if N.eqb e (chr "r") then plain 13%N
              else if N.eqb e (chr "t") then plain 9%N
              else None
        | [] => None
        end
      else if (c <? 32)%N then None
      else parse_chars fuel' r (c :: acc)
  | _, _ => None
  end.

Definition parse_string (s : pystr) : option (pystr * pystr) :=
  parse_chars (length s) s [].

Definition expect (lit : pystr) (v : json) (s : pystr)
  : option (json * pystr) :=
  if starts_with lit s then Some (v, drop (length lit) s) else None.

Fixpoint parse_value (fuel : nat) (s : pystr) : option (json * pystr) :=
  match fuel, s with
  | S fuel', c :: r =>
      if N.eqb c dquote then
        '(t, r') ← parse_string r; Some (JStr t, r')
      else if N.eqb c lbrace then
        match skip_ws r with
        | c' :: r' =>
            if N.eqb c' rbrace then Some (JDict [], r')
            else parse_members fuel' (c' :: r') []
        | [] => None
        end
      else if N.eqb c (chr "[") then
        match skip_ws r with
        | c' :: r' =>
            if N.eqb c' (chr "]") then Some (JList [], r')
            else parse_elements fuel' (c' :: r') []
        | [] => None
        end
      else if N.eqb c (chr "n") then expect (str "null") JNull s
      else if N.eqb c (chr "t") then expect (str "true") (JBool true) s
      else if N.eqb c (chr "f") then expect (str "false") (JBool false) s
      else if N.eqb c (chr "N") then expect (str "NaN") (JFloat S754_nan) s
      else if N.eqb c (chr "I") then
        expect (str "Infinity") (JFloat (S754_infinity false)) s
      else if starts_with (str "-Infinity") s then
        expect (str "-Infinity") (JFloat (S754_infinity true)) s
      else parse_number s
  | _, _ => None
  end
with parse_elements (fuel : nat) (s : pystr) (acc : list json)
  : option (json * pystr) :=
  match fuel with
  | S fuel' =>
      '(v, r) ← parse_value fuel' s;
      match skip_ws r with
      | c :: r' =>
          if N.eqb c (chr ",") then
            parse_elements fuel' (skip_ws r') (acc ++ [v])
          else if N.eqb c (chr "]") then Some (JList (acc ++ [v]), r')
          else None
      | [] => None
      end
  | O => None
  end
with parse_members (fuel : nat) (s : pystr) (acc : list (pystr * json))
  : option (json * pystr) :=
  match fuel, s with
  | S fuel', c :: r =>
      if N.eqb c dquote then
        '(k, r1) ← parse_string r;
        match skip_ws r1 with
        | c1 :: r2 =>
            if N.eqb c1 (chr ":") then
              '(v, r3) ← parse_value fuel' (skip_ws r2);
              match skip_ws r3 with
              | c3 :: r4 =>
                  if N.eqb c3 (chr ",") then
                    parse_members fuel' (skip_ws r4) (dict_set k v acc)
                  else if N.eqb c3 rbrace then
                    Some (JDict (dict_set k v acc), r4)
                  else None
              | [] => None
              end
            else None
        | [] => None
        end
      else None
  | _, _ => None
  end.

(** [json.loads(s)]: one value, white space around it, nothing else. *)
Definition json_loads (s : pystr) : option json :=
  '(v, r) ← parse_value (S (length s)) (skip_ws s);
  match skip_ws r with
  | [] => Some v
  | _ :: _ => None
  end.

End JsonText.
Export JsonText.

Example json_loads_verdict :
  json_loads (jtext "{'is_recommended': false, 'reason': 'test'}") =
  Some (JDict [(str "is_recommended", JBool false);
               (str "reason", JStr (str "test"))]).
Proof. vm_compute. reflexivity. Qed.

Example json_loads_nested :
  json_loads (jtext " {'a': [1, -20, null, true], 'b': {'c': 'x\ny'}, 'a': 0} ") =
  Some (JDict [(str "a", JInt 0);
               (str "b", JDict [(str "c", JStr [120; 10; 121]%N)])]).
Proof. vm_compute. reflexivity. Qed.

Example json_loads_float :
  json_loads (str "365.25") = Some (JFloat DAYS_IN_YEAR) ∧
  json_loads (str "3652.5e-1") = Some (JFloat DAYS_IN_YEAR) ∧
  json_loads (str "1e2") = Some (JFloat (float_of_scaled 100 0)).
Proof. vm_compute. auto. Qed.

Example json_loads_rejects :
  json_loads (str "") = None ∧
  json_loads (jtext "{'a': 1") = None ∧
  json_loads (jtext "{'a': 1} trailing") = None ∧
  json_loads (str "[1, 2,]") = None ∧
  json_loads (str "01") = None ∧
  json_loads (str "On sale") = None.
Proof. vm_compute. auto 10. Qed.

(** ** Parsing the answer of the analysis service *)

Section ParseResponse.

(** [json.loads], which [scrape_xianyu] and [get_ai_analysis] call. *)
Variable loads : pystr → option json.

Definition py_loads (s : pystr) : res json :=
  match loads s with
  | Some v => Ok v
  | None => Raise JSONDecodeError
  end.

(** The [try] block at the end of [get_ai_analysis]: the text from the first
    ['{'] to the last ['}'] is decoded, the whole text when one of the two is
    missing; the handler of [JSONDecodeError] logs and raises it again. *)
Definition parse_ai_response (ai_response_content : pystr) : res json :=
  let json_start_index := find lbrace ai_response_content in
  let json_end_index := rfind rbrace ai_response_content in
  let decoded :=
    if negb (json_start_index =? -1) && negb (json_end_index =? -1) then
      let clean_json_str :=
        slice ai_response_content json_start_index (json_end_index + 1) in
      py_loads clean_json_str
    else py_loads ai_response_content in
  match decoded with
  | Raise JSONDecodeError => Raise JSONDecodeError
  | r => r
  end.

Lemma find_from_absent c s i : c ∉ s → find_from c s i = -1.
Proof.
  revert i. induction s as [|x s IH]; intros i Hc; simpl; [done|].
  apply not_elem_of_cons in Hc as [Hx Hs].
  destruct (N.eqb_spec x c); [congruence|]. by apply IH.
Qed.

Lemma find_from_first c pre r i :
  c ∉ pre → find_from c (pre ++ c :: r) i = i + Z.of_nat (length pre).
Proof.
  revert i. induction pre as [|x pre IH]; intros i Hc; simpl.
  - rewrite N.eqb_refl. lia.
  - apply not_elem_of_cons in Hc as [Hx Hs].
    destruct (N.eqb_spec x c); [congruence|]. rewrite IH by done. lia.
Qed.

Lemma rfind_from_absent c s i last : c ∉ s → rfind_from c s i last = last.
Proof.
  revert i last. induction s as [|x s IH]; intros i last Hc; simpl; [done|].
  apply not_elem_of_cons in Hc as [Hx Hs].
  destruct (N.eqb_spec x c); [congruence|]. by apply IH.
Qed.

Lemma rfind_from_last c s post i last :
  c ∉ post →
  rfind_from c (s ++ c :: post) i last = i + Z.of_nat (length s).
Proof.
  revert i last. induction s as [|x s IH]; intros i last Hc; simpl.
  - rewrite N.eqb_refl, rfind_from_absent by done. lia.
  - rewrite IH by done. lia.
Qed.

Lemma slice_middle (pre mid post : pystr) :
  slice (pre ++ mid ++ post) (Z.of_nat (length pre))
        (Z.of_nat (length pre) + Z.of_nat (length mid)) = mid.
Proof.
  unfold slice. rewrite Nat2Z.id.
  replace (Z.to_nat (Z.of_nat (length pre) + Z.of_nat (length mid)
                     - Z.of_nat (length pre))) with (length mid) by lia.
  by rewrite drop_app_length, take_app_length.
Qed.

Lemma parse_reraises (r : res json) :
  match r with
  | Raise JSONDecodeError => Raise JSONDecodeError
  | r' => r'
  end = r.
Proof. by destruct r as [v|[]]. Qed.

Lemma parse_ai_response_object pre body post :
  lbrace ∉ pre → rbrace ∉ post →
  parse_ai_response (pre ++ (lbrace :: body ++ [rbrace]) ++ post) =
    py_loads (lbrace :: body ++ [rbrace]).
Proof.
  intros Hpre Hpost.
  set (obj := lbrace :: body ++ [rbrace]).
  assert (Hfind : find lbrace (pre ++ obj ++ post) = Z.of_nat (length pre)).
  { unfold find, obj. rewrite <- app_comm_cons.
    by rewrite find_from_first. }
  assert (Hrfind : rfind rbrace (pre ++ obj ++ post) + 1 =
            Z.of_nat (length pre) + Z.of_nat (length obj)).
  { unfold rfind.
    replace (pre ++ obj ++ post)
      with ((pre ++ lbrace :: body) ++ rbrace :: post)
      by (subst obj; by rewrite <- !app_assoc, <- !app_comm_cons, <- app_assoc).
    rewrite rfind_from_last by done.
    subst obj. cbn [length]. rewrite !length_app. cbn [length]. lia. }
  assert (Hobj : (1 ≤ length obj)%nat) by (subst obj; cbn [length]; lia).
  unfold parse_ai_response. rewrite parse_reraises, Hfind, Hrfind.
  replace (Z.of_nat (length pre) =? -1) with false
    by (symmetry; apply Z.eqb_neq; lia).
  replace (rfind rbrace (pre ++ obj ++ post) =? -1) with false
    by (symmetry; apply Z.eqb_neq; lia).
  cbn [negb andb]. by rewrite slice_middle.
Qed.

Lemma parse_ai_response_no_brace s :
  lbrace ∉ s ∨ rbrace ∉ s → parse_ai_response s = py_loads s.
Proof.
  intros H. unfold parse_ai_response, find, rfind. rewrite parse_reraises.
  destruct H as [H|H].
  - by rewrite find_from_absent.
  - rewrite (rfind_from_absent _ _ _ _ H). cbn.
    by rewrite andb_false_r.
Qed.

End ParseResponse.

(** The specification's words: the first balanced [{...}] span of a text,
    found by counting braces from the first ['{']. *)
Fixpoint balanced_end (s : pystr) (depth : nat) (acc : pystr)
  : option pystr :=
  match s with
  | [] => None
  | c :: r =>
      if N.eqb c lbrace then balanced_end r (S depth) (c :: acc)
      else if N.eqb c rbrace then
        match depth with
        | 1%nat => Some (rev (c :: acc))
        | S d => balanced_end r d (c :: acc)
        | O => None
        end
      else balanced_end r depth (c :: acc)
  end.

Definition first_balanced_span (s : pystr) : option pystr :=
  match cut lbrace s with
  | (_, Some r) => balanced_end r 1 [lbrace]
  | (_, None) => None
  end.

(** C4, as the code has it. The parser decodes the text from the first ['{']
    to the last ['}'] of the answer: for an answer made of one [{...}] object
    between a leading text without ['{'] and a trailing text without ['}']
    the result is the decoding of the object alone; an answer without ['{']
    or without ['}'] is decoded as it is, so parsing fails exactly when the
    whole text is not valid JSON. *)
Theorem parse_ai_response_span (loads : pystr → option json) :
  (∀ pre body post,
      lbrace ∉ pre → rbrace ∉ post →
      parse_ai_response loads (pre ++ (lbrace :: body ++ [rbrace]) ++ post) =
        py_loads loads (lbrace :: body ++ [rbrace])) ∧
  (∀ s, lbrace ∉ s ∨ rbrace ∉ s →
        parse_ai_response loads s = py_loads loads s).
Proof.
  split.
  - apply parse_ai_response_object.
  - apply parse_ai_response_no_brace.
Qed.

Lemma parse_ai_response_span_witness :
  parse_ai_response json_loads
    (jtext "Here is my verdict: {'is_recommended': false, 'reason': 'test'} Done.")
  = Ok (JDict [(str "is_recommended", JBool false);
               (str "reason", JStr (str "test"))]) ∧
  parse_ai_response json_loads (str "I cannot answer") = Raise JSONDecodeError.
Proof.
  split.
  - change (jtext "Here is my verdict: {'is_recommended': false, 'reason': 'test'} Done.")
      with (str "Here is my verdict: " ++
            (lbrace :: jtext "'is_recommended': false, 'reason': 'test'" ++ [rbrace]) ++
            str " Done.").
    rewrite (proj1 (parse_ai_response_span json_loads)).
    + vm_compute. reflexivity.
    + apply (bool_decide_unpack _). by vm_compute.
    + apply (bool_decide_unpack _). by vm_compute.
  - rewrite (proj2 (parse_ai_response_span json_loads)).
    + vm_compute. reflexivity.
    + left. apply (bool_decide_unpack _). by vm_compute.
Defined.

(** C4, as the claim states it, fails twice.  A text without braces that is
    valid JSON is decoded, not rejected; and the decoded span runs to the
    last ['}'], so a text whose first balanced span is a JSON object can
    still fail to parse. *)
Lemma parse_ai_response_counterexample :
  ((lbrace ∉ str "null") ∧ (rbrace ∉ str "null") ∧
   parse_ai_response json_loads (str "null") = Ok JNull) ∧
  (first_balanced_span (jtext "{'a': 1} and {'b': 2}") = Some (jtext "{'a': 1}") ∧
   py_loads json_loads (jtext "{'a': 1}") = Ok (JDict [(str "a", JInt 1)]) ∧
   parse_ai_response json_loads (jtext "{'a': 1} and {'b': 2}") =
     Raise JSONDecodeError).
Proof.
  split; [split; [|split]|split; [|split]].
  - apply (bool_decide_unpack _). by vm_compute.
  - apply (bool_decide_unpack _). by vm_compute.
  - vm_compute. reflexivity.
  - vm_compute. reflexivity.
  - vm_compute. reflexivity.
  - vm_compute. reflexivity.
Qed.

(** ** Effects: the trace of a task *)

Inductive fname : Type :=
  | FnAnalysis   (* get_ai_analysis *)
  | FnNotify.    (* send_ntfy_notification *)

(** What a task does to the outside, in the order it does it. *)
Inductive event : Type :=
  | EvWarnLine                              (* a history line is not JSON *)
  | EvWarnRead                              (* reading the history failed *)
  | EvAttempt (f : fname) (i : nat)         (* call number [i + 1] of [f] *)
  | EvFailed (f : fname) (e : exn)          (* the call raised [e] *)
  | EvSleep (seconds : Z)                   (* asyncio.sleep(seconds) *)
  | EvRandomSleep (lo hi : Z)               (* random_sleep(lo, hi) *)
  | EvSkip (link : pystr)                   (* "already exists, skipping" *)
  | EvDetailFetch (link : pystr)            (* detail_page.goto(link) *)
  | EvDetailFailed                          (* the listing is given up *)
  | EvBlocked                               (* FAIL_SYS_USER_VALIDATE seen *)
  | EvProfile (user_id : json)              (* scrape_user_profile *)
  | EvDownload (urls : list json)           (* download_all_images *)
  | EvNotify (reason : json)                (* a notification is sent *)
  | EvAppend (record : json) (ok : bool)    (* save_to_jsonl and its result *)
  | EvAddKey (k : pystr)                    (* processed_links.add(k) *)
  | EvClosePage
  | EvCloseBrowser.

(** A computation that emits events and returns or raises. *)
Definition io (A : Type) : Type := (list event * res A)%type.

#[global] Instance io_ret : MRet io := λ A a, ([], Ok a).
#[global] Instance io_bind : MBind io := λ A B f m,
  match m with
  | (evs, Ok a) => let '(evs', r) := f a in (evs ++ evs', r)
  | (evs, Raise e) => (evs, Raise e)
  end.

Definition emit (ev : event) : io unit := ([ev], Ok tt).
Definition lift {A} (r : res A) : io A := ([], r).

(** ** The retry decorator *)

(** [retry_on_failure(retries, delay)] around [func]; [func i] is the outcome
    of the call number [i + 1].  Every exception is caught and logged, the
    wrapper sleeps [delay] seconds before every call but the first and
    returns [None] once [retries] calls have failed. *)
Fixpoint retry_from {A} (f : fname) (func : nat → res A)
    (retries : nat) (delay : Z) (i todo : nat) : list event * option A :=
  match todo with
  | O => ([], None)
  | S todo' =>
      match func i with
      | Ok v => ([EvAttempt f i], Some v)
      | Raise e =>
          let pause :=
            if (i <? retries - 1)%nat then [EvSleep delay] else [] in
          let '(evs, r) := retry_from f func retries delay (S i) todo' in
          (EvAttempt f i :: EvFailed f e :: pause ++ evs, r)
      end
  end.

Definition retry_on_failure {A} (f : fname) (retries : nat) (delay : Z)
    (func : nat → res A) : list event * option A :=
  retry_from f func retries delay 0 retries.

(** ** Python helpers of the task *)

(** [bool(v)]. *)
Definition py_truthy (v : json) : bool :=
  match v with
  | JNull => false
  | JBool b => b
  | JInt n => negb (n =? 0)
  | JFloat x => negb (float_is_zero x)
  | JStr s => negb (bool_decide (s = []))
  | JList l => match l with [] => false | _ => true end
  | JDict d => match d with [] => false | _ => true end
  end.

(** [v.get(k, default)]: only a dict has the method. *)
Definition py_get (v : json) (k : pystr) (default : json) : res json :=
  match v with
  | JDict d => Ok (from_option id default (dict_lookup k d))
  | _ => Raise AttributeError
  end.

(** [for x in v]. *)
Definition py_iter (v : json) : res (list json) :=
  match v with
  | JList l => Ok l
  | JDict d => Ok (map (λ kv, JStr kv.1) d)
  | JStr s => Ok (map (λ c, JStr [c]) s)
  | _ => Raise TypeError
  end.

(** [v[:n]] is defined for strings and lists. *)
Definition sliceable (v : json) : bool :=
  match v with
  | JStr _ | JList _ => true
  | _ => false
  end.

Definition is_str (v : json) : bool :=
  match v with
  | JStr _ => true
  | _ => false
  end.

(** [random.randint(lo, hi)] from a random source [seed]. *)
Definition randint (lo hi seed : Z) : Z := lo + seed mod (hi - lo + 1).

Definition BLOCK_CODE : pystr := str "FAIL_SYS_USER_VALIDATE".

(** ** The task: [scrape_xianyu] *)

(** One entry of [_parse_search_results_json]. *)
Record listing_item : Type := ListingItem {
  item_title : json;
  current_price : pystr;
  original_price : json;
  wants_count : json;
  item_tags : list pystr;
  location : json;
  seller_nickname : json;
  item_link : pystr;
  publish_time : pystr;
  item_id : json
}.

(** The dict [item_data]. *)
Definition item_data_of (it : listing_item) : list (pystr * json) :=
  [(str "item_title", item_title it);
   (str "current_price", JStr (current_price it));
   (str "original_price", original_price it);
   (str "wants_count", wants_count it);
   (str "item_tags", JList (map JStr (item_tags it)));
   (str "location", location it);
   (str "seller_nickname", seller_nickname it);
   (str "item_link", JStr (item_link it));
   (str "publish_time", JStr (publish_time it));
   (str "item_id", item_id it)].

(** What the outside answers while one listing is processed. *)
Record item_env : Type := ItemEnv {
  (** the detail response: an exception (a timeout among them), a status
      that is not ok ([None]), or the decoded payload *)
  detail : res (option json);
  (** the random source of the cooldown *)
  cooldown_seed : Z;
  (** what [scrape_user_profile] returns *)
  profile : res (list (pystr * json));
  crawl_time : pystr;
  (** the analysis service at each call: an exception, or the content of
      the first choice, which can be [None] *)
  ai_replies : nat → res (option pystr);
  (** whether the write of [save_to_jsonl] succeeds *)
  write_ok : bool
}.

(** The page [page_num] of the search results. *)
Inductive page_outcome : Type :=
  | PageNoNext                                 (* no "next page" button *)
  | PageTimeout                                (* no response to the click *)
  | PageInvalid                                (* response not ok *)
  | PageError (e : exn)                        (* another exception *)
  | PageItems (items : list (listing_item * item_env)).

(** Navigation and filters, up to the first page of results. *)
Inductive setup_outcome : Type :=
  | SetupBaxia                 (* the verification pop-up is visible *)
  | SetupRaise (e : exn)       (* a timeout or another exception *)
  | SetupOk.

Record task_config : Type := TaskConfig {
  keyword : pystr;
  task_name : pystr;
  ai_prompt_text : pystr;
  debug_limit : Z;
  (** NTFY_TOPIC_URL or WX_BOT_URL is set *)
  notify_configured : bool
}.

Record world : Type := World {
  (** the lines of the history file, [None] when it does not exist *)
  history_file : option (list pystr);
  (** the line at which reading the file raises [IOError], if any *)
  history_read_error : option nat;
  setup : setup_outcome;
  pages : list page_outcome
}.

Record state : Type := State {
  processed_links : gset pystr;
  processed_item_count : Z;
  (** the lines of the history file *)
  file : list pystr
}.

Inductive control : Type :=
  | Continue                (* next listing *)
  | Stop                    (* stop_scraping = True; break *)
  | Abort (e : exn).        (* an exception leaves the loops *)

Definition AI_NONE_ERROR : json :=
  JDict [(str "error", JStr (str "AI analysis returned None after retries."))].

(** [str(e)] for the [AttributeError] of [v.get]. *)
Definition no_get_message (v : json) : pystr :=
  let type_name :=
    match v with
    | JNull => str "NoneType"
    | JBool _ => str "bool"
    | JInt _ => str "int"
    | JFloat _ => str "float"
    | JStr _ => str "str"
    | JList _ => str "list"
    | JDict _ => str "dict"
    end in
  str "'" ++ type_name ++ str "' object has no attribute 'get'".

Section Task.

(** Python's [json.loads] ([None] for [JSONDecodeError]), [str] and
    [json.dumps]. *)
Variable loads : pystr → option json.
Variable py_str : json → pystr.
Variable dumps : json → pystr.

Variable cfg : task_config.

(** *** Loading the history *)

(** [get_link_unique_key(link)] on a value: only a [str] has [split]. *)
Definition link_key (link : json) : res pystr :=
  match link with
  | JStr s => Ok (get_link_unique_key s)
  | _ => Raise AttributeError
  end.

(** The body of the loop over the lines: the key to add, if any. *)
Definition line_key (line : pystr) : res (option pystr) :=
  record ← py_loads loads line;
  item_info ← py_get record (str "item_info") (JDict []);
  link ← py_get item_info (str "item_link") (JStr []);
  if py_truthy link then k ← link_key link; Ok (Some k) else Ok None.

(** [except json.JSONDecodeError] is the only handler inside the loop. *)
Fixpoint load_lines (lines : list pystr) (links : gset pystr)
  : list event * res (gset pystr) :=
  match lines with
  | [] => ([], Ok links)
  | line :: rest =>
      match line_key line with
      | Ok (Some k) => load_lines rest ({[k]} ∪ links)
      | Ok None => load_lines rest links
      | Raise JSONDecodeError =>
          let '(evs, r) := load_lines rest links in (EvWarnLine :: evs, r)
      | Raise e => ([], Raise e)
      end
  end.

(** The lines read before an [IOError], all of them without one. *)
Definition lines_read (w : world) : list pystr :=
  match history_file w, history_read_error w with
  | None, _ => []
  | Some lines, None => lines
  | Some lines, Some n => take n lines
  end.

Definition load_history (w : world) : list event * res (gset pystr) :=
  let '(evs, r) := load_lines (lines_read w) ∅ in
  match history_file w, history_read_error w, r with
  | Some _, Some _, Ok links => (evs ++ [EvWarnRead], Ok links)
  | _, _, _ => (evs, r)
  end.

(** *** One new listing *)

(** [[img.get('url') for img in image_infos if img.get('url')]] *)
Fixpoint image_urls (image_infos : list json) : res (list json) :=
  match image_infos with
  | [] => Ok []
  | img :: rest =>
      url ← py_get img (str "url") JNull;
      urls ← image_urls rest;
      Ok (if py_truthy url then url :: urls else urls)
  end.

(** The test on the detail payload. *)
Definition block_detected (detail_json : json) : res bool :=
  ret_value ← safe_get detail_json [KStr (str "ret")] (Some (JList []));
  Ok (contains BLOCK_CODE (py_str ret_value)).

(** From the detail payload to [final_record] (before the analysis), with
    the image URLs of the listing. *)
Definition build_record (it : listing_item) (env : item_env)
    (detail_json : json) : io (list (pystr * json) * list json) :=
  item_do ← lift (safe_get detail_json [KStr (str "data"); KStr (str "itemDO")]
                           (Some (JDict [])));
  seller_do ← lift (safe_get detail_json
                             [KStr (str "data"); KStr (str "sellerDO")]
                             (Some (JDict [])));
  reg_days_raw ← lift (safe_get seller_do [KStr (str "userRegDay")]
                                (Some (JInt 0)));
  registration_duration_text ← lift (format_registration_days reg_days_raw);
  zhima_credit_text ← lift (safe_get seller_do
                              [KStr (str "zhimaLevelInfo"); KStr (str "levelName")]
                              None);
  image_infos ← lift (safe_get item_do [KStr (str "imageInfos")]
                               (Some (JList [])));
  item_data1 ← lift
    (if py_truthy image_infos then
       imgs ← py_iter image_infos;
       all_image_urls ← image_urls imgs;
       Ok (match all_image_urls with
           | [] => item_data_of it
           | first :: _ =>
               dict_set (str "item_main_image_link") first
                 (dict_set (str "item_image_list") (JList all_image_urls)
                    (item_data_of it))
           end)
     else Ok (item_data_of it));
  wants ← lift (safe_get item_do [KStr (str "wantCnt")]
                  (Some (from_option id (JStr (str "NaN"))
                           (dict_lookup (str "wants_count") item_data1))));
  views ← lift (safe_get item_do [KStr (str "browseCnt")] (Some (JStr (str "-"))));
  let item_data2 :=
    dict_set (str "views_count") views
      (dict_set (str "wants_count") wants item_data1) in
  user_id ← lift (safe_get seller_do [KStr (str "sellerId")] None);
  user_profile_data ←
    (if py_truthy user_id then
       _ ← emit (EvProfile user_id); lift (profile env)
     else mret []);
  let seller_info :=
    dict_set (str "seller_registration_duration")
      (JStr registration_duration_text)
      (dict_set (str "seller_zhima_credit") zhima_credit_text
         user_profile_data) in
  let final_record :=
    [(str "crawl_time", JStr (crawl_time env));
     (str "search_keyword", JStr (keyword cfg));
     (str "task_name", JStr (task_name cfg));
     (str "item_info", JDict item_data2);
     (str "seller_info", JDict seller_info)] in
  mret (final_record,
        match from_option id (JList []) (dict_lookup (str "item_image_list") item_data2) with
        | JList urls => urls
        | _ => []
        end).

(** [download_all_images]: [url.strip()] needs a [str]; the downloads
    themselves, retried and dropped one by one, leave no trace here. *)
Definition download_all_images (urls : list json) : io unit :=
  match urls with
  | [] => mret tt
  | _ :: _ =>
      if forallb is_str urls then emit (EvDownload urls)
      else lift (Raise AttributeError)
  end.

(** The body of [get_ai_analysis] at one call. *)
Definition get_ai_analysis_body (prompt_text : pystr)
    (reply : res (option pystr)) : res json :=
  if bool_decide (prompt_text = []) then Ok JNull
  else
    content ← reply;
    match content with
    | Some ai_response_content => parse_ai_response loads ai_response_content
    | None => Raise AttributeError
    end.

(** [@retry_on_failure(retries=5, delay=10)]. *)
Definition get_ai_analysis (prompt_text : pystr)
    (replies : nat → res (option pystr)) : list event * json :=
  let '(evs, r) :=
    retry_on_failure FnAnalysis 5 10
      (λ i, get_ai_analysis_body prompt_text (replies i)) in
  (evs, from_option id JNull r).

(** The analysis step of the caller: [ai_analysis_result] and the record
    with its [ai_analysis] field. *)
Definition analyse (env : item_env) (final_record : list (pystr * json))
  : list event * (json * list (pystr * json)) :=
  if bool_decide (ai_prompt_text cfg = []) then ([], (JNull, final_record))
  else
    let '(evs, ai_analysis_result) :=
      get_ai_analysis (ai_prompt_text cfg) (ai_replies env) in
    if py_truthy ai_analysis_result then
      match ai_analysis_result with
      | JDict _ =>
          (evs, (ai_analysis_result,
                 dict_set (str "ai_analysis") ai_analysis_result final_record))
      | _ =>
          (evs, (ai_analysis_result,
                 dict_set (str "ai_analysis")
                   (JDict [(str "error",
                            JStr (no_get_message ai_analysis_result))])
                   final_record))
      end
    else
      (evs, (ai_analysis_result,
             dict_set (str "ai_analysis") AI_NONE_ERROR final_record)).

(** [@retry_on_failure(retries=3, delay=5)] around the notification, whose
    body slices the title before it sends anything. *)
Definition send_ntfy_notification (it : listing_item) (reason : json)
  : io unit :=
  let '(evs, r) :=
    retry_on_failure FnNotify 3 5
      (λ _, if notify_configured cfg then
              if sliceable (item_title it) then Ok true else Raise TypeError
            else Ok false) in
  (evs ++ match r with
          | Some true => [EvNotify reason]
          | _ => []
          end, Ok tt).

Definition notify (it : listing_item) (ai_analysis_result : json) : io unit :=
  if py_truthy ai_analysis_result then
    recommended ← lift (py_get ai_analysis_result (str "is_recommended") JNull);
    if py_truthy recommended then
      reason ← lift (py_get ai_analysis_result (str "reason")
                            (JStr (str "No reason provided")));
      send_ntfy_notification it reason
    else mret tt
  else mret tt.

(** [save_to_jsonl]: the record is appended as one line; an [IOError] is
    caught and [False] returned. *)
Definition save_to_jsonl (data_record : json) (ok : bool) (lines : list pystr)
  : list event * bool * list pystr :=
  if ok then ([EvAppend data_record true], true, lines ++ [dumps data_record])
  else ([EvAppend data_record false], false, lines).

(** How the [try] block around one listing ends when it raises nothing. *)
Inductive item_result : Type :=
  | DetailNotOk                    (* the status of the response is not ok *)
  | BlockSeen                      (* the block code: cooldown, then break *)
  | Assembled (final_record : json).

(** The [try] block up to the call of [save_to_jsonl]. *)
Definition fetch_and_analyse (it : listing_item) (env : item_env)
  : io item_result :=
  _ ← emit (EvDetailFetch (item_link it));
  response ← lift (detail env);
  match response with
  | None => _ ← emit EvDetailFailed; mret DetailNotOk
  | Some detail_json =>
      blocked ← lift (block_detected detail_json);
      if blocked : bool then
        _ ← emit EvBlocked;
        _ ← emit (EvSleep (randint 300 600 (cooldown_seed env)));
        mret BlockSeen
      else
        '(final_record, urls) ← build_record it env detail_json;
        _ ← download_all_images urls;
        let '(evs, (ai_analysis_result, final_record')) :=
          analyse env final_record in
        _ ← ((evs, Ok tt) : io unit);
        _ ← notify it ai_analysis_result;
        mret (Assembled (JDict final_record'))
  end.

(** One iteration of the loop over the listings of a page.  Both [except]
    clauses of the [try] block only log; [finally] closes the detail page
    and sleeps. *)
Definition process_item (st : state) (it : listing_item) (env : item_env)
  : list event * state * control :=
  if (0 <? debug_limit cfg) && (debug_limit cfg <=? processed_item_count st)
  then ([], st, Stop)
  else
    let unique_key := get_link_unique_key (item_link it) in
    if bool_decide (unique_key ∈ processed_links st) then
      if sliceable (item_title it) then ([EvSkip (item_link it)], st, Continue)
      else ([], st, Abort TypeError)
    else if negb (sliceable (item_title it)) then ([], st, Abort TypeError)
    else
      let closing := [EvClosePage; EvRandomSleep 2 4] in
      match fetch_and_analyse it env with
      | (evs, Raise e) =>
          (EvRandomSleep 3 6 :: evs ++ EvDetailFailed :: closing, st, Continue)
      | (evs, Ok DetailNotOk) =>
          (EvRandomSleep 3 6 :: evs ++ closing, st, Continue)
      | (evs, Ok BlockSeen) =>
          (EvRandomSleep 3 6 :: evs ++ closing, st, Stop)
      | (evs, Ok (Assembled final_record)) =>
          let '(evs', _, lines) :=
            save_to_jsonl final_record (write_ok env) (file st) in
          (EvRandomSleep 3 6 :: evs ++ evs' ++
             [EvAddKey unique_key; EvRandomSleep 15 30] ++ closing,
           State ({[unique_key]} ∪ processed_links st)
                 (processed_item_count st + 1) lines,
           Continue)
      end.

Fixpoint run_items (st : state) (items : list (listing_item * item_env))
  : list event * state * control :=
  match items with
  | [] => ([], st, Continue)
  | (it, env) :: rest =>
      match process_item st it env with
      | (evs, st', Continue) =>
          let '(evs', st'', c) := run_items st' rest in (evs ++ evs', st'', c)
      | r => r
      end
  end.

(** The loop over the pages; the list holds the pages [page_num ..
    max_pages]. *)
Fixpoint run_pages (st : state) (outcomes : list page_outcome)
  : list event * state :=
  match outcomes with
  | [] => ([], st)
  | PageInvalid :: rest => run_pages st rest
  | PageItems (item :: items) :: rest =>
      match run_items st (item :: items) with
      | (evs, st', Continue) =>
          match rest with
          | [] => (evs, st')
          | _ :: _ =>
              let '(evs', st'') := run_pages st' rest in
              (evs ++ EvRandomSleep 25 50 :: evs', st'')
          end
      | (evs, st', _) => (evs, st')
      end
  | (PageNoNext | PageTimeout | PageError _ | PageItems []) :: _ => ([], st)
  end.

(** The task: the events, the history file at the end, and the count that
    is returned, or the exception that leaves [scrape_xianyu]. *)
Definition scrape_xianyu (w : world) : list event * list pystr * res Z :=
  let file0 := from_option id [] (history_file w) in
  match load_history w with
  | (evs, Raise e) => (evs, file0, Raise e)
  | (evs, Ok links) =>
      let closing := [EvSleep 5; EvCloseBrowser] in
      match setup w with
      | SetupBaxia => (evs ++ EvCloseBrowser :: closing, file0, Ok 0)
      | SetupRaise _ => (evs ++ closing, file0, Ok 0)
      | SetupOk =>
          let '(evs', st) := run_pages (State links 0 file0) (pages w) in
          (evs ++ evs' ++ closing, file st, Ok (processed_item_count st))
      end
  end.

End Task.

(** ** Concrete renderings, to evaluate the task on examples

    [py_str_plain] is Python's [str] and [dumps_plain] is [json.dumps(...,
    ensure_ascii=False)] on values whose strings hold printable characters;
    the theorems about the task hold for any rendering. *)

Module Render.

Definition squote : N := 39.

Definition hex_digit (n : N) : N :=
  if (n <? 10)%N then (48 + n)%N else (87 + n)%N.

(** The characters of a string inside a literal delimited by [q]. *)
Fixpoint escape (q : N) (json_style : bool) (s : pystr) : pystr :=
  match s with
  | [] => []
  | c :: r =>
      (if N.eqb c backslash then [backslash; backslash]
       else if N.eqb c q then [backslash; q]
       else if N.eqb c 10 then [backslash; chr "n"]
       else if N.eqb c 13 then [backslash; chr "r"]
       else if N.eqb c 9 then [backslash; chr "t"]
       else if N.eqb c 8 && json_style then [backslash; chr "b"]
       else if N.eqb c 12 && json_style then [backslash; chr "f"]
       else if (c <? 32)%N || (N.eqb c 127 && negb json_style) then
         (if json_style then [backslash; chr "u"; chr "0"; chr "0"]
          else [backslash; chr "x"]) ++
         [hex_digit (c / 16); hex_digit (c mod 16)]
       else [c]) ++ escape q json_style r
  end.

(** [repr(s)]: single quotes, double quotes when the string holds a single
    quote and no double quote. *)
Definition repr_str (s : pystr) : pystr :=
  let q := if bool_decide (squote ∈ s) && negb (bool_decide (dquote ∈ s))
           then dquote else squote in
  q :: escape q false s ++ [q].

(** *** [repr] of a float: the shortest decimal that reads back as it *)

(** The number of decimal digits of [n > 0]. *)
Fixpoint dec_digits (fuel : nat) (n : Z) : Z :=
  match fuel with
  | O => 0
  | S f => if n <? 10 then 1 else 1 + dec_digits f (n / 10)
  end.

(** The least [j >= 1] with [num * 10^j >= den], for [0 < num < den]. *)
Fixpoint shift_up (fuel : nat) (num den j : Z) : Z :=
  match fuel with
  | O => j
  | S f => if den <=? num * 10 then j else shift_up f (num * 10) den (j + 1)
  end.

(** The integer part of the decimal logarithm of [num / den]. *)
Definition log10_floor (num den : Z) : Z :=
  if den <=? num then dec_digits (Z.to_nat (Z.log2 num) + 1) (num / den) - 1
  else - shift_up 400 num den 1.

Fixpoint strip_zeros (fuel : nat) (c q : Z) : Z * Z :=
  match fuel with
  | O => (c, q)
  | S f =>
      if (c mod 10 =? 0) && negb (c =? 0) then strip_zeros f (c / 10) (q + 1)
      else (c, q)
  end.

Definition same_float (x y : float) : bool :=
  match x, y with
  | S754_finite s m e, S754_finite s' m' e' =>
      Bool.eqb s s' && Pos.eqb m m' && (e =? e')
  | _, _ => false
  end.

(** The decimal [c * 10^q] with the fewest digits, from [p] digits on, that
    reads back as [x = num / den]; of two such decimals the nearer one. *)
Fixpoint shortest (todo : nat) (p : Z) (x : float) (num den k : Z) : Z * Z :=
  match todo with
  | O => (0, 0)
  | S todo' =>
      let q := k - p + 1 in
      let '(n, d) :=
        if q <? 0 then (num * 10 ^ (- q), den) else (num, den * 10 ^ q) in
      let lo := n / d in
      let r := n mod d in
      let reads_back c := same_float (float_of_decimal false c q) x in
      let pick :=
        match reads_back lo, reads_back (lo + 1) with
        | true, true =>
            match 2 * r ?= d with
            | Lt => Some lo
            | Gt => Some (lo + 1)
            | Eq => Some (if Z.even lo then lo else lo + 1)
            end
        | true, false => Some lo
        | false, true => Some (lo + 1)
        | false, false => None
        end in
      match pick with
      | Some c => strip_zeros 20 c q
      | None => shortest todo' (p + 1) x num den k
      end
  end.

Definition zeros (n : Z) : pystr := replicate (Z.to_nat n) (chr "0").

(** The digits of a finite float that is not zero, in the layout of
    [repr]: an exponent for values from [1e16] on and below [1e-4]. *)
Definition finite_repr (m : positive) (e : Z) : pystr :=
  let '(num, den) :=
    if 0 <=? e then (Z.pos m * 2 ^ e, 1) else (Z.pos m, 2 ^ (- e)) in
  let k := log10_floor num den in
  let '(c, q) := shortest 17 1 (S754_finite false m e) num den k in
  let ds := str_of_int c in
  let n := Z.of_nat (length ds) in
  let decpt := n + q in
  if (decpt <=? -4) || (16 <? decpt) then
    let ex := decpt - 1 in
    take 1 ds ++ (if 1 <? n then str "." ++ drop 1 ds else []) ++ str "e" ++
    (if ex <? 0 then str "-" else str "+") ++
    (if Z.abs ex <? 10 then str "0" else []) ++ str_of_int (Z.abs ex)
  else if decpt <=? 0 then str "0." ++ zeros (- decpt) ++ ds
  else if n <=? decpt then ds ++ zeros (decpt - n) ++ str ".0"
  else take (Z.to_nat decpt) ds ++ str "." ++ drop (Z.to_nat decpt) ds.

Definition float_text (x : float) (nan inf : pystr) : pystr :=
  match x with
  | S754_nan => nan
  | S754_infinity s => (if s then str "-" else []) ++ inf
  | S754_zero s => (if s then str "-" else []) ++ str "0.0"
  | S754_finite s m e => (if s then str "-" else []) ++ finite_repr m e
  end.

Fixpoint py_repr (v : json) : pystr :=
  match v with
  | JNull => str "None"
  | JBool b => if b then str "True" else str "False"
  | JInt n => str_of_int n
  | JFloat x => float_text x (str "nan") (str "inf")
  | JStr s => repr_str s
  | JList l =>
      str "[" ++
      (fix items (l : list json) : pystr :=
         match l with
         | [] => []
         | [x] => py_repr x
         | x :: r => py_repr x ++ str ", " ++ items r
         end) l ++ str "]"
  | JDict d =>
      str "{" ++
      (fix items (d : list (pystr * json)) : pystr :=
         match d with
         | [] => []
         | [(k, x)] => repr_str k ++ str ": " ++ py_repr x
         | (k, x) :: r => repr_str k ++ str ": " ++ py_repr x ++ str ", " ++ items r
         end) d ++ str "}"
  end.

Definition py_str_plain (v : json) : pystr :=
  match v with
  | JStr s => s
  | _ => py_repr v
  end.

Definition json_string (s : pystr) : pystr :=
  dquote :: escape dquote true s ++ [dquote].

Fixpoint dumps_plain (v : json) : pystr :=
  match v with
  | JNull => str "null"
  | JBool b => if b then str "true" else str "false"
  | JInt n => str_of_int n
  | JFloat x => float_text x (str "NaN") (str "Infinity")
  | JStr s => json_string s
  | JList l =>
      str "[" ++
      (fix items (l : list json) : pystr :=
         match l with
         | [] => []
         | [x] => dumps_plain x
         | x :: r => dumps_plain x ++ str ", " ++ items r
         end) l ++ str "]"
  | JDict d =>
      str "{" ++
      (fix items (d : list (pystr * json)) : pystr :=
         match d with
         | [] => []
         | [(k, x)] => json_string k ++ str ": " ++ dumps_plain x
         | (k, x) :: r =>
             json_string k ++ str ": " ++ dumps_plain x ++ str ", " ++ items r
         end) d ++ str "}"
  end.

End Render.
Export Render.

Example float_repr_examples :
  map (λ t, py_str_plain (from_option id JNull (json_loads (str t))))
      ["0.1"; "365.25"; "1e16"; "1.5e-5"; "0.30000000000000004";
       "9007199254740993.0"; "0.0001"; "-12.0e0"; "1e23"; "5e-324"]%string =
  map str ["0.1"; "365.25"; "1e+16"; "1.5e-05"; "0.30000000000000004";
           "9007199254740992.0"; "0.0001"; "-12.0"; "1e+23"; "5e-324"]%string.
Proof. vm_compute. reflexivity. Qed.

Example py_str_plain_ret :
  py_str_plain (JList [JStr (str "FAIL_SYS_USER_VALIDATE::blocked"); JInt 3; JNull]) =
  str "['FAIL_SYS_USER_VALIDATE::blocked', 3, None]".
Proof. vm_compute. reflexivity. Qed.

Example dumps_plain_roundtrip :
  json_loads (dumps_plain (JDict [(str "item_info",
                                   JDict [(str "item_link", JStr (str "https://x/item?id=1"));
                                          (str "tags", JList [JInt (-2); JBool true; JNull])])])) =
  Some (JDict [(str "item_info",
                JDict [(str "item_link", JStr (str "https://x/item?id=1"));
                       (str "tags", JList [JInt (-2); JBool true; JNull])])]).
Proof. vm_compute. reflexivity. Qed.

(** ** A run of the task on concrete answers *)

Module Demo.

Definition cfg : task_config :=
  TaskConfig (str "film camera") (str "Camera watch")
             (str "Recommend only tested cameras.") 0 true.

Definition listing (title link : string) (id : Z) : listing_item :=
  ListingItem (JStr (str title)) (str "100") (JStr (str "150")) (JStr (str "2"))
              [] (JStr (str "Hangzhou")) (JStr (str "seller")) (str link)
              (str "2025-01-01 10:00") (JInt id).

Definition old_item : listing_item :=
  listing "Old camera" "https://www.goofish.com/item?id=11&categoryId=5" 11.
Definition new_item : listing_item :=
  listing "New camera" "https://www.goofish.com/item?id=22&categoryId=5" 22.

Definition detail_payload (ret : string) : json :=
  JDict [(str "ret", JList [JStr (str ret)]);
         (str "data",
          JDict [(str "itemDO",
                  JDict [(str "wantCnt", JInt 3);
                         (str "imageInfos",
                          JList [JDict [(str "url", JStr (str "https://img.example/1.jpg"))]])]);
                 (str "sellerDO",
                  JDict [(str "sellerId", JInt 77);
                         (str "userRegDay", JInt 400)])])].

Definition answering (replies : nat → res (option pystr)) (ok : bool)
    (ret : string) : item_env :=
  ItemEnv (Ok (Some (detail_payload ret))) 1234
          (Ok [(str "seller_nickname", JStr (str "bob"))])
          (str "2025-01-02T03:04:05") replies ok.

Definition verdict_no : pystr :=
  jtext "{'is_recommended': false, 'reason': 'test'}".
Definition verdict_yes : pystr :=
  jtext "Sure: {'is_recommended': true, 'reason': 'tested'}".

(** A line of an earlier run for the old listing, with other tracking
    parameters in its link. *)
Definition old_line : pystr :=
  dumps_plain
    (JDict [(str "item_info",
             JDict [(str "item_link",
                     JStr (str "https://www.goofish.com/item?id=11&spm=a21"))])]).

Definition one_page (items : list (listing_item * item_env)) (lines : list pystr)
  : world :=
  World (Some lines) None SetupOk [PageItems items].

Definition run (w : world) : list event * list pystr * res Z :=
  scrape_xianyu json_loads py_str_plain dumps_plain cfg w.

End Demo.

(** ** Reasoning about traces *)

(** The events that only the loop over the listings emits: those of a
    component of [fetch_and_analyse] are [inner]. *)
Definition inner (ev : event) : Prop :=
  match ev with
  | EvDetailFetch _ | EvAppend _ _ | EvAddKey _ | EvBlocked | EvSkip _
  | EvWarnLine | EvWarnRead | EvCloseBrowser => False
  | _ => True
  end.

(** [m] returns a value that satisfies [Q], or raises. *)
Definition returns {A} (m : io A) (Q : A → Prop) : Prop :=
  match m.2 with
  | Ok a => Q a
  | Raise _ => True
  end.

Section IoLemmas.

Context {A B : Type}.

Lemma io_bind_events (P : event → Prop) (m : io A) (f : A → io B) :
  Forall P m.1 → (∀ a, Forall P (f a).1) → Forall P (m ≫= f).1.
Proof.
  destruct m as [evs [a|e]]; unfold mbind, io_bind; simpl; intros H1 H2;
    [|done].
  specialize (H2 a). destruct (f a) as [evs' r]. simpl in *.
  by apply Forall_app.
Qed.

Lemma returns_bind (R : A → Prop) (Q : B → Prop) (m : io A) (f : A → io B) :
  returns m R → (∀ a, R a → returns (f a) Q) → returns (m ≫= f) Q.
Proof.
  destruct m as [evs [a|e]]; unfold returns, mbind, io_bind; simpl;
    intros H1 H2; [|done].
  specialize (H2 a H1). by destruct (f a) as [evs' r].
Qed.

Lemma returns_any (Q : B → Prop) (m : io A) (f : A → io B) :
  (∀ a, returns (f a) Q) → returns (m ≫= f) Q.
Proof. intros H. apply (returns_bind (λ _, True)); [by destruct m as [? []]|auto]. Qed.

Lemma io_bind_ok (evs : list event) (a : A) (f : A → io B) :
  ((evs, Ok a) : io A) ≫= f = (evs ++ (f a).1, (f a).2).
Proof. unfold mbind, io_bind. by destruct (f a). Qed.

Lemma io_bind_raise (evs : list event) (e : exn) (f : A → io B) :
  ((evs, Raise e) : io A) ≫= f = (evs, Raise e).
Proof. reflexivity. Qed.

Lemma lift_bind_ok (a : A) (f : A → io B) : lift (Ok a) ≫= f = f a.
Proof. unfold lift, mbind, io_bind. by destruct (f a). Qed.

Lemma lift_bind_raise (e : exn) (f : A → io B) :
  lift (Raise e) ≫= f = ([], Raise e).
Proof. reflexivity. Qed.

Lemma emit_bind (ev : event) (f : unit → io B) :
  emit ev ≫= f = (ev :: (f tt).1, (f tt).2).
Proof. unfold emit, mbind, io_bind. by destruct (f tt). Qed.

End IoLemmas.

Section RetryLemmas.

Context {A : Type}.
Implicit Types (func : nat → res A).

#[global] Instance fname_eq_dec : EqDecision fname.
Proof. solve_decision. Defined.

Definition is_attempt (f : fname) (ev : event) : bool :=
  match ev with
  | EvAttempt g _ => bool_decide (f = g)
  | _ => false
  end.

Lemma retry_from_attempts f func retries delay i todo :
  (length (List.filter (is_attempt f)
             (retry_from f func retries delay i todo).1) ≤ todo)%nat.
Proof.
  revert i. induction todo as [|todo IH]; intros i; simpl; [lia|].
  destruct (func i) as [v|e]; simpl.
  - rewrite bool_decide_eq_true_2 by done. simpl. lia.
  - specialize (IH (S i)).
    destruct (retry_from f func retries delay (S i) todo) as [evs r].
    simpl in *. rewrite bool_decide_eq_true_2 by done. simpl.
    rewrite List.filter_app. rewrite length_app.
    destruct (i <? retries - 1)%nat; simpl; lia.
Qed.

Lemma retry_from_sleeps f func retries delay i todo :
  Forall (λ ev, ∀ s, ev = EvSleep s → s = delay)
         (retry_from f func retries delay i todo).1.
Proof.
  revert i. induction todo as [|todo IH]; intros i; simpl; [constructor|].
  destruct (func i) as [v|e]; simpl.
  - by repeat constructor.
  - specialize (IH (S i)).
    destruct (retry_from f func retries delay (S i) todo) as [evs r].
    simpl in *. constructor; [done|]. constructor; [done|].
    apply Forall_app. split; [|done].
    destruct (i <? retries - 1)%nat; repeat constructor.
    by intros s [= ->].
Qed.

Lemma retry_from_inner f func retries delay i todo :
  Forall inner (retry_from f func retries delay i todo).1.
Proof.
  revert i. induction todo as [|todo IH]; intros i; simpl; [constructor|].
  destruct (func i) as [v|e]; simpl.
  - by repeat constructor.
  - specialize (IH (S i)).
    destruct (retry_from f func retries delay (S i) todo) as [evs r].
    simpl in *. constructor; [done|]. constructor; [done|].
    apply Forall_app. split; [|done].
    destruct (i <? retries - 1)%nat; by repeat constructor.
Qed.

(** The trace of [todo] failing calls from call [i] on. *)
Fixpoint failures (f : fname) (errs : nat → exn) (retries : nat) (delay : Z)
    (i todo : nat) : list event :=
  match todo with
  | O => []
  | S todo' =>
      EvAttempt f i :: EvFailed f (errs i) ::
      (if (i <? retries - 1)%nat then [EvSleep delay] else []) ++
      failures f errs retries delay (S i) todo'
  end.

Lemma retry_from_all_fail f func (errs : nat → exn) retries delay i todo :
  (∀ j, (i ≤ j < i + todo)%nat → func j = Raise (errs j)) →
  retry_from f func retries delay i todo =
    (failures f errs retries delay i todo, None).
Proof.
  revert i. induction todo as [|todo IH]; intros i H; simpl; [done|].
  rewrite (H i) by lia. rewrite (IH (S i)) by (intros j Hj; apply H; lia).
  reflexivity.
Qed.

End RetryLemmas.

Section TaskLemmas.

Variable loads : pystr → option json.
Variable py_str : json → pystr.
Variable dumps : json → pystr.
Variable cfg : task_config.

(** *** The words of the claims *)

(** The link and the dedup key a record is stored under. *)
Definition record_link (final_record : list (pystr * json)) : option json :=
  match dict_lookup (str "item_info") final_record with
  | Some (JDict item_data) => dict_lookup (str "item_link") item_data
  | _ => None
  end.

Definition record_key (record : json) : option pystr :=
  match record with
  | JDict final_record =>
      match record_link final_record with
      | Some (JStr link) => Some (get_link_unique_key link)
      | _ => None
      end
  | _ => None
  end.

(** The closing events of the [try] block of a listing. *)
Definition closing : list event := [EvClosePage; EvRandomSleep 2 4].

(** The ways one iteration of the loop over the listings can go. *)
Inductive item_step (st : state) (it : listing_item) (env : item_env)
  : list event * state * control → Prop :=
  | StepLimit :
      0 < debug_limit cfg ≤ processed_item_count st →
      item_step st it env ([], st, Stop)
  | StepSkip :
      get_link_unique_key (item_link it) ∈ processed_links st →
      item_step st it env ([EvSkip (item_link it)], st, Continue)
  | StepAbort :
      sliceable (item_title it) = false →
      item_step st it env ([], st, Abort TypeError)
  | StepBlocked :
      get_link_unique_key (item_link it) ∉ processed_links st →
      item_step st it env
        (EvRandomSleep 3 6 :: EvDetailFetch (item_link it) ::
           [EvBlocked; EvSleep (randint 300 600 (cooldown_seed env))] ++ closing,
         st, Stop)
  | StepFailed rest :
      get_link_unique_key (item_link it) ∉ processed_links st →
      Forall inner rest →
      item_step st it env
        (EvRandomSleep 3 6 :: EvDetailFetch (item_link it) :: rest, st, Continue)
  | StepProcessed rest record :
      get_link_unique_key (item_link it) ∉ processed_links st →
      Forall inner rest →
      record_key record = Some (get_link_unique_key (item_link it)) →
      item_step st it env
        (EvRandomSleep 3 6 :: EvDetailFetch (item_link it) :: rest ++
           [EvAppend record (write_ok env);
            EvAddKey (get_link_unique_key (item_link it));
            EvRandomSleep 15 30] ++ closing,
         State ({[get_link_unique_key (item_link it)]} ∪ processed_links st)
               (processed_item_count st + 1)
               (if write_ok env then file st ++ [dumps record] else file st),
         Continue).

(** An event that neither fetches, nor appends, nor inserts for key [K]. *)
Definition safe_for (K : pystr) (ev : event) : Prop :=
  match ev with
  | EvDetailFetch link => get_link_unique_key link ≠ K
  | EvAppend record _ => record_key record ≠ Some K
  | EvAddKey k => k ≠ K
  | _ => True
  end.

(** The number of listings counted as processed in a trace. *)
Fixpoint added (evs : list event) : Z :=
  match evs with
  | [] => 0
  | EvAddKey _ :: rest => 1 + added rest
  | _ :: rest => added rest
  end.

(** The lines a trace appends to the history file. *)
Fixpoint appended (evs : list event) : list pystr :=
  match evs with
  | [] => []
  | EvAppend record true :: rest => dumps record :: appended rest
  | _ :: rest => appended rest
  end.

(** A trace without block signal, or one that ends with the signal, the
    cooldown and the closing of the detail page. *)
Definition block_tail (d : Z) : list event :=
  [EvBlocked; EvSleep d] ++ closing.

Definition block_shape (evs : list event) (stopped : Prop) : Prop :=
  EvBlocked ∉ evs ∨
  (∃ pre d, evs = pre ++ block_tail d ∧ 300 ≤ d ≤ 600 ∧ (EvBlocked ∉ pre) ∧
            stopped).

(** What the loops preserve: nothing is fetched, appended or inserted for a
    key of the processed set, the count and the file follow the trace, and a
    block signal ends the trace. *)
Record loop_invariant (st : state) (evs : list event) (st' : state)
    (stopped : Prop) : Prop := LoopInvariant {
  inv_safe : ∀ K, K ∈ processed_links st →
               Forall (safe_for K) evs ∧ K ∈ processed_links st';
  inv_count : processed_item_count st' = processed_item_count st + added evs;
  inv_file : file st' = file st ++ appended evs;
  inv_block : block_shape evs stopped
}.

Definition warning (ev : event) : Prop := ev = EvWarnLine ∨ ev = EvWarnRead.

(** [K] is the dedup key of a line of the history file. *)
Definition key_in_history (w : world) (K : pystr) : Prop :=
  ∃ lines line,
    history_file w = Some lines ∧ line ∈ lines ∧
    line_key loads line = Ok (Some K).

Definition initial_file (w : world) : list pystr :=
  from_option id [] (history_file w).

Definition final_events : list event := [EvSleep 5; EvCloseBrowser].

(** The debug limit does not stop the loop at this listing. *)
Definition below_limit (st : state) : Prop :=
  debug_limit cfg ≤ 0 ∨ processed_item_count st < debug_limit cfg.

(** The listing is new and its title can be printed: its detail is fetched. *)
Definition fetched (st : state) (it : listing_item) : Prop :=
  below_limit st ∧
  (get_link_unique_key (item_link it) ∉ processed_links st) ∧
  sliceable (item_title it) = true.

(** *** The events of the components *)

Ltac io_events :=
  repeat first
    [ apply io_bind_events; [|intros ?]
    | progress (unfold lift, emit; cbn [fst snd])
    | apply Forall_nil_2
    | (apply Forall_cons; split; [exact I|])
    | match goal with
      | |- Forall _ (fst (if ?b then _ else _)) => destruct b
      | |- Forall _ (fst (match ?x with _ => _ end)) => destruct x
      end ].

Lemma build_record_inner it env detail_json :
  Forall inner (build_record cfg it env detail_json).1.
Proof. unfold build_record. io_events. Qed.

Lemma download_inner urls : Forall inner (download_all_images urls).1.
Proof. unfold download_all_images. io_events. Qed.

Lemma get_ai_analysis_inner prompt replies :
  Forall inner (get_ai_analysis loads prompt replies).1.
Proof.
  unfold get_ai_analysis, retry_on_failure.
  pose proof (retry_from_inner FnAnalysis
                (λ i, get_ai_analysis_body loads prompt (replies i)) 5 10 0 5).
  by destruct (retry_from _ _ _ _ _ _).
Qed.

Lemma analyse_inner env final_record :
  Forall inner (analyse loads cfg env final_record).1.
Proof.
  unfold analyse. case_bool_decide; [constructor|].
  pose proof (get_ai_analysis_inner (ai_prompt_text cfg) (ai_replies env)).
  destruct (get_ai_analysis _ _ _) as [evs r]. simpl in *.
  destruct (py_truthy r); [destruct r|]; done.
Qed.

Lemma send_ntfy_notification_inner it reason :
  Forall inner (send_ntfy_notification cfg it reason).1.
Proof.
  unfold send_ntfy_notification, retry_on_failure.
  pose proof (retry_from_inner FnNotify
    (λ _ : nat, if notify_configured cfg
                then if sliceable (item_title it) then Ok true
                     else Raise TypeError
                else Ok false) 3 5 0 3) as H.
  destruct (retry_from _ _ _ _ _ _) as [evs r]. simpl in *.
  apply Forall_app. split; [done|].
  destruct r as [[]|]; by repeat constructor.
Qed.

Lemma notify_inner it result : Forall inner (notify cfg it result).1.
Proof.
  unfold notify. destruct (py_truthy result); [|constructor].
  apply io_bind_events; [constructor|]. intros r.
  destruct (py_truthy r); [|constructor].
  apply io_bind_events; [constructor|]. intros reason.
  apply send_ntfy_notification_inner.
Qed.

Lemma dict_lookup_set_ne k k' v d :
  k ≠ k' → dict_lookup k (dict_set k' v d) = dict_lookup k d.
Proof.
  intros Hne. induction d as [|[k0 v0] d IH]; simpl.
  - destruct (pystr_eqb k' k) eqn:E; [|done].
    apply pystr_eqb_eq in E. congruence.
  - destruct (pystr_eqb k0 k') eqn:E; simpl.
    + apply pystr_eqb_eq in E as ->.
      destruct (pystr_eqb k' k) eqn:E'; [|done].
      apply pystr_eqb_eq in E'. congruence.
    + by rewrite IH.
Qed.

Ltac eval_keys :=
  repeat match goal with
         | |- context [pystr_eqb (str ?a) (str ?b)] =>
             let v := eval vm_compute in (pystr_eqb (str a) (str b)) in
             change (pystr_eqb (str a) (str b)) with v; cbv iota
         end.

Ltac distinct_keys := intros Heq; vm_compute in Heq; discriminate Heq.

Lemma returns_not {A} (m : io A) (x : A) :
  returns m (λ r, r ≠ x) → m.2 ≠ Ok x.
Proof. unfold returns. destruct m.2; [intros ? [=]; done | done]. Qed.

Lemma block_detected_ok detail_json :
  ∃ b, block_detected py_str detail_json = Ok b.
Proof. unfold block_detected. rewrite safe_get_nested, bind_Ok. eauto. Qed.

Lemma fetch_and_analyse_shape it env :
  ∃ rest,
    (fetch_and_analyse loads py_str cfg it env).1 =
      EvDetailFetch (item_link it) :: rest ∧
    (((fetch_and_analyse loads py_str cfg it env).2 = Ok BlockSeen ∧
      rest = [EvBlocked; EvSleep (randint 300 600 (cooldown_seed env))]) ∨
     ((fetch_and_analyse loads py_str cfg it env).2 ≠ Ok BlockSeen ∧
      Forall inner rest)).
Proof.
  unfold fetch_and_analyse. rewrite (emit_bind (EvDetailFetch (item_link it))).
  cbn [fst snd]. eexists. split; [reflexivity|].
  destruct (detail env) as [[detail_json|]|e].
  - rewrite lift_bind_ok.
    destruct (block_detected_ok detail_json) as [b ->].
    rewrite lift_bind_ok. destruct b.
    + left. rewrite !emit_bind. by split.
    + right. split.
      * apply returns_not. apply returns_any. intros [fr urls].
        apply returns_any. intros _.
        destruct (analyse loads cfg env fr) as [evs [result fr']].
        apply returns_any. intros _. apply returns_any. intros _. done.
      * apply io_bind_events; [apply build_record_inner|]. intros [fr urls].
        apply io_bind_events; [apply download_inner|]. intros _.
        pose proof (analyse_inner env fr) as Ha.
        destruct (analyse loads cfg env fr) as [evs [result fr']].
        apply io_bind_events; [done|]. intros _.
        apply io_bind_events; [apply notify_inner|]. intros _. constructor.
  - rewrite lift_bind_ok, emit_bind. right. split; [done|].
    by repeat constructor.
  - rewrite lift_bind_raise. right. split; [done|constructor].
Qed.

Lemma item_data_link it :
  dict_lookup (str "item_link") (item_data_of it) = Some (JStr (item_link it)).
Proof. unfold item_data_of. cbn [dict_lookup]. eval_keys. reflexivity. Qed.

Lemma build_record_link it env detail_json :
  returns (build_record cfg it env detail_json)
          (λ '(final_record, _),
             record_link final_record = Some (JStr (item_link it))).
Proof.
  unfold build_record. do 6 (apply returns_any; intros ?).
  apply (returns_bind
           (λ d, dict_lookup (str "item_link") d = Some (JStr (item_link it)))).
  { unfold returns, lift; cbn [snd].
    destruct (py_truthy _); [|apply item_data_link].
    destruct (py_iter _) as [imgs|]; [|done]. rewrite bind_Ok.
    destruct (image_urls imgs) as [[|first urls]|]; [| |done]; rewrite bind_Ok.
    - apply item_data_link.
    - rewrite !dict_lookup_set_ne by distinct_keys. apply item_data_link. }
  intros item_data1 Hlink. do 4 (apply returns_any; intros ?).
  unfold returns, mret, io_ret; cbn [snd].
  unfold record_link. cbn [dict_lookup]. eval_keys.
  rewrite !dict_lookup_set_ne by distinct_keys. exact Hlink.
Qed.

Lemma analyse_link env final_record :
  record_link (analyse loads cfg env final_record).2.2 =
    record_link final_record.
Proof.
  unfold analyse. case_bool_decide; [done|].
  destruct (get_ai_analysis _ _ _) as [evs r].
  unfold record_link.
  destruct (py_truthy r); [destruct r|]; cbn [snd];
    by rewrite dict_lookup_set_ne by distinct_keys.
Qed.

Lemma fetch_and_analyse_key it env :
  returns (fetch_and_analyse loads py_str cfg it env)
          (λ r, match r with
                | Assembled record =>
                    record_key record =
                      Some (get_link_unique_key (item_link it))
                | _ => True
                end).
Proof.
  unfold fetch_and_analyse. apply returns_any. intros _.
  apply returns_any. intros [detail_json|]; [|apply returns_any; done].
  apply returns_any. intros [|].
  { apply returns_any. intros _. apply returns_any. done. }
  apply (returns_bind _ _ _ _ (build_record_link it env detail_json)).
  intros [fr urls] Hlink. apply returns_any. intros _.
  pose proof (analyse_link env fr) as Ha.
  destruct (analyse loads cfg env fr) as [evs [result fr']]. cbn [snd] in Ha.
  apply returns_any. intros _. apply returns_any. intros _.
  unfold returns, mret, io_ret; cbn [snd]. unfold record_key.
  by rewrite Ha, Hlink.
Qed.

(** *** One listing, case by case *)

Lemma randint_range lo hi seed : lo ≤ hi → lo ≤ randint lo hi seed ≤ hi.
Proof.
  intros H. unfold randint.
  pose proof (Z.mod_pos_bound seed (hi - lo + 1) ltac:(lia)). lia.
Qed.

Lemma closing_inner : Forall inner closing.
Proof. by repeat constructor. Qed.

Lemma process_item_step st it env :
  item_step st it env (process_item loads py_str dumps cfg st it env).
Proof.
  unfold process_item.
  destruct ((0 <? debug_limit cfg) &&
            (debug_limit cfg <=? processed_item_count st)) eqn:Hlim.
  { apply andb_true_iff in Hlim as [H1%Z.ltb_lt H2%Z.leb_le].
    by apply StepLimit. }
  case_bool_decide as Hin.
  { destruct (sliceable (item_title it)) eqn:Hs;
      [by apply StepSkip | by apply StepAbort]. }
  destruct (sliceable (item_title it)) eqn:Hs; [|by apply StepAbort].
  cbn [negb].
  destruct (fetch_and_analyse_shape it env) as (rest & Hevs & Hshape).
  pose proof (fetch_and_analyse_key it env) as Hkey. unfold returns in Hkey.
  destruct (fetch_and_analyse loads py_str cfg it env) as [evs r].
  cbn [fst snd] in *. subst evs.
  destruct Hshape as [[-> ->]|[Hnb Hinner]].
  { by apply StepBlocked. }
  destruct r as [[| |record]|e].
  - rewrite <- app_comm_cons. apply StepFailed; [done|].
    apply Forall_app; split; [done|apply closing_inner].
  - done.
  - unfold save_to_jsonl. rewrite <- app_comm_cons.
    destruct (write_ok env) eqn:Hw.
    + pose proof (StepProcessed st it env rest record Hin Hinner Hkey) as H.
      rewrite Hw in H. exact H.
    + pose proof (StepProcessed st it env rest record Hin Hinner Hkey) as H.
      rewrite Hw in H. exact H.
  - rewrite <- app_comm_cons. apply StepFailed; [done|].
    apply Forall_app; split; [done|]. by repeat constructor.
Qed.

(** *** Invariants of the loops *)

Lemma added_app evs evs' : added (evs ++ evs') = added evs + added evs'.
Proof. induction evs as [|[] evs IH]; simpl; lia. Qed.

Lemma appended_app evs evs' :
  appended (evs ++ evs') = appended evs ++ appended evs'.
Proof.
  induction evs as [|ev evs IH]; [done|].
  destruct ev as [| | | | | | | | | | | | |record [|]| | |]; simpl; by rewrite ?IH.
Qed.

Lemma inner_quiet evs :
  Forall inner evs → added evs = 0 ∧ appended evs = [] ∧ EvBlocked ∉ evs.
Proof.
  induction 1 as [|ev evs Hev _ (IH1 & IH2 & IH3)].
  - repeat split; try apply not_elem_of_nil; done.
  - destruct ev; try done; simpl; repeat split; try done;
      rewrite elem_of_cons; intros [?|?]; done.
Qed.

Lemma inner_safe K evs : Forall inner evs → Forall (safe_for K) evs.
Proof. intros H. eapply Forall_impl; [exact H|]. by intros []. Qed.

Lemma item_step_safe K st it env r :
  item_step st it env r → K ∈ processed_links st →
  Forall (safe_for K) r.1.1 ∧ K ∈ processed_links r.1.2.
Proof.
  intros Hstep HK.
  destruct Hstep as [Hl|Hin|Hs|Hnin|rest Hnin Hrest|rest record Hnin Hrest Hkey];
    cbn [fst snd processed_links].
  - by split.
  - split; [by repeat constructor|done].
  - by split.
  - split; [|done]. repeat constructor. simpl. set_solver.
  - split; [|done]. constructor; [done|]. constructor; [simpl; set_solver|].
    by apply inner_safe.
  - split; [|set_solver].
    constructor; [done|]. constructor; [simpl; set_solver|].
    apply Forall_app; split; [by apply inner_safe|].
    repeat constructor; simpl; [rewrite Hkey|]; set_solver.
Qed.

Lemma item_step_accounts st it env r :
  item_step st it env r →
  processed_item_count r.1.2 = processed_item_count st + added r.1.1 ∧
  file r.1.2 = file st ++ appended r.1.1.
Proof.
  intros Hstep.
  destruct Hstep as [Hl|Hin|Hs|Hnin|rest Hnin Hrest|rest record Hnin Hrest Hkey];
    cbn [fst snd processed_item_count file]; simpl added; simpl appended;
    rewrite ?app_nil_r; try (split; [lia|done]).
  - destruct (inner_quiet rest Hrest) as (-> & -> & _).
    rewrite app_nil_r. split; [lia|done].
  - rewrite added_app, appended_app.
    destruct (inner_quiet rest Hrest) as (-> & -> & _).
    simpl. split; [lia|]. destruct (write_ok env); simpl; by rewrite ?app_nil_r.
Qed.

Lemma not_blocked_cons ev evs :
  ev ≠ EvBlocked → EvBlocked ∉ evs → EvBlocked ∉ ev :: evs.
Proof. rewrite elem_of_cons. intros ? ? [?|?]; done. Qed.

Lemma not_blocked_app evs evs' :
  EvBlocked ∉ evs → EvBlocked ∉ evs' → EvBlocked ∉ evs ++ evs'.
Proof. rewrite elem_of_app. intros ? ? [?|?]; done. Qed.

Ltac not_blocked :=
  unfold closing;
  repeat first
    [ assumption
    | apply not_elem_of_nil
    | apply not_blocked_cons; [discriminate|]
    | apply not_blocked_app ].

Lemma item_step_block st it env r :
  item_step st it env r → block_shape r.1.1 (r.2 = Stop).
Proof.
  intros Hstep.
  destruct Hstep as [Hl|Hin|Hs|Hnin|rest Hnin Hrest|rest record Hnin Hrest Hkey];
    cbn [fst snd].
  - left. not_blocked.
  - left. not_blocked.
  - left. not_blocked.
  - right. exists [EvRandomSleep 3 6; EvDetailFetch (item_link it)],
             (randint 300 600 (cooldown_seed env)).
    split; [done|]. split; [by apply randint_range|]. split; [|done].
    not_blocked.
  - left. destruct (inner_quiet rest Hrest) as (_ & _ & Hb). not_blocked.
  - left. destruct (inner_quiet rest Hrest) as (_ & _ & Hb). not_blocked.
Qed.

Abbreviation run_items' := (run_items loads py_str dumps cfg).
Abbreviation run_pages' := (run_pages loads py_str dumps cfg).

Lemma loop_invariant_nil st (stopped : Prop) : loop_invariant st [] st stopped.
Proof.
  split; simpl.
  - by split.
  - lia.
  - by rewrite app_nil_r.
  - left. apply not_elem_of_nil.
Qed.

Lemma loop_invariant_item st it env r :
  item_step st it env r → loop_invariant st r.1.1 r.1.2 (r.2 = Stop).
Proof.
  intros H. split.
  - intros K. by apply (item_step_safe K st it env).
  - by apply (item_step_accounts st it env).
  - by apply (item_step_accounts st it env).
  - by apply (item_step_block st it env).
Qed.

(** Two stretches of a run, the first of which did not stop. *)
Lemma loop_invariant_app st evs st' evs' st'' (stopped stopped' : Prop) :
  loop_invariant st evs st' stopped → ¬ stopped →
  loop_invariant st' evs' st'' stopped' →
  loop_invariant st (evs ++ evs') st'' stopped'.
Proof.
  intros [S1 C1 F1 B1] Hns [S2 C2 F2 B2]. split.
  - intros K HK. destruct (S1 K HK) as [Ha HK']. destruct (S2 K HK') as [Hb ?].
    split; [by apply Forall_app|done].
  - rewrite added_app. lia.
  - rewrite appended_app, app_assoc. by rewrite <- F1.
  - destruct B1 as [Hb1|(? & ? & _ & _ & _ & ?)]; [|done].
    destruct B2 as [Hb2|(pre & d & -> & Hd & Hpre & Hs)].
    + left. by apply not_blocked_app.
    + right. exists (evs ++ pre), d. split; [by rewrite app_assoc|].
      split; [done|]. split; [by apply not_blocked_app|done].
Qed.

Lemma loop_invariant_weaken st evs st' (stopped stopped' : Prop) :
  loop_invariant st evs st' stopped → (stopped → stopped') →
  loop_invariant st evs st' stopped'.
Proof.
  intros [S1 C1 F1 B1] H. split; try done.
  destruct B1 as [?|(pre & d & ? & ? & ? & ?)]; [by left|right].
  exists pre, d. auto.
Qed.

Lemma run_items_invariant items : ∀ st,
  loop_invariant st (run_items' st items).1.1 (run_items' st items).1.2
                 ((run_items' st items).2 = Stop).
Proof.
  induction items as [|[it env] items IH]; intros st; simpl.
  - apply loop_invariant_nil.
  - pose proof (loop_invariant_item _ _ _ _ (process_item_step st it env)) as H.
    destruct (process_item loads py_str dumps cfg st it env) as [[evs st'] c].
    cbn [fst snd] in H. destruct c; try exact H.
    specialize (IH st').
    destruct (run_items' st' items) as [[evs' st''] c']. cbn [fst snd] in *.
    by apply (loop_invariant_app _ _ _ _ _ _ _ H).
Qed.

Lemma run_pages_invariant outcomes : ∀ st,
  loop_invariant st (run_pages' st outcomes).1 (run_pages' st outcomes).2 True.
Proof.
  induction outcomes as [|outcome rest IH]; intros st.
  - apply loop_invariant_nil.
  - destruct outcome as [| | |e|[|item items]];
      try apply loop_invariant_nil.
    + apply IH.
    + cbn [run_pages].
      pose proof (run_items_invariant (item :: items) st) as H.
      destruct (run_items' st (item :: items)) as [[evs st'] c].
      cbn [fst snd] in H.
      destruct c; try (cbn [fst snd]; by apply (loop_invariant_weaken _ _ _ _ _ H)).
      destruct rest as [|next rest].
      * cbn [fst snd]. by apply (loop_invariant_weaken _ _ _ _ _ H).
      * specialize (IH st').
        destruct (run_pages' st' (next :: rest)) as [evs' st''].
        cbn [fst snd] in *.
        apply (loop_invariant_app _ _ _ _ _ _ _ H); [done|].
        change (EvRandomSleep 25 50 :: evs')
          with ([EvRandomSleep 25 50] ++ evs').
        apply (loop_invariant_app st' _ st' _ _ False); [|tauto|exact IH].
        split; simpl.
        -- intros K HK. split; [by repeat constructor|done].
        -- lia.
        -- by rewrite app_nil_r.
        -- left. not_blocked.
Qed.

(** *** Loading the history *)

Abbreviation line_key' := (line_key loads).
Abbreviation load_lines' := (load_lines loads).

Lemma load_lines_warns lines : ∀ links,
  Forall (λ ev, ev = EvWarnLine) (load_lines' lines links).1.
Proof.
  induction lines as [|line lines IH]; intros links; simpl; [constructor|].
  destruct (line_key' line) as [[k|]|e]; try apply IH.
  destruct e; try constructor.
  specialize (IH links). destruct (load_lines' lines links) as [evs r].
  by constructor.
Qed.

Lemma load_lines_keys lines : ∀ links links',
  (load_lines' lines links).2 = Ok links' →
  links ⊆ links' ∧
  ∀ line K, line ∈ lines → line_key' line = Ok (Some K) → K ∈ links'.
Proof.
  induction lines as [|line lines IH]; intros links links'; simpl.
  - intros H. injection H as <-. split; [done|].
    intros line K Hin. by apply elem_of_nil in Hin.
  - destruct (line_key' line) as [[k|]|e] eqn:E.
    + intros H. specialize (IH _ _ H). destruct IH as [Hsub Hkeys].
      split; [set_solver|].
      intros l K Hl HK.
      apply elem_of_cons in Hl as [Heq|Hl]; [subst l|by eapply Hkeys].
      rewrite E in HK. injection HK as <-. set_solver.
    + intros H. specialize (IH _ _ H). destruct IH as [Hsub Hkeys].
      split; [done|].
      intros l K Hl HK.
      apply elem_of_cons in Hl as [Heq|Hl]; [congruence|by eapply Hkeys].
    + destruct e; try done.
      specialize (IH links links').
      destruct (load_lines' lines links) as [evs r]. simpl in *.
      intros H. destruct (IH H) as [Hsub Hkeys]. split; [done|].
      intros l K Hl HK.
      apply elem_of_cons in Hl as [Heq|Hl]; [congruence|by eapply Hkeys].
Qed.

(** The load goes through when the only exception a line raises is the
    decoding error. *)
Lemma load_lines_completes lines : ∀ links,
  (∀ line e, line ∈ lines → line_key' line = Raise e → e = JSONDecodeError) →
  ∃ links', (load_lines' lines links).2 = Ok links'.
Proof.
  induction lines as [|line lines IH]; intros links Hlines; simpl; [eauto|].
  assert (Hrest : ∀ l e, l ∈ lines → line_key' l = Raise e → e = JSONDecodeError)
    by (intros l e Hl; apply Hlines; by apply elem_of_cons; right).
  destruct (line_key' line) as [[k|]|e] eqn:E; try by apply IH.
  rewrite (Hlines line e) by (done || by apply elem_of_cons; left).
  destruct (IH links Hrest) as [links' H].
  destruct (load_lines' lines links) as [evs r]. simpl in *. eauto.
Qed.

Lemma load_history_warns w : Forall warning (load_history loads w).1.
Proof.
  unfold load_history.
  pose proof (load_lines_warns (lines_read w) ∅) as H.
  destruct (load_lines' (lines_read w) ∅) as [evs r]. cbn [fst] in H.
  assert (Hw : Forall warning evs)
    by (eapply Forall_impl; [exact H|]; by left).
  destruct (history_file w), (history_read_error w), r; cbn [fst];
    try exact Hw.
  apply Forall_app_2; [done|]. constructor; [by right|constructor].
Qed.

Lemma warnings_quiet K evs :
  Forall warning evs →
  Forall (safe_for K) evs ∧ added evs = 0 ∧ appended evs = [] ∧
  EvBlocked ∉ evs.
Proof.
  induction 1 as [|ev evs [-> | ->] _ (IH1 & IH2 & IH3 & IH4)].
  - repeat split; try done. apply not_elem_of_nil.
  - repeat split; try done; [by constructor|by not_blocked].
  - repeat split; try done; [by constructor|by not_blocked].
Qed.

Lemma load_history_keys w K links :
  history_read_error w = None → key_in_history w K →
  (load_history loads w).2 = Ok links → K ∈ links.
Proof.
  intros Hread (lines & line & Hfile & Hline & Hkey).
  unfold load_history, lines_read. rewrite Hfile, Hread.
  destruct (load_lines' lines ∅) as [evs r] eqn:E. cbn [snd]. intros ->.
  pose proof (load_lines_keys lines ∅ links) as H. rewrite E in H.
  destruct (H eq_refl) as [_ Hkeys]. by eapply Hkeys.
Qed.

(** *** The whole task *)

Abbreviation scrape_xianyu' := (scrape_xianyu loads py_str dumps cfg).
Abbreviation process_item' := (process_item loads py_str dumps cfg).

(** A task either fails while loading the history, or runs the loops from
    the loaded set and returns the count. *)
Lemma scrape_xianyu_cases w :
  (∃ e, (load_history loads w).2 = Raise e ∧
        scrape_xianyu' w = ((load_history loads w).1, initial_file w, Raise e)) ∨
  (∃ links evs st,
      (load_history loads w).2 = Ok links ∧
      loop_invariant (State links 0 (initial_file w)) evs st True ∧
      scrape_xianyu' w =
        ((load_history loads w).1 ++ evs ++ final_events, file st,
         Ok (processed_item_count st))).
Proof.
  unfold scrape_xianyu. fold (initial_file w).
  destruct (load_history loads w) as [evs0 [links|e]]; cbn [fst snd];
    [right|left; eauto].
  exists links. destruct (setup w).
  - exists [EvCloseBrowser], (State links 0 (initial_file w)).
    split; [done|]. split; [|done]. split; simpl.
    + intros K HK. split; [by repeat constructor|done].
    + lia.
    + by rewrite app_nil_r.
    + left. not_blocked.
  - exists [], (State links 0 (initial_file w)).
    split; [done|]. split; [apply loop_invariant_nil|done].
  - pose proof (run_pages_invariant (pages w) (State links 0 (initial_file w)))
      as H.
    destruct (run_pages' (State links 0 (initial_file w)) (pages w))
      as [evs st]. cbn [fst snd] in H.
    exists evs, st. split; [done|]. split; [exact H|done].
Qed.

Lemma final_events_quiet K :
  Forall (safe_for K) final_events ∧ added final_events = 0 ∧
  appended final_events = [] ∧ EvBlocked ∉ final_events.
Proof. repeat split; try done; [by repeat constructor|unfold final_events; not_blocked]. Qed.

(** C1. Let [K] be the dedup key of a line of the history file, read to its
    end at the start of the task.  A listing whose link has key [K] is
    skipped before anything is fetched and leaves the state as it is; in the
    whole run no detail page is fetched for a link of key [K], no record of
    key [K] is appended, and the history file grows only by the records the
    run appends. *)
Theorem history_keys_never_reprocessed (w : world) (K : pystr) :
  history_read_error w = None → key_in_history w K →
  (∀ st it env,
      K ∈ processed_links st → get_link_unique_key (item_link it) = K →
      ∃ evs c, process_item' st it env = (evs, st, c) ∧
               (evs = [] ∨ evs = [EvSkip (item_link it)])) ∧
  (∀ link, get_link_unique_key link = K →
           EvDetailFetch link ∉ (scrape_xianyu' w).1.1) ∧
  (∀ record ok, EvAppend record ok ∈ (scrape_xianyu' w).1.1 →
                record_key record ≠ Some K) ∧
  (scrape_xianyu' w).1.2 = initial_file w ++ appended (scrape_xianyu' w).1.1.
Proof.
  intros Hread Hkey. split.
  { intros st it env HK Hit.
    subst K.
    destruct (process_item_step st it env)
      as [Hl|Hin|Hs|Hnin|rest Hnin Hrest|rest record Hnin Hrest Hrec];
      try done; eexists _, _; (split; [reflexivity|]); auto. }
  assert (Hsafe : Forall (safe_for K) (scrape_xianyu' w).1.1 ∧
            (scrape_xianyu' w).1.2 =
              initial_file w ++ appended (scrape_xianyu' w).1.1).
  { pose proof (load_history_warns w) as Hwarn.
    destruct (warnings_quiet K _ Hwarn) as (Hs0 & _ & Ha0 & _).
    destruct (scrape_xianyu_cases w)
      as [(e & Hload & ->)|(links & evs & st & Hload & Hinv & ->)];
      cbn [fst snd].
    - split; [done|]. by rewrite Ha0, app_nil_r.
    - destruct Hinv as [Hs _ Hf _]. cbn [processed_links file] in *.
      destruct (Hs K (load_history_keys w K links Hread Hkey Hload)) as [Hs1 _].
      destruct (final_events_quiet K) as (Hs2 & _ & Ha2 & _).
      split; [by repeat apply Forall_app_2|].
      by rewrite !appended_app, Ha0, Ha2, app_nil_r. }
  destruct Hsafe as [Hsafe Hfile]. rewrite Forall_forall in Hsafe.
  split; [|split; [|done]].
  - intros link Hlink Hin. by apply (Hsafe _ Hin).
  - intros record ok Hin. apply (Hsafe _ Hin).
Qed.

(** *** One listing under given answers *)

Lemma process_item_fetched st it env :
  fetched st it →
  process_item' st it env =
    match fetch_and_analyse loads py_str cfg it env with
    | (evs, Raise e) =>
        (EvRandomSleep 3 6 :: evs ++ EvDetailFailed :: closing, st, Continue)
    | (evs, Ok DetailNotOk) =>
        (EvRandomSleep 3 6 :: evs ++ closing, st, Continue)
    | (evs, Ok BlockSeen) => (EvRandomSleep 3 6 :: evs ++ closing, st, Stop)
    | (evs, Ok (Assembled final_record)) =>
        (EvRandomSleep 3 6 :: evs ++
           (save_to_jsonl dumps final_record (write_ok env) (file st)).1.1 ++
           [EvAddKey (get_link_unique_key (item_link it));
            EvRandomSleep 15 30] ++ closing,
         State ({[get_link_unique_key (item_link it)]} ∪ processed_links st)
               (processed_item_count st + 1)
               (save_to_jsonl dumps final_record (write_ok env) (file st)).2,
         Continue)
    end.
Proof.
  intros (Hlim & Hnew & Htitle). unfold process_item.
  replace ((0 <? debug_limit cfg) &&
           (debug_limit cfg <=? processed_item_count st)) with false.
  2:{ symmetry. apply andb_false_iff.
      destruct Hlim; [left; apply Z.ltb_ge|right; apply Z.leb_gt]; lia. }
  rewrite bool_decide_eq_false_2 by done. rewrite Htitle. cbn [negb].
  destruct (fetch_and_analyse loads py_str cfg it env) as [evs [[| |rec]|e]];
    try done.
  by destruct (save_to_jsonl dumps rec (write_ok env) (file st)) as [[? ?] ?].
Qed.

Lemma fetch_and_analyse_blocked it env detail_json :
  detail env = Ok (Some detail_json) →
  block_detected py_str detail_json = Ok true →
  fetch_and_analyse loads py_str cfg it env =
    ([EvDetailFetch (item_link it); EvBlocked;
      EvSleep (randint 300 600 (cooldown_seed env))], Ok BlockSeen).
Proof.
  intros Hd Hb. unfold fetch_and_analyse.
  rewrite (emit_bind (EvDetailFetch (item_link it))), Hd, lift_bind_ok, Hb,
    lift_bind_ok, !emit_bind.
  reflexivity.
Qed.

Lemma analyse_all_fail env final_record (errs : nat → exn) :
  ai_prompt_text cfg ≠ [] →
  (∀ i, (i < 5)%nat →
        get_ai_analysis_body loads (ai_prompt_text cfg) (ai_replies env i) =
          Raise (errs i)) →
  analyse loads cfg env final_record =
    (failures FnAnalysis errs 5 10 0 5,
     (JNull, dict_set (str "ai_analysis") AI_NONE_ERROR final_record)).
Proof.
  intros Hprompt Hfail. unfold analyse, get_ai_analysis, retry_on_failure.
  rewrite bool_decide_eq_false_2 by done.
  rewrite (retry_from_all_fail FnAnalysis _ errs)
    by (intros j Hj; apply Hfail; lia).
  reflexivity.
Qed.

Lemma fetch_and_analyse_all_fail it env detail_json final_record urls
    evs_record evs_images (errs : nat → exn) :
  detail env = Ok (Some detail_json) →
  block_detected py_str detail_json = Ok false →
  build_record cfg it env detail_json = (evs_record, Ok (final_record, urls)) →
  download_all_images urls = (evs_images, Ok tt) →
  ai_prompt_text cfg ≠ [] →
  (∀ i, (i < 5)%nat →
        get_ai_analysis_body loads (ai_prompt_text cfg) (ai_replies env i) =
          Raise (errs i)) →
  fetch_and_analyse loads py_str cfg it env =
    (EvDetailFetch (item_link it) :: evs_record ++ evs_images ++
       failures FnAnalysis errs 5 10 0 5,
     Ok (Assembled
           (JDict (dict_set (str "ai_analysis") AI_NONE_ERROR final_record)))).
Proof.
  intros Hd Hb Hrec Himg Hprompt Hfail. unfold fetch_and_analyse.
  rewrite (emit_bind (EvDetailFetch (item_link it))), Hd, lift_bind_ok, Hb,
    lift_bind_ok, Hrec, io_bind_ok, Himg, io_bind_ok,
    (analyse_all_fail env final_record errs Hprompt Hfail), io_bind_ok.
  cbn [py_truthy notify fst snd]. rewrite !app_nil_r. reflexivity.
Qed.

(** C7. When the payload of a fetched detail holds the block code, the
    listing ends with a cooldown of 300 to 600 seconds and stops the loops
    with the state as it was; and a run in which the signal occurs ends right
    after it: the cooldown, the closing of the detail page and of the
    browser, the count of the listings processed before the signal as the
    result, and no line appended after the signal. *)
Theorem block_signal_ends_task (w : world) :
  (∀ st it env detail_json,
      fetched st it →
      detail env = Ok (Some detail_json) →
      block_detected py_str detail_json = Ok true →
      ∃ d, 300 ≤ d ≤ 600 ∧
           process_item' st it env =
             (EvRandomSleep 3 6 :: EvDetailFetch (item_link it) :: block_tail d,
              st, Stop)) ∧
  (EvBlocked ∈ (scrape_xianyu' w).1.1 →
   ∃ pre d,
     (scrape_xianyu' w).1.1 = pre ++ block_tail d ++ final_events ∧
     300 ≤ d ≤ 600 ∧ (EvBlocked ∉ pre) ∧
     (scrape_xianyu' w).2 = Ok (added pre) ∧
     (scrape_xianyu' w).1.2 = initial_file w ++ appended pre).
Proof.
  split.
  - intros st it env detail_json Hf Hd Hb.
    exists (randint 300 600 (cooldown_seed env)).
    split; [by apply randint_range|].
    rewrite (process_item_fetched st it env Hf).
    by rewrite (fetch_and_analyse_blocked it env detail_json Hd Hb).
  - pose proof (load_history_warns w) as Hwarn.
    destruct (warnings_quiet [] _ Hwarn) as (_ & Hc0 & Ha0 & Hb0).
    destruct (final_events_quiet []) as (_ & _ & _ & Hbf).
    destruct (scrape_xianyu_cases w)
      as [(e & Hload & ->)|(links & evs & st & Hload & Hinv & ->)];
      cbn [fst snd]; [done|].
    destruct Hinv as [_ Hc Hf [Hnb|(pre & d & -> & Hd & Hpre & _)]].
    + intros Hin. exfalso. revert Hin. by repeat apply not_blocked_app.
    + intros _. exists ((load_history loads w).1 ++ pre), d.
      cbn [processed_item_count file] in *.
      split; [by rewrite <- !app_assoc|]. split; [done|].
      split; [by apply not_blocked_app|].
      rewrite Hc, Hf, !added_app, !appended_app, Hc0, Ha0.
      split; [f_equal; simpl; lia|by rewrite app_nil_r].
Qed.

(** C5. The analysis is called at most 5 times for a listing, and every
    pause between two calls lasts 10 seconds; a decoding failure of the
    answer leaves the call as [JSONDecodeError], once per call.  When the
    five calls fail, the [ai_analysis] field of the record is the error
    marker, the record is appended to the history file and the key inserted,
    and the loop goes on with the next listing. *)
Theorem analysis_failure_is_recorded :
  (∀ env final_record,
      (length (List.filter (is_attempt FnAnalysis)
                 (analyse loads cfg env final_record).1) ≤ 5)%nat ∧
      Forall (λ ev, ∀ s, ev = EvSleep s → s = 10)
             (analyse loads cfg env final_record).1) ∧
  (∀ prompt content,
      prompt ≠ [] → parse_ai_response loads content = Raise JSONDecodeError →
      get_ai_analysis_body loads prompt (Ok (Some content)) =
        Raise JSONDecodeError) ∧
  (∀ st it env rest detail_json final_record urls evs_record evs_images errs,
      fetched st it →
      detail env = Ok (Some detail_json) →
      block_detected py_str detail_json = Ok false →
      build_record cfg it env detail_json =
        (evs_record, Ok (final_record, urls)) →
      download_all_images urls = (evs_images, Ok tt) →
      ai_prompt_text cfg ≠ [] →
      (∀ i, (i < 5)%nat →
            get_ai_analysis_body loads (ai_prompt_text cfg) (ai_replies env i) =
              Raise (errs i)) →
      write_ok env = true →
      let record :=
        JDict (dict_set (str "ai_analysis") AI_NONE_ERROR final_record) in
      let st' :=
        State ({[get_link_unique_key (item_link it)]} ∪ processed_links st)
              (processed_item_count st + 1) (file st ++ [dumps record]) in
      let evs :=
        EvRandomSleep 3 6 :: EvDetailFetch (item_link it) ::
          evs_record ++ evs_images ++ failures FnAnalysis errs 5 10 0 5 ++
          [EvAppend record true;
           EvAddKey (get_link_unique_key (item_link it));
           EvRandomSleep 15 30] ++ closing in
      process_item' st it env = (evs, st', Continue) ∧
      run_items' st ((it, env) :: rest) =
        (evs ++ (run_items' st' rest).1.1, (run_items' st' rest).1.2,
         (run_items' st' rest).2)).
Proof.
  split; [|split].
  - intros env fr. unfold analyse. case_bool_decide; [split; [simpl; lia|constructor]|].
    unfold get_ai_analysis, retry_on_failure.
    pose proof (retry_from_attempts FnAnalysis
      (λ i, get_ai_analysis_body loads (ai_prompt_text cfg) (ai_replies env i))
      5 10 0 5) as Hn.
    pose proof (retry_from_sleeps FnAnalysis
      (λ i, get_ai_analysis_body loads (ai_prompt_text cfg) (ai_replies env i))
      5 10 0 5) as Hs.
    destruct (retry_from _ _ _ _ _ _) as [evs r]. cbn [fst] in *.
    destruct (py_truthy _); [destruct (from_option id JNull r)|]; by split.
  - intros prompt content Hp Hparse. unfold get_ai_analysis_body.
    rewrite bool_decide_eq_false_2 by done. by rewrite bind_Ok.
  - intros st it env rest detail_json fr urls evs_record evs_images errs
      Hf Hd Hb Hrec Himg Hprompt Hfail Hw record st' evs.
    assert (Hitem : process_item' st it env = (evs, st', Continue)).
    { rewrite (process_item_fetched st it env Hf).
      rewrite (fetch_and_analyse_all_fail it env detail_json fr urls
                 evs_record evs_images errs Hd Hb Hrec Himg Hprompt Hfail).
      unfold save_to_jsonl. rewrite Hw. cbn [fst snd].
      subst evs st' record. do 3 f_equal.
      rewrite <- app_comm_cons. f_equal.
      by rewrite <- !app_assoc. }
    split; [done|]. cbn [run_items]. rewrite Hitem.
    by destruct (run_items' st' rest) as [[? ?] ?].
Qed.

(** C3, at a failing write. When the write of [save_to_jsonl] fails, nothing
    is appended to the history file, and the key of the listing is inserted
    into the processed set and the listing counted all the same. *)
Theorem key_inserted_after_failed_append st it env evs record :
  fetched st it →
  fetch_and_analyse loads py_str cfg it env = (evs, Ok (Assembled record)) →
  write_ok env = false →
  process_item' st it env =
    (EvRandomSleep 3 6 :: evs ++
       [EvAppend record false;
        EvAddKey (get_link_unique_key (item_link it));
        EvRandomSleep 15 30] ++ closing,
     State ({[get_link_unique_key (item_link it)]} ∪ processed_links st)
           (processed_item_count st + 1) (file st),
     Continue).
Proof.
  intros Hf Hfetch Hw.
  rewrite (process_item_fetched st it env Hf), Hfetch.
  unfold save_to_jsonl. by rewrite Hw.
Qed.

End TaskLemmas.

(** ** The task on concrete answers *)

(** C8, at failing inputs. A line that is not JSON is logged and skipped and
    the keys of the other lines are loaded; but a line that is JSON and not
    a record (a list, a record whose [item_info] is not an object or whose
    [item_link] is not a string) raises [AttributeError], which no handler
    of the load catches: [scrape_xianyu] raises before anything is
    scraped. *)
Theorem history_line_not_a_record_aborts (py_str dumps : json → pystr)
    (cfg : task_config) (setup : setup_outcome) (pages : list page_outcome) :
  let good :=
    jtext "{'item_info': {'item_link': 'https://www.goofish.com/item?id=11&spm=a21'}}" in
  load_history json_loads (World (Some [str "not json"; good]) None setup pages) =
    ([EvWarnLine], Ok {[str "https://www.goofish.com/item?id=11"]}) ∧
  line_key json_loads (str "[]") = Raise AttributeError ∧
  line_key json_loads (jtext "{'item_info': 5}") = Raise AttributeError ∧
  line_key json_loads (jtext "{'item_info': {'item_link': 5}}") =
    Raise AttributeError ∧
  scrape_xianyu json_loads py_str dumps cfg
    (World (Some [good; str "[]"]) None setup pages) =
    ([], [good; str "[]"], Raise AttributeError).
Proof. repeat split; vm_compute; reflexivity. Qed.

Module DemoRuns.
Import Demo.

Definition st0 : state := State ∅ 0 [].

Definition failing_replies : nat → res (option pystr) :=
  λ _, Ok (Some (str "I am sorry, I cannot help with that.")).

Definition env_analysis_fails : item_env :=
  answering failing_replies true "SUCCESS::ok".
Definition env_write_fails : item_env :=
  answering (λ _, Ok (Some verdict_yes)) false "SUCCESS::ok".
Definition env_blocked : item_env :=
  answering (λ _, Ok (Some verdict_no)) true "FAIL_SYS_USER_VALIDATE::blocked".
Definition env_ok : item_env :=
  answering (λ _, Ok (Some verdict_no)) true "SUCCESS::ok".

(** The record built for the new listing, and its image URLs. *)
Definition built : io (list (pystr * json) * list json) :=
  build_record cfg new_item env_analysis_fails (detail_payload "SUCCESS::ok").
Definition built_record : list (pystr * json) :=
  match built.2 with
  | Ok (final_record, _) => final_record
  | Raise _ => []
  end.
Definition built_urls : list json :=
  match built.2 with
  | Ok (_, urls) => urls
  | Raise _ => []
  end.

(** The scenario of the specification: one page with a listing of the
    history and a new one; one line is appended, nothing is notified and the
    count is 1. *)
Definition is_notify (ev : event) : bool :=
  match ev with
  | EvNotify _ => true
  | _ => false
  end.

Example end_to_end :
  let r := run (one_page [(old_item, env_ok); (new_item, env_ok)] [old_line]) in
  r.2 = Ok 1 ∧ length r.1.2 = 2%nat ∧ head r.1.2 = Some old_line ∧
  List.filter is_notify r.1.1 = [] ∧
  List.filter (is_attempt FnAnalysis) r.1.1 = [EvAttempt FnAnalysis 0] ∧
  added r.1.1 = 1.
Proof. vm_compute. repeat split; reflexivity. Qed.

End DemoRuns.

(** ** The theorems at concrete inputs *)

Section Witnesses.

Import Demo DemoRuns.

Local Ltac fetched_new :=
  split; [left; vm_compute; discriminate|];
  split; [apply not_elem_of_empty|reflexivity].

Local Ltac in_trace :=
  vm_compute; repeat first [apply list_elem_of_here | apply list_elem_of_further].

Lemma history_keys_never_reprocessed_witness :
  let w := one_page [(old_item, env_ok); (new_item, env_ok)] [old_line] in
  (EvDetailFetch (item_link old_item) ∉ (run w).1.1) ∧
  (run w).1.2 = [old_line] ++ appended dumps_plain (run w).1.1.
Proof.
  intros w.
  destruct (history_keys_never_reprocessed json_loads py_str_plain dumps_plain
              cfg w (str "https://www.goofish.com/item?id=11"))
    as (_ & Hfetch & _ & Hfile).
  - reflexivity.
  - exists [old_line], old_line. split; [reflexivity|].
    split; [apply list_elem_of_here|]. vm_compute. reflexivity.
  - split; [|exact Hfile]. apply Hfetch. vm_compute. reflexivity.
Defined.

Lemma block_signal_ends_task_witness :
  let w := one_page [(new_item, env_ok); (old_item, env_blocked);
                     (new_item, env_ok)] [] in
  (∃ d, 300 ≤ d ≤ 600 ∧
        process_item json_loads py_str_plain dumps_plain cfg st0 old_item
          env_blocked =
          (EvRandomSleep 3 6 :: EvDetailFetch (item_link old_item) ::
             block_tail d, st0, Stop)) ∧
  (∃ pre d,
      (run w).1.1 = pre ++ block_tail d ++ final_events ∧
      300 ≤ d ≤ 600 ∧ (EvBlocked ∉ pre) ∧
      (run w).2 = Ok (added pre) ∧
      (run w).1.2 = initial_file w ++ appended dumps_plain pre).
Proof.
  intros w.
  destruct (block_signal_ends_task json_loads py_str_plain dumps_plain cfg w)
    as [Hitem Hrun].
  split.
  - apply (Hitem st0 old_item env_blocked
             (detail_payload "FAIL_SYS_USER_VALIDATE::blocked")).
    + fetched_new.
    + reflexivity.
    + vm_compute. reflexivity.
  - apply Hrun. in_trace.
Defined.

Lemma analysis_failure_is_recorded_witness :
  ∃ evs record,
    process_item json_loads py_str_plain dumps_plain cfg st0 new_item
      env_analysis_fails =
      (evs,
       State ({[get_link_unique_key (item_link new_item)]} ∪ ∅) (0 + 1)
             ([] ++ [dumps_plain (JDict record)]),
       Continue) ∧
    dict_lookup (str "ai_analysis") record = Some AI_NONE_ERROR.
Proof.
  destruct (analysis_failure_is_recorded json_loads py_str_plain dumps_plain cfg)
    as (_ & _ & Hitem).
  destruct (Hitem st0 new_item env_analysis_fails []
              (detail_payload "SUCCESS::ok") built_record built_urls built.1
              (download_all_images built_urls).1 (λ _, JSONDecodeError))
    as [Hprocess _].
  - fetched_new.
  - reflexivity.
  - vm_compute. reflexivity.
  - vm_compute. reflexivity.
  - vm_compute. reflexivity.
  - vm_compute. discriminate.
  - intros i _. vm_compute. reflexivity.
  - reflexivity.
  - eexists _, _. split; [exact Hprocess|]. vm_compute. reflexivity.
Defined.

Lemma key_inserted_after_failed_append_witness :
  ∃ evs st',
    process_item json_loads py_str_plain dumps_plain cfg st0 new_item
      env_write_fails = (evs, st', Continue) ∧
    file st' = [] ∧ processed_item_count st' = 1 ∧
    get_link_unique_key (item_link new_item) ∈ processed_links st'.
Proof.
  eexists _, _. split.
  - eapply (key_inserted_after_failed_append json_loads py_str_plain dumps_plain
              cfg st0 new_item env_write_fails).
    + fetched_new.
    + vm_compute. reflexivity.
    + reflexivity.
  - cbn [file processed_item_count processed_links st0].
    split; [done|]. split; [done|]. set_solver.
Defined.

End Witnesses.

(** * Further properties of the code

    The functions of [spider_v2.py] around those above: the retry
    decorator and [safe_get] in general, the parsers of the seller's
    profile, [convert_goofish_link], the file names of
    [download_all_images], [_parse_search_results_json], and the run of a
    task as a whole. *)

From Stdlib Require Import DecimalZ DecimalPos.

(** ** The retry decorator, continued *)

(** The trace of [k] failed calls, each followed by the pause. *)
Fixpoint failed_and_paused (f : fname) (errs : nat → exn) (delay : Z)
    (i k : nat) : list event :=
  match k with
  | O => []
  | S k' =>
      EvAttempt f i :: EvFailed f (errs i) :: EvSleep delay ::
      failed_and_paused f errs delay (S i) k'
  end.

Definition is_sleep (ev : event) : bool :=
  match ev with
  | EvSleep _ => true
  | _ => false
  end.

Section RetryProperties.

Context {A : Type}.
Implicit Types (func : nat → res A).

Lemma retry_from_first_success f func (errs : nat → exn) retries delay v :
  ∀ k i todo,
    (k < todo)%nat → (i + k < retries)%nat →
    (∀ j, (i ≤ j < i + k)%nat → func j = Raise (errs j)) →
    func (i + k)%nat = Ok v →
    retry_from f func retries delay i todo =
      (failed_and_paused f errs delay i k ++ [EvAttempt f (i + k)], Some v).
Proof.
  induction k as [|k IH]; intros i todo Hk Hr Hfail Hok.
  - destruct todo as [|todo]; [lia|]. simpl.
    rewrite Nat.add_0_r in Hok. by rewrite Hok, Nat.add_0_r.
  - destruct todo as [|todo]; [lia|]. simpl.
    rewrite (Hfail i) by lia.
    replace (i <? retries - 1)%nat with true
      by (symmetry; apply Nat.ltb_lt; lia).
    replace (i + S k)%nat with (S i + k)%nat in * by lia.
    rewrite (IH (S i) todo); try lia; try done.
    intros j Hj. apply Hfail. lia.
Qed.

(** X1. The decorated function returns the result of the first call that
    does not raise: when the calls before call number [k + 1] raise and that
    call returns [v], with [k + 1] within [retries], the wrapper makes
    exactly these [k + 1] calls, pauses [delay] seconds after each of the
    [k] failures, and returns [v]. *)
Theorem retry_returns_first_success (f : fname) func (errs : nat → exn)
    (retries : nat) (delay : Z) (k : nat) (v : A) :
  (k < retries)%nat →
  (∀ j, (j < k)%nat → func j = Raise (errs j)) →
  func k = Ok v →
  retry_on_failure f retries delay func =
    (failed_and_paused f errs delay 0 k ++ [EvAttempt f k], Some v).
Proof.
  intros Hk Hfail Hok. unfold retry_on_failure.
  apply (retry_from_first_success f func errs retries delay v k 0 retries);
    try done; try lia.
  intros j Hj. apply Hfail. lia.
Qed.

Lemma failures_counts f (errs : nat → exn) retries delay : ∀ todo i,
  (i + todo = retries)%nat →
  length (List.filter (is_attempt f) (failures f errs retries delay i todo)) =
    todo ∧
  length (List.filter is_sleep (failures f errs retries delay i todo)) =
    (todo - 1)%nat.
Proof.
  induction todo as [|todo IH]; intros i Hi; [done|].
  cbn [failures List.filter is_attempt is_sleep].
  rewrite bool_decide_eq_true_2 by done. cbn [length].
  destruct todo as [|todo].
  - replace (i <? retries - 1)%nat with false
      by (symmetry; apply Nat.ltb_ge; lia).
    done.
  - replace (i <? retries - 1)%nat with true
      by (symmetry; apply Nat.ltb_lt; lia).
    destruct (IH (S i)) as [H1 H2]; [lia|].
    cbn [app List.filter is_attempt is_sleep length].
    rewrite H1, H2. split; lia.
Qed.

(** X2. When every call raises, the wrapper gives up after exactly
    [retries] calls and returns [None]; it pauses between the calls only,
    [retries - 1] times, and not after the last failure. *)
Theorem retry_gives_up_after_retries (f : fname) func (errs : nat → exn)
    (retries : nat) (delay : Z) :
  (∀ j, (j < retries)%nat → func j = Raise (errs j)) →
  (retry_on_failure f retries delay func).2 = None ∧
  length (List.filter (is_attempt f) (retry_on_failure f retries delay func).1) =
    retries ∧
  length (List.filter is_sleep (retry_on_failure f retries delay func).1) =
    (retries - 1)%nat ∧
  (0 < retries → last (retry_on_failure f retries delay func).1 =
                   Some (EvFailed f (errs (retries - 1)%nat)))%nat.
Proof.
  intros Hfail. unfold retry_on_failure.
  rewrite (retry_from_all_fail f func errs retries delay 0 retries)
    by (intros j Hj; apply Hfail; lia).
  cbn [fst snd]. split; [done|].
  destruct (failures_counts f errs retries delay retries 0) as [H1 H2];
    [lia|].
  split; [done|]. split; [done|]. clear H1 H2 Hfail.
  intros Hpos.
  assert (∀ todo i, (0 < todo)%nat → (i + todo = retries)%nat →
            last (failures f errs retries delay i todo) =
              Some (EvFailed f (errs (retries - 1)%nat))) as H.
  { induction todo as [|todo IH]; intros i Ht Hi; [lia|].
    cbn [failures]. destruct todo as [|todo].
    - replace (i <? retries - 1)%nat with false
        by (symmetry; apply Nat.ltb_ge; lia).
      simpl. by replace (retries - 1)%nat with i by lia.
    - replace (i <? retries - 1)%nat with true
        by (symmetry; apply Nat.ltb_lt; lia).
      specialize (IH (S i) ltac:(lia) ltac:(lia)).
      cbn [app]. rewrite !last_cons, IH. done. }
  apply H; lia.
Qed.

End RetryProperties.

Lemma retry_returns_first_success_witness :
  retry_on_failure FnNotify 3 5
    (λ i, if (i <? 2)%nat then Raise HTTPError else Ok 7) =
    ([EvAttempt FnNotify 0; EvFailed FnNotify HTTPError; EvSleep 5;
      EvAttempt FnNotify 1; EvFailed FnNotify HTTPError; EvSleep 5;
      EvAttempt FnNotify 2], Some 7).
Proof.
  apply (retry_returns_first_success FnNotify
           (λ i, if (i <? 2)%nat then Raise HTTPError else Ok 7)
           (λ _, HTTPError) 3 5 2 7).
  - lia.
  - intros j Hj. by destruct j as [|[|j]]; [| |lia].
  - reflexivity.
Defined.

Lemma retry_gives_up_after_retries_witness :
  (retry_on_failure FnAnalysis 5 10
     (λ _, Raise JSONDecodeError : res json)).2 = None ∧
  length (List.filter is_sleep
            (retry_on_failure FnAnalysis 5 10
               (λ _, Raise JSONDecodeError : res json)).1) = 4%nat.
Proof.
  destruct (retry_gives_up_after_retries FnAnalysis
              (λ _, Raise JSONDecodeError : res json)
              (λ _, JSONDecodeError) 5 10) as (H1 & _ & H2 & _).
  - reflexivity.
  - by split.
Defined.

(** ** [safe_get], continued *)

Section SafeGetProperties.

Lemma nested_value_app data keys keys' :
  nested_value data (keys ++ keys') =
    match nested_value data keys with
    | Some v => nested_value v keys'
    | None => None
    end.
Proof.
  revert data. induction keys as [|k keys IH]; intros data; simpl; [done|].
  by destruct (py_getitem data k).
Qed.

Lemma nested_value_empty_dict k keys :
  nested_value (JDict []) (k :: keys) = None.
Proof. by destruct k. Qed.

End SafeGetProperties.

(** X3. Two lookups in a row are one lookup of the whole path: looking
    [keys'] up in what [safe_get(data, *keys, default={})] returned gives
    what [safe_get(data, *keys, *keys', default=d)] gives, for every
    non-empty [keys'].  The parsers use the first form, with [cardData] or
    [exContent] as the first step. *)
Theorem safe_get_composes (data : json) (keys keys' : list key)
    (default : option json) :
  keys' ≠ [] →
  (inner ← safe_get data keys (Some (JDict []));
   safe_get inner keys' default) =
  safe_get data (keys ++ keys') default.
Proof.
  intros Hne. rewrite !safe_get_nested, bind_Ok, safe_get_nested.
  rewrite nested_value_app. f_equal.
  destruct (nested_value data keys) as [v|]; [done|].
  destruct keys' as [|k keys']; [done|].
  cbn [from_option id]. by rewrite nested_value_empty_dict.
Qed.

Lemma safe_get_composes_witness :
  (inner ← safe_get (JList [JInt 1]) [KStr (str "cardData")] (Some (JDict []));
   safe_get inner [KStr (str "rateTagList"); KInt 0; KStr (str "text")]
            (Some (JStr []))) =
  safe_get (JList [JInt 1])
           ([KStr (str "cardData")] ++
            [KStr (str "rateTagList"); KInt 0; KStr (str "text")])
           (Some (JStr [])).
Proof. apply safe_get_composes. discriminate. Defined.

(** ** The parsers of the seller's profile *)

(** [v == s] for a [str] literal [s]. *)
Definition py_eq_str (v : json) (s : pystr) : bool :=
  match v with
  | JStr t => pystr_eqb t s
  | _ => false
  end.

Definition is_dict (v : json) : bool :=
  match v with
  | JDict _ => true
  | _ => false
  end.

(** [[f(x) for x in l]], or a loop that appends [f(x)]: the first exception
    ends it. *)
Fixpoint map_res {A B} (f : A → res B) (l : list A) : res (list B) :=
  match l with
  | [] => Ok []
  | x :: rest => y ← f x; ys ← map_res f rest; Ok (y :: ys)
  end.

(** *** [parse_ratings_data] *)

Definition rating_type_text (rate_type : json) : pystr :=
  if py_eq_int rate_type 1 then str "Positive"
  else if py_eq_int rate_type 0 then str "Neutral"
  else if py_eq_int rate_type (-1) then str "Negative"
  else str "Unknown".

(** One iteration of the loop of [parse_ratings_data]. *)
Definition parse_rating (card : json) : res json :=
  data ← safe_get card [KStr (str "cardData")] (Some (JDict []));
  rate_tag ← safe_get data [KStr (str "rateTagList"); KInt 0; KStr (str "text")]
                      (Some (JStr (str "Unknown Role")));
  rate_type ← safe_get data [KStr (str "rate")] None;
  rating_id ← py_get data (str "rateId") JNull;
  rating_content ← py_get data (str "feedback") JNull;
  rater_nickname ← py_get data (str "raterUserNick") JNull;
  rating_time ← py_get data (str "gmtCreate") JNull;
  rating_images ← safe_get data [KStr (str "pictCdnUrlList")] (Some (JList []));
  Ok (JDict [(str "rating_id", rating_id);
             (str "rating_content", rating_content);
             (str "rating_type", JStr (rating_type_text rate_type));
             (str "rater_role", rate_tag);
             (str "rater_nickname", rater_nickname);
             (str "rating_time", rating_time);
             (str "rating_images", rating_images)]).

Definition parse_ratings_data (ratings_json : list json) : res (list json) :=
  map_res parse_rating ratings_json.

(** *** [_parse_user_items_data] *)

Section UserItems.

(** Python's [str]. *)
Variable py_str : json → pystr.

Definition item_status_text (status_code : json) : pystr :=
  if py_eq_int status_code 0 then str "For Sale"
  else if py_eq_int status_code 1 then str "Sold"
  else str "Unknown Status (" ++ py_str status_code ++ str ")".

(** One iteration of the loop of [_parse_user_items_data]. *)
Definition parse_user_item (card : json) : res json :=
  data ← py_get card (str "cardData") (JDict []);
  status_code ← py_get data (str "itemStatus") JNull;
  item_id ← py_get data (str "id") JNull;
  item_title ← py_get data (str "title") JNull;
  price_info ← py_get data (str "priceInfo") (JDict []);
  item_price ← py_get price_info (str "price") JNull;
  pic_info ← py_get data (str "picInfo") (JDict []);
  item_main_image ← py_get pic_info (str "picUrl") JNull;
  Ok (JDict [(str "item_id", item_id);
             (str "item_title", item_title);
             (str "item_price", item_price);
             (str "item_main_image", item_main_image);
             (str "item_status", JStr (item_status_text status_code))]).

Definition _parse_user_items_data (items_json : list json) : res (list json) :=
  map_res parse_user_item items_json.

End UserItems.

(** *** [parse_user_head_data] *)

Definition ATTRIBUTES_ROLE : list key :=
  [KStr (str "attributes"); KStr (str "role")].
Definition ATTRIBUTES_LEVEL : list key :=
  [KStr (str "attributes"); KStr (str "level")].

(** One iteration of the loop over the tags: the new values of
    [seller_credit] and [buyer_credit]. *)
Definition credit_of_tag (tag : json)
    (credits : list (pystr * json) * list (pystr * json))
  : res (list (pystr * json) * list (pystr * json)) :=
  role ← safe_get tag ATTRIBUTES_ROLE None;
  if py_eq_str role (str "seller") then
    level ← safe_get tag ATTRIBUTES_LEVEL None;
    text ← py_get tag (str "text") JNull;
    Ok ([(str "level", level); (str "text", text)], credits.2)
  else
    role' ← safe_get tag ATTRIBUTES_ROLE None;
    if py_eq_str role' (str "buyer") then
      level ← safe_get tag ATTRIBUTES_LEVEL None;
      text ← py_get tag (str "text") JNull;
      Ok (credits.1, [(str "level", level); (str "text", text)])
    else Ok credits.

Fixpoint credits_of_tags (tags : list json)
    (credits : list (pystr * json) * list (pystr * json))
  : res (list (pystr * json) * list (pystr * json)) :=
  match tags with
  | [] => Ok credits
  | tag :: rest => credits' ← credit_of_tag tag credits; credits_of_tags rest credits'
  end.

Definition BASE : list key := [KStr (str "module"); KStr (str "base")].
Definition TABS : list key := [KStr (str "module"); KStr (str "tabs")].

Definition parse_user_head_data (head_json : json) : res json :=
  data ← py_get head_json (str "data") (JDict []);
  ylz_tags ← safe_get data (BASE ++ [KStr (str "ylzTags")]) (Some (JList []));
  tags ← py_iter ylz_tags;
  '(seller_credit, buyer_credit) ← credits_of_tags tags ([], []);
  seller_nickname ← safe_get data (BASE ++ [KStr (str "displayName")]) None;
  seller_avatar_link ←
    safe_get data (BASE ++ [KStr (str "avatar"); KStr (str "avatar")]) None;
  seller_bio ←
    safe_get data (BASE ++ [KStr (str "introduction")]) (Some (JStr []));
  seller_items_count ←
    safe_get data (TABS ++ [KStr (str "item"); KStr (str "number")]) None;
  seller_ratings_count ←
    safe_get data (TABS ++ [KStr (str "rate"); KStr (str "number")]) None;
  Ok (JDict
        [(str "seller_nickname", seller_nickname);
         (str "seller_avatar_link", seller_avatar_link);
         (str "seller_bio", seller_bio);
         (str "seller_items_count", seller_items_count);
         (str "seller_ratings_count", seller_ratings_count);
         (str "seller_credit_level",
          from_option id NOT_AVAILABLE (dict_lookup (str "text") seller_credit));
         (str "buyer_credit_level",
          from_option id NOT_AVAILABLE (dict_lookup (str "text") buyer_credit))]).

(** *** The words of the properties *)

(** [v.get(k, default)] where it is defined, [default] elsewhere. *)
Definition get_or (v : json) (k : pystr) (default : json) : json :=
  match v with
  | JDict d => from_option id default (dict_lookup k d)
  | _ => default
  end.

(** The [cardData] of a rating card, as [safe_get] reads it. *)
Definition card_data (card : json) : json :=
  from_option id (JDict []) (nested_value card [KStr (str "cardData")]).

(** The role tag as [parse_ratings_data] stores it. *)
Definition parsed_role (card : json) : json :=
  from_option id (JStr (str "Unknown Role"))
    (nested_value (card_data card)
       [KStr (str "rateTagList"); KInt 0; KStr (str "text")]).

(** The entry of [parse_ratings_data] for a card. *)
Definition rating_entry (card : json) : json :=
  JDict [(str "rating_id", get_or (card_data card) (str "rateId") JNull);
         (str "rating_content", get_or (card_data card) (str "feedback") JNull);
         (str "rating_type", JStr (rating_type_text (rate_value card)));
         (str "rater_role", parsed_role card);
         (str "rater_nickname",
          get_or (card_data card) (str "raterUserNick") JNull);
         (str "rating_time", get_or (card_data card) (str "gmtCreate") JNull);
         (str "rating_images",
          from_option id (JList [])
            (nested_value (card_data card) [KStr (str "pictCdnUrlList")]))].

(** A parsed rating that a seller wrote, that a buyer wrote, that is
    positive. *)
Definition by_seller (entry : json) : bool :=
  text_has_marker SELLER_ZH (str "Seller") (get_or entry (str "rater_role") JNull).

Definition by_buyer (entry : json) : bool :=
  negb (by_seller entry) &&
  text_has_marker BUYER_ZH (str "Buyer") (get_or entry (str "rater_role") JNull).

Definition is_positive (entry : json) : bool :=
  py_eq_str (get_or entry (str "rating_type") JNull) (str "Positive").

(** A card of the item list that [_parse_user_items_data] can read. *)
Definition item_card_ok (card : json) : bool :=
  let data := get_or card (str "cardData") (JDict []) in
  is_dict card && is_dict data &&
  is_dict (get_or data (str "priceInfo") (JDict [])) &&
  is_dict (get_or data (str "picInfo") (JDict [])).

(** The role of a tag of the head, and its text. *)
Definition tag_role (tag : json) : json :=
  from_option id NOT_AVAILABLE (nested_value tag ATTRIBUTES_ROLE).

Definition has_role (role : pystr) (tag : json) : bool :=
  py_eq_str (tag_role tag) role.

(** The credit level of a role: the text of the last tag with this role,
    [None] when this tag has no text, "Not available" without such a tag. *)
Definition credit_level (role : pystr) (tags : list json) : json :=
  match last (List.filter (has_role role) tags) with
  | Some tag => get_or tag (str "text") JNull
  | None => NOT_AVAILABLE
  end.

Section ParserLemmas.

Context {A B : Type}.

Lemma map_res_ok (f : A → res B) (g : A → B) (l : list A) :
  Forall (λ x, f x = Ok (g x)) l → map_res f l = Ok (map g l).
Proof.
  induction 1 as [|x l Hx _ IH]; [done|].
  simpl. by rewrite Hx, bind_Ok, IH.
Qed.

Lemma map_res_raise (f : A → res B) (e : exn) (l : list A) :
  Forall (λ x, (∃ y, f x = Ok y) ∨ f x = Raise e) l →
  Exists (λ x, f x = Raise e) l →
  map_res f l = Raise e.
Proof.
  induction 1 as [|x l Hx Hl IH]; intros Hex; [by apply Exists_nil in Hex|].
  simpl. destruct Hx as [[y Hy]|Hx]; [|by rewrite Hx].
  rewrite Hy, bind_Ok. apply Exists_cons in Hex as [Hex|Hex]; [congruence|].
  by rewrite (IH Hex).
Qed.

Lemma map_res_length (f : A → res B) (l : list A) (out : list B) :
  map_res f l = Ok out → length out = length l.
Proof.
  revert out. induction l as [|x l IH]; intros out; simpl.
  - by intros [= <-].
  - destruct (f x) as [y|e]; [|done]. rewrite bind_Ok.
    destruct (map_res f l) as [ys|e]; [|done]. rewrite bind_Ok.
    intros [= <-]. simpl. by rewrite (IH ys).
Qed.

End ParserLemmas.

Lemma py_get_dict v k default :
  is_dict v = true → py_get v k default = Ok (get_or v k default).
Proof. by destruct v. Qed.

Lemma py_get_not_dict v k default :
  is_dict v = false → py_get v k default = Raise AttributeError.
Proof. by destruct v. Qed.

Lemma parse_rating_dict card :
  is_dict (card_data card) = true → parse_rating card = Ok (rating_entry card).
Proof.
  intros Hd. unfold parse_rating.
  rewrite safe_get_nested, bind_Ok. cbv beta.
  rewrite !safe_get_nested, !bind_Ok. cbv beta.
  change (from_option id (from_option id NOT_AVAILABLE (Some (JDict [])))
            (nested_value card [KStr (str "cardData")])) with (card_data card).
  rewrite !(py_get_dict _ _ _ Hd), !bind_Ok. reflexivity.
Qed.

Lemma parse_rating_not_dict card :
  is_dict (card_data card) = false → parse_rating card = Raise AttributeError.
Proof.
  intros Hd. unfold parse_rating.
  rewrite safe_get_nested, bind_Ok. cbv beta.
  rewrite !safe_get_nested, !bind_Ok. cbv beta.
  change (from_option id (from_option id NOT_AVAILABLE (Some (JDict [])))
            (nested_value card [KStr (str "cardData")])) with (card_data card).
  by destruct (card_data card).
Qed.

Lemma parse_ratings_data_ok cards :
  Forall (λ card, is_dict (card_data card) = true) cards →
  parse_ratings_data cards = Ok (map rating_entry cards).
Proof.
  intros H. apply map_res_ok. eapply Forall_impl; [exact H|].
  intros card. apply parse_rating_dict.
Qed.

Lemma parse_ratings_data_raises cards :
  Exists (λ card, is_dict (card_data card) = false) cards →
  parse_ratings_data cards = Raise AttributeError.
Proof.
  intros H. apply map_res_raise.
  - apply Forall_forall. intros card _.
    destruct (is_dict (card_data card)) eqn:Hd.
    + left. eexists. by apply parse_rating_dict.
    + right. by apply parse_rating_not_dict.
  - eapply Exists_impl; [exact H|].
    intros card. apply parse_rating_not_dict.
Qed.

(** X4. [parse_ratings_data] returns one entry per rating card, in the
    order of the cards, when the [cardData] of every card is an object or is
    missing (a card that is no object counts as one without [cardData]);
    and it raises [AttributeError], losing every rating, as soon as the
    [cardData] of one card is something else. *)
Theorem parse_ratings_data_spec (cards : list json) :
  (Forall (λ card, is_dict (card_data card) = true) cards →
   parse_ratings_data cards = Ok (map rating_entry cards)) ∧
  (Exists (λ card, is_dict (card_data card) = false) cards →
   parse_ratings_data cards = Raise AttributeError).
Proof. split; [apply parse_ratings_data_ok | apply parse_ratings_data_raises]. Qed.

(** *** Ratings and reputation *)

Local Ltac eval_keys :=
  repeat match goal with
         | |- context [pystr_eqb (str ?a) (str ?b)] =>
             let v := eval vm_compute in (pystr_eqb (str a) (str b)) in
             change (pystr_eqb (str a) (str b)) with v; cbv iota
         end.

(** The record of [calculate_reputation_from_ratings] for [sp] positive
    ratings out of [st] as a seller and [bp] out of [bt] as a buyer. *)
Definition reputation_record (sp st bp bt : Z) : json :=
  JDict [(str "positive_reviews_as_seller",
          JStr (str_of_int sp ++ str "/" ++ str_of_int st));
         (str "positive_rate_as_seller",
          JStr (if st =? 0 then str "N/A" else percent_2f sp st));
         (str "positive_reviews_as_buyer",
          JStr (str_of_int bp ++ str "/" ++ str_of_int bt));
         (str "positive_rate_as_buyer",
          JStr (if bt =? 0 then str "N/A" else percent_2f bp bt))].

Section RatingsLemmas.

Lemma count_map (p : json → bool) (f : json → json) (cards : list json) :
  count p (map f cards) = count (λ c, p (f c)) cards.
Proof.
  induction cards as [|c cards IH]; [done|].
  cbn [map]. by rewrite !count_cons, IH.
Qed.

Lemma count_ext (p q : json → bool) (cards : list json) :
  Forall (λ c, p c = q c) cards → count p cards = count q cards.
Proof.
  induction 1 as [|c cards Hc _ IH]; [done|].
  by rewrite !count_cons, Hc, IH.
Qed.

Lemma entry_role card :
  get_or (rating_entry card) (str "rater_role") JNull = parsed_role card.
Proof. unfold rating_entry, get_or. cbn [dict_lookup]. by eval_keys. Qed.

Lemma entry_type card :
  get_or (rating_entry card) (str "rating_type") JNull =
    JStr (rating_type_text (rate_value card)).
Proof. unfold rating_entry, get_or. cbn [dict_lookup]. by eval_keys. Qed.

Lemma parsed_role_marker zh en card :
  text_has_marker zh en (JStr (str "Unknown Role")) = false →
  text_has_marker zh en (JStr []) = false →
  textual_role card →
  text_has_marker zh en (parsed_role card) =
    text_has_marker zh en (rater_role card).
Proof.
  intros Hunknown Hempty [s Hs].
  unfold parsed_role, rater_role, card_data in *.
  destruct (nested_value _ [KStr (str "rateTagList"); _; _]) as [v|];
    [done|].
  cbn [from_option id] in *. injection Hs as <-.
  by rewrite Hunknown, Hempty.
Qed.

Lemma by_seller_entry card :
  textual_role card → by_seller (rating_entry card) = seller_card card.
Proof.
  intros Ht. unfold by_seller, seller_card. rewrite entry_role.
  by apply parsed_role_marker.
Qed.

Lemma by_buyer_entry card :
  textual_role card → by_buyer (rating_entry card) = buyer_card card.
Proof.
  intros Ht. unfold by_buyer, buyer_card.
  rewrite (by_seller_entry card Ht), entry_role.
  by rewrite (parsed_role_marker BUYER_ZH (str "Buyer") card).
Qed.

Lemma is_positive_entry card :
  is_positive (rating_entry card) = positive_card card.
Proof.
  unfold is_positive, positive_card. rewrite entry_type.
  unfold py_eq_str, rating_type_text.
  destruct (py_eq_int (rate_value card) 1); [done|].
  destruct (py_eq_int (rate_value card) 0); [done|].
  by destruct (py_eq_int (rate_value card) (-1)).
Qed.

Lemma reputation_of_counts cards :
  Forall textual_role cards →
  calculate_reputation_from_ratings cards =
    Ok (reputation_record
          (count (λ c, seller_card c && positive_card c) cards)
          (count seller_card cards)
          (count (λ c, buyer_card c && positive_card c) cards)
          (count buyer_card cards)).
Proof.
  intros Hall. unfold calculate_reputation_from_ratings.
  rewrite (tally_cards_textual cards _ Hall). simpl mbind. unfold res_bind.
  cbn [seller_total seller_positive buyer_total buyer_positive].
  rewrite !Z.add_0_l.
  rewrite (rate_text_percent _ (count seller_card cards))
    by (split; [apply count_nonneg | apply count_and_le]).
  rewrite (rate_text_percent _ (count buyer_card cards))
    by (split; [apply count_nonneg | apply count_and_le]).
  reflexivity.
Qed.

End RatingsLemmas.

(** X5. The reputation agrees with the parsed ratings.  For rating cards
    with textual role tags that [parse_ratings_data] parses into [out], the
    numbers of [calculate_reputation_from_ratings] are the numbers counted
    on [out]: the entries whose [rater_role] holds a seller marker, those of
    them whose [rating_type] is "Positive", and the same for the buyer
    marker among the entries without seller marker. *)
Theorem reputation_agrees_with_parsed_ratings (cards out : list json) :
  Forall textual_role cards →
  parse_ratings_data cards = Ok out →
  calculate_reputation_from_ratings cards =
    Ok (reputation_record
          (count (λ e, by_seller e && is_positive e) out)
          (count by_seller out)
          (count (λ e, by_buyer e && is_positive e) out)
          (count by_buyer out)).
Proof.
  intros Hall Hparse.
  assert (out = map rating_entry cards) as ->.
  { destruct (decide (Forall (λ card, is_dict (card_data card) = true) cards))
      as [Hd|Hd].
    - rewrite (parse_ratings_data_ok cards Hd) in Hparse. by injection Hparse.
    - apply not_Forall_Exists in Hd; [|intros card; apply _].
      rewrite parse_ratings_data_raises in Hparse; [done|].
      eapply Exists_impl; [exact Hd|].
      intros card Hn. by apply not_true_is_false. }
  rewrite (reputation_of_counts cards Hall). rewrite !count_map.
  f_equal. f_equal; apply count_ext; (eapply Forall_impl; [exact Hall|]);
    intros card Hc; cbv beta;
    by rewrite ?(by_seller_entry card Hc), ?(by_buyer_entry card Hc),
               ?is_positive_entry.
Qed.

(** X6. For rating cards with textual role tags, the record of
    [calculate_reputation_from_ratings] holds, for the seller side and for
    the buyer side, the text "P/T" of the positive and all ratings of the
    side and the rate of the two ("N/A" without ratings); a card with both
    markers counts for the seller side only, a card with none for
    neither. *)
Theorem reputation_record_of_cards (cards : list json) :
  Forall textual_role cards →
  calculate_reputation_from_ratings cards =
    Ok (reputation_record
          (count (λ c, seller_card c && positive_card c) cards)
          (count seller_card cards)
          (count (λ c, buyer_card c && positive_card c) cards)
          (count buyer_card cards)).
Proof. apply reputation_of_counts. Qed.

Section ReputationOrder.

Lemma py_in_either_cases a b v :
  py_in_either a b v = Raise TypeError ∨ ∃ x, py_in_either a b v = Ok x.
Proof.
  unfold py_in_either. destruct v; simpl; auto;
    match goal with |- context [if ?c then _ else _] => destruct c end; eauto.
Qed.

Lemma tally_card_eval t card :
  tally_card t card =
    match py_in_either SELLER_ZH (str "Seller") (rater_role card) with
    | Raise e => Raise e
    | Ok true =>
        Ok (Tally (seller_total t + 1)
                  (seller_positive t + if positive_card card then 1 else 0)
                  (buyer_total t + 0) (buyer_positive t + 0))
    | Ok false =>
        match py_in_either BUYER_ZH (str "Buyer") (rater_role card) with
        | Raise e => Raise e
        | Ok true =>
            Ok (Tally (seller_total t + 0) (seller_positive t + 0)
                      (buyer_total t + 1)
                      (buyer_positive t + if positive_card card then 1 else 0))
        | Ok false =>
            Ok (Tally (seller_total t + 0) (seller_positive t + 0)
                      (buyer_total t + 0) (buyer_positive t + 0))
        end
    end.
Proof.
  unfold tally_card.
  rewrite safe_get_nested, bind_Ok. cbv beta.
  rewrite !safe_get_nested, !bind_Ok. cbv beta.
  unfold positive_card.
  change (from_option id (from_option id NOT_AVAILABLE (Some (JStr [])))
            (nested_value _ _)) with (rater_role card).
  change (from_option id (from_option id NOT_AVAILABLE None)
            (nested_value _ _)) with (rate_value card).
  destruct t as [st sp bt bp]. cbn [seller_total seller_positive buyer_total
                                    buyer_positive].
  destruct (py_in_either SELLER_ZH (str "Seller") (rater_role card))
    as [[|]|e]; rewrite ?bind_Ok, ?bind_Raise; [| |done].
  - destruct (py_eq_int (rate_value card) 1); f_equal; f_equal; lia.
  - destruct (py_in_either BUYER_ZH (str "Buyer") (rater_role card))
      as [[|]|e]; rewrite ?bind_Ok, ?bind_Raise; [| |done].
    + destruct (py_eq_int (rate_value card) 1); f_equal; f_equal; lia.
    + f_equal. f_equal; lia.
Qed.

(** A card adds the same numbers to every tally, or raises for every
    tally. *)
Lemma tally_card_shift card :
  (∀ t, tally_card t card = Raise TypeError) ∨
  (∃ a b c d, ∀ t,
      tally_card t card =
        Ok (Tally (seller_total t + a) (seller_positive t + b)
                  (buyer_total t + c) (buyer_positive t + d))).
Proof.
  destruct (py_in_either_cases SELLER_ZH (str "Seller") (rater_role card))
    as [Hs|[[|] Hs]].
  - left. intros t. by rewrite tally_card_eval, Hs.
  - right. eexists _, _, _, _. intros t. by rewrite tally_card_eval, Hs.
  - destruct (py_in_either_cases BUYER_ZH (str "Buyer") (rater_role card))
      as [Hb|[[|] Hb]].
    + left. intros t. by rewrite tally_card_eval, Hs, Hb.
    + right. eexists _, _, _, _. intros t. by rewrite tally_card_eval, Hs, Hb.
    + right. eexists _, _, _, _. intros t. by rewrite tally_card_eval, Hs, Hb.
Qed.

Lemma tally_cards_perm cards cards' :
  cards ≡ₚ cards' → ∀ t, tally_cards t cards = tally_cards t cards'.
Proof.
  induction 1 as [|x l l' _ IH|x y l|l l' l'' _ IH1 _ IH2]; intros t.
  - done.
  - cbn [tally_cards]. destruct (tally_card t x) as [t'|e]; [|done].
    rewrite !bind_Ok. apply IH.
  - cbn [tally_cards].
    destruct (tally_card_shift x) as [Hx|(a & b & c & d & Hx)],
             (tally_card_shift y) as [Hy|(a' & b' & c' & d' & Hy)].
    + by rewrite Hx, Hy.
    + rewrite Hx, Hy, bind_Ok. by rewrite Hx.
    + rewrite Hx, Hy, bind_Ok. by rewrite Hy.
    + rewrite Hx, Hy, !bind_Ok, Hx, Hy, !bind_Ok. simpl.
      f_equal. f_equal; lia.
  - by rewrite IH1, IH2.
Qed.

End ReputationOrder.

(** X7. The reputation does not depend on the order in which the rating
    cards were collected: two lists with the same cards give the same
    record, or raise the same exception. *)
Theorem reputation_ignores_order (cards cards' : list json) :
  cards ≡ₚ cards' →
  calculate_reputation_from_ratings cards =
    calculate_reputation_from_ratings cards'.
Proof.
  intros Hp. unfold calculate_reputation_from_ratings.
  by rewrite (tally_cards_perm cards cards' Hp).
Qed.

(** *** The item list of the seller *)

Section UserItemsProperties.

Variable py_str : json → pystr.

(** The entry of [_parse_user_items_data] for a card. *)
Definition item_entry (card : json) : json :=
  let data := get_or card (str "cardData") (JDict []) in
  JDict [(str "item_id", get_or data (str "id") JNull);
         (str "item_title", get_or data (str "title") JNull);
         (str "item_price",
          get_or (get_or data (str "priceInfo") (JDict [])) (str "price") JNull);
         (str "item_main_image",
          get_or (get_or data (str "picInfo") (JDict [])) (str "picUrl") JNull);
         (str "item_status",
          JStr (item_status_text py_str (get_or data (str "itemStatus") JNull)))].

Lemma parse_user_item_ok card :
  item_card_ok card = true → parse_user_item py_str card = Ok (item_entry card).
Proof.
  unfold item_card_ok, parse_user_item, item_entry.
  intros [[[H1 H2]%andb_true_iff H3]%andb_true_iff H4]%andb_true_iff.
  rewrite (py_get_dict card _ _ H1), bind_Ok.
  set (data := get_or card (str "cardData") (JDict [])) in *.
  rewrite !(py_get_dict data _ _ H2), !bind_Ok.
  rewrite (py_get_dict _ _ _ H3), !bind_Ok.
  by rewrite (py_get_dict _ _ _ H4), !bind_Ok.
Qed.

Lemma parse_user_item_raises card :
  item_card_ok card = false →
  parse_user_item py_str card = Raise AttributeError.
Proof.
  unfold item_card_ok, parse_user_item. intros H.
  destruct (is_dict card) eqn:H1;
    [|by rewrite (py_get_not_dict card _ _ H1)].
  rewrite (py_get_dict card _ _ H1), bind_Ok.
  set (data := get_or card (str "cardData") (JDict [])) in *.
  destruct (is_dict data) eqn:H2; [|by destruct data].
  rewrite !(py_get_dict data _ _ H2), !bind_Ok.
  destruct (is_dict (get_or data (str "priceInfo") (JDict []))) eqn:H3;
    [|by rewrite (py_get_not_dict _ _ _ H3)].
  rewrite (py_get_dict _ _ _ H3), !bind_Ok.
  destruct (is_dict (get_or data (str "picInfo") (JDict []))) eqn:H4;
    [done|].
  by rewrite (py_get_not_dict _ (str "picUrl") _ H4).
Qed.

End UserItemsProperties.

(** X8. [_parse_user_items_data] returns one entry per card of the item
    list, in the order of the cards, with the status "For Sale" for the
    status code 0, "Sold" for 1 and "Unknown Status (code)" otherwise, when
    every card is an object whose [cardData], [priceInfo] and [picInfo] are
    objects or missing; one card that is not (a [priceInfo] that is null,
    say) makes it raise [AttributeError] for the whole list. *)
Theorem parse_user_items_data_spec (py_str : json → pystr)
    (cards : list json) :
  (Forall (λ card, item_card_ok card = true) cards →
   _parse_user_items_data py_str cards = Ok (map (item_entry py_str) cards)) ∧
  (Exists (λ card, item_card_ok card = false) cards →
   _parse_user_items_data py_str cards = Raise AttributeError).
Proof.
  split; intros H.
  - apply map_res_ok. eapply Forall_impl; [exact H|].
    intros card. apply parse_user_item_ok.
  - apply map_res_raise.
    + apply Forall_forall. intros card _.
      destruct (item_card_ok card) eqn:Hd.
      * left. eexists. by apply parse_user_item_ok.
      * right. by apply parse_user_item_raises.
    + eapply Exists_impl; [exact H|].
      intros card. apply parse_user_item_raises.
Qed.

(** *** The head of the profile *)

(** The tags of the head, as [parse_user_head_data] reads them. *)
Definition head_tags (head_json : json) : json :=
  from_option id (JList [])
    (nested_value (get_or head_json (str "data") (JDict []))
       (BASE ++ [KStr (str "ylzTags")])).

(** The credit of a tag. *)
Definition credit_of (tag : json) : list (pystr * json) :=
  [(str "level", from_option id NOT_AVAILABLE (nested_value tag ATTRIBUTES_LEVEL));
   (str "text", get_or tag (str "text") JNull)].

(** The text of a credit, or of a tag after it. *)
Definition latest_text (role : pystr) (tags : list json)
    (credit : list (pystr * json)) : option json :=
  match last (List.filter (has_role role) tags) with
  | Some tag => Some (get_or tag (str "text") JNull)
  | None => dict_lookup (str "text") credit
  end.

Section HeadLemmas.

Lemma has_role_dict role tag :
  pystr_eqb (str "Not available") role = false →
  has_role role tag = true → is_dict tag = true.
Proof.
  intros Hna. unfold has_role, tag_role. destruct tag; try done;
    cbn [nested_value ATTRIBUTES_ROLE py_getitem from_option id py_eq_str
         NOT_AVAILABLE]; by rewrite Hna.
Qed.

Lemma seller_is_no_buyer tag :
  has_role (str "seller") tag = true → has_role (str "buyer") tag = false.
Proof.
  unfold has_role, py_eq_str. destruct (tag_role tag); try done.
  intros ->%pystr_eqb_eq. reflexivity.
Qed.

Lemma credit_of_tag_eval tag seller_credit buyer_credit :
  credit_of_tag tag (seller_credit, buyer_credit) =
    Ok (if has_role (str "seller") tag then credit_of tag else seller_credit,
        if has_role (str "seller") tag then buyer_credit
        else if has_role (str "buyer") tag then credit_of tag
             else buyer_credit).
Proof.
  unfold credit_of_tag. rewrite !safe_get_nested, bind_Ok. cbv beta.
  change (from_option id (from_option id NOT_AVAILABLE None)
            (nested_value tag ATTRIBUTES_ROLE)) with (tag_role tag).
  fold (has_role (str "seller") tag).
  destruct (has_role (str "seller") tag) eqn:Hs.
  - rewrite bind_Ok.
    rewrite (py_get_dict tag _ _ (has_role_dict (str "seller") tag eq_refl Hs)),
      bind_Ok.
    reflexivity.
  - rewrite bind_Ok. cbv beta. fold (has_role (str "buyer") tag).
    destruct (has_role (str "buyer") tag) eqn:Hb; [|done].
    rewrite bind_Ok.
    rewrite (py_get_dict tag _ _ (has_role_dict (str "buyer") tag eq_refl Hb)),
      bind_Ok.
    reflexivity.
Qed.

Lemma latest_text_cons role tag tags credit :
  latest_text role (tag :: tags) credit =
    latest_text role tags (if has_role role tag then credit_of tag else credit).
Proof.
  unfold latest_text. cbn [List.filter].
  destruct (has_role role tag); [|done].
  rewrite last_cons. by destruct (last (List.filter (has_role role) tags)).
Qed.

Lemma credits_of_tags_eval tags : ∀ seller_credit buyer_credit,
  ∃ seller_credit' buyer_credit',
    credits_of_tags tags (seller_credit, buyer_credit) =
      Ok (seller_credit', buyer_credit') ∧
    dict_lookup (str "text") seller_credit' =
      latest_text (str "seller") tags seller_credit ∧
    dict_lookup (str "text") buyer_credit' =
      latest_text (str "buyer") tags buyer_credit.
Proof.
  induction tags as [|tag tags IH]; intros sc bc.
  - by exists sc, bc.
  - cbn [credits_of_tags]. rewrite credit_of_tag_eval, bind_Ok.
    rewrite !latest_text_cons.
    destruct (has_role (str "seller") tag) eqn:Hs.
    + rewrite (seller_is_no_buyer tag Hs). apply IH.
    + apply IH.
Qed.

End HeadLemmas.

(** X9. For a head that is an object and whose tag list can be iterated,
    [parse_user_head_data] does not raise, however the tags look, and
    returns the seven fields of the seller; the credit level of the seller
    is the text of the last tag whose role is "seller" ([None] when this
    tag has no text, "Not available" without such a tag), and likewise for
    the buyer. *)
Theorem parse_user_head_data_spec (head_json : json) (tags : list json) :
  is_dict head_json = true →
  py_iter (head_tags head_json) = Ok tags →
  ∃ profile,
    parse_user_head_data head_json = Ok (JDict profile) ∧
    map fst profile =
      map str ["seller_nickname"; "seller_avatar_link"; "seller_bio";
               "seller_items_count"; "seller_ratings_count";
               "seller_credit_level"; "buyer_credit_level"]%string ∧
    dict_lookup (str "seller_credit_level") profile =
      Some (credit_level (str "seller") tags) ∧
    dict_lookup (str "buyer_credit_level") profile =
      Some (credit_level (str "buyer") tags).
Proof.
  intros Hd Htags. unfold parse_user_head_data.
  rewrite (py_get_dict head_json _ _ Hd), bind_Ok.
  rewrite !safe_get_nested, bind_Ok. cbv beta.
  change (from_option id (from_option id NOT_AVAILABLE (Some (JList [])))
            (nested_value _ (BASE ++ [KStr (str "ylzTags")])))
    with (head_tags head_json).
  rewrite Htags, bind_Ok.
  destruct (credits_of_tags_eval tags [] []) as (sc & bc & -> & Hsc & Hbc).
  rewrite !bind_Ok. cbv beta iota.
  eexists. split; [reflexivity|]. split; [reflexivity|].
  cbn [dict_lookup]. eval_keys. rewrite Hsc, Hbc.
  unfold latest_text, credit_level. cbn [dict_lookup].
  split; by destruct (last _).
Qed.

(** *** The parsers at concrete inputs *)

Module ProfileRuns.

Definition ratings : list json :=
  [rating_card (str "Seller") 1; rating_card (str "Buyer") 0;
   rating_card (SELLER_ZH ++ str " & Buyer") (-1); JInt 5].

Definition head : json :=
  JDict [(str "data",
          JDict [(str "module",
                  JDict [(str "base",
                          JDict [(str "displayName", JStr (str "bob"));
                                 (str "ylzTags",
                                  JList [JDict [(str "attributes",
                                                 JDict [(str "role", JStr (str "seller"));
                                                        (str "level", JInt 3)]);
                                                (str "text", JStr (str "Good seller"))];
                                         JStr (str "noise");
                                         JDict [(str "attributes",
                                                 JDict [(str "role", JStr (str "seller"))])]])])])])].

End ProfileRuns.

Section ProfileWitnesses.

Import ProfileRuns.

Lemma ratings_textual : Forall textual_role ratings.
Proof. repeat constructor; eexists; reflexivity. Qed.

Lemma reputation_agrees_with_parsed_ratings_witness :
  calculate_reputation_from_ratings ratings =
    Ok (reputation_record 1 2 0 1).
Proof.
  apply (reputation_agrees_with_parsed_ratings ratings
           (map rating_entry ratings)).
  - apply ratings_textual.
  - vm_compute. reflexivity.
Defined.

Lemma reputation_record_of_cards_witness :
  calculate_reputation_from_ratings ratings =
    Ok (JDict [(str "positive_reviews_as_seller", JStr (str "1/2"));
               (str "positive_rate_as_seller", JStr (str "50.00%"));
               (str "positive_reviews_as_buyer", JStr (str "0/1"));
               (str "positive_rate_as_buyer", JStr (str "0.00%"))]).
Proof.
  rewrite (reputation_record_of_cards ratings ratings_textual).
  vm_compute. reflexivity.
Defined.

Lemma reputation_ignores_order_witness :
  calculate_reputation_from_ratings (rev ratings) =
    calculate_reputation_from_ratings ratings.
Proof.
  apply (reputation_ignores_order (rev ratings) ratings).
  symmetry. apply Permutation_rev.
Defined.

Lemma parse_user_head_data_spec_witness :
  ∃ profile,
    parse_user_head_data head = Ok (JDict profile) ∧
    dict_lookup (str "seller_credit_level") profile = Some JNull ∧
    dict_lookup (str "buyer_credit_level") profile = Some NOT_AVAILABLE.
Proof.
  destruct (parse_user_head_data_spec head
              [JDict [(str "attributes",
                       JDict [(str "role", JStr (str "seller"));
                              (str "level", JInt 3)]);
                      (str "text", JStr (str "Good seller"))];
               JStr (str "noise");
               JDict [(str "attributes",
                       JDict [(str "role", JStr (str "seller"))])]])
    as (profile & Hp & _ & Hs & Hb).
  - reflexivity.
  - reflexivity.
  - exists profile. by split.
Defined.

End ProfileWitnesses.

(** ** The mobile link: [convert_goofish_link] *)

Module Quote.

Definition percent_sign : N := chr "%".
Definition question_mark : N := chr "?".

(** The characters [quote] never escapes: letters, digits and [_.-~] (with
    [~] since Python 3.7). *)
Definition always_safe (c : N) : bool :=
  ((65 <=? c) && (c <=? 90) || (97 <=? c) && (c <=? 122) ||
   (48 <=? c) && (c <=? 57) ||
   (c =? chr "_") || (c =? chr ".") || (c =? chr "-") || (c =? chr "~"))%N.

Definition upper_hex (n : N) : N :=
  (if n <? 10 then 48 + n else 55 + n)%N.

(** [%XX] for a byte. *)
Definition percent_byte (b : N) : pystr :=
  [percent_sign; upper_hex (b / 16); upper_hex (b mod 16)]%N.

(** A byte of the encoded text, with [safe='/']. *)
Definition quote_byte (b : N) : pystr :=
  if always_safe b || (b =? chr "/")%N then [b] else percent_byte b.

(** The bytes of a code point in UTF-8; a surrogate cannot be encoded
    ([UnicodeEncodeError], a [ValueError]). *)
Definition utf8 (c : N) : res (list N) :=
  (if c <? 128 then Ok [c]
   else if c <? 2048 then Ok [192 + c / 64; 128 + c mod 64]
   else if (55296 <=? c) && (c <=? 57343) then Raise ValueError
   else if c <? 65536 then
     Ok [224 + c / 4096; 128 + (c / 64) mod 64; 128 + c mod 64]
   else Ok [240 + c / 262144; 128 + (c / 4096) mod 64;
            128 + (c / 64) mod 64; 128 + c mod 64])%N.

(** [urllib.parse.quote(s)]. *)
Fixpoint quote (s : pystr) : res pystr :=
  match s with
  | [] => Ok []
  | c :: rest =>
      bytes ← utf8 c;
      quoted ← quote rest;
      Ok (flat_map quote_byte bytes ++ quoted)
  end.

End Quote.
Export Quote.

(** [s] after the prefix [p], when [s] starts with [p]. *)
Fixpoint strip_prefix (p s : pystr) : option pystr :=
  match p, s with
  | [], _ => Some s
  | a :: p', b :: s' => if (a =? b)%N then strip_prefix p' s' else None
  | _ :: _, [] => None
  end.

Definition ITEM_ID : pystr := Eval vm_compute in str "item?id=".

Definition MOBILE_LINK : pystr :=
  Eval vm_compute in
    str "https://pages.goofish.com/sharexy?loadingVisible=false&bft=item&bfs=idlepc.item&spm=a21ybx.item.0.0&bfp=".

Definition is_ascii_digit (c : N) : bool := ((48 <=? c) && (c <=? 57))%N.

Section ConvertLink.

(** The characters beyond ASCII that [\d] matches in a [str] pattern: the
    decimal digits of the Unicode database of the interpreter. *)
Variable unicode_decimal : N → bool.

Definition is_decimal (c : N) : bool :=
  if (c <? 128)%N then is_ascii_digit c else unicode_decimal c.

(** The longest prefix of decimal digits: what [\d+] takes. *)
Fixpoint leading_decimals (s : pystr) : pystr :=
  match s with
  | c :: rest => if is_decimal c then c :: leading_decimals rest else []
  | [] => []
  end.

(** [re.search(r'item\?id=(\d+)', url)]: the group of the leftmost match. *)
Fixpoint search_item_id (url : pystr) : option pystr :=
  match url with
  | [] => None
  | _ :: rest =>
      match strip_prefix ITEM_ID url with
      | Some after =>
          match leading_decimals after with
          | [] => search_item_id rest
          | item_id => Some item_id
          end
      | None => search_item_id rest
      end
  end.

Definition convert_goofish_link (url : pystr) : res pystr :=
  match search_item_id url with
  | Some item_id =>
      let bfp_json := jtext "{'id':" ++ item_id ++ str "}" in
      quoted ← quote bfp_json;
      Ok (MOBILE_LINK ++ quoted)
  | None => Ok url
  end.

End ConvertLink.

Example convert_goofish_link_pc :
  convert_goofish_link (λ _, false)
    (str "https://www.goofish.com/item?id=987654321&categoryId=5") =
  Ok (str "https://pages.goofish.com/sharexy?loadingVisible=false&bft=item&bfs=idlepc.item&spm=a21ybx.item.0.0&bfp=%7B%22id%22%3A987654321%7D").
Proof. vm_compute. reflexivity. Qed.

(** The text after a match of [item?id=] starts with a decimal digit. *)
Definition starts_with_decimal (unicode_decimal : N → bool) (s : pystr)
  : bool :=
  match s with
  | c :: _ => is_decimal unicode_decimal c
  | [] => false
  end.

Section ConvertLinkLemmas.

Variable unicode_decimal : N → bool.

Abbreviation search_item_id' := (search_item_id unicode_decimal).
Abbreviation leading_decimals' := (leading_decimals unicode_decimal).
Abbreviation convert_goofish_link' := (convert_goofish_link unicode_decimal).

Lemma strip_prefix_Some p s r : strip_prefix p s = Some r → s = p ++ r.
Proof.
  revert s. induction p as [|a p IH]; intros [|b s]; simpl; try done.
  - by intros [= ->].
  - by intros [= ->].
  - destruct (N.eqb_spec a b) as [->|]; [|done].
    intros H. by rewrite (IH s H).
Qed.

Lemma strip_prefix_app p r : strip_prefix p (p ++ r) = Some r.
Proof.
  induction p as [|a p IH]; simpl; [by destruct r|].
  by rewrite N.eqb_refl.
Qed.

Lemma strip_item_id_question_mark s r :
  strip_prefix ITEM_ID s = Some r → s !! 4%nat = Some question_mark.
Proof. by intros ->%strip_prefix_Some. Qed.

Lemma search_without_question_mark s :
  question_mark ∉ s → search_item_id' s = None.
Proof.
  induction s as [|c s IH]; intros Hq; [done|].
  cbn [search_item_id].
  destruct (strip_prefix ITEM_ID (c :: s)) as [r|] eqn:E.
  - apply strip_item_id_question_mark in E.
    destruct Hq. by eapply list_elem_of_lookup_2.
  - apply IH. intros H. apply Hq. by right.
Qed.

Lemma leading_decimals_none s :
  starts_with_decimal unicode_decimal s = false → leading_decimals' s = [].
Proof. destruct s as [|c s]; simpl; [done|]. by intros ->. Qed.

Lemma is_ascii_digit_decimal c :
  is_ascii_digit c = true → is_decimal unicode_decimal c = true.
Proof.
  unfold is_decimal, is_ascii_digit.
  intros [H1%N.leb_le H2%N.leb_le]%andb_true_iff.
  replace (c <? 128)%N with true by (symmetry; apply N.ltb_lt; lia).
  apply andb_true_iff. split; by apply N.leb_le.
Qed.

Lemma leading_decimals_digits digits rest :
  Forall (λ c, is_ascii_digit c = true) digits →
  starts_with_decimal unicode_decimal rest = false →
  leading_decimals' (digits ++ rest) = digits.
Proof.
  intros Hd Hr. induction Hd as [|c digits Hc _ IH]; simpl.
  - by apply leading_decimals_none.
  - by rewrite (is_ascii_digit_decimal c Hc), IH.
Qed.

(** No match starts in a text without question mark that is followed by
    [item?id=]. *)
Lemma search_skips_prefix pre s :
  question_mark ∉ pre →
  search_item_id' (pre ++ ITEM_ID ++ s) = search_item_id' (ITEM_ID ++ s).
Proof.
  induction pre as [|c pre IH]; intros Hq; [done|].
  rewrite <- app_comm_cons. cbn [search_item_id].
  destruct (strip_prefix ITEM_ID (c :: pre ++ ITEM_ID ++ s)) as [r|] eqn:E.
  - apply strip_item_id_question_mark in E. exfalso.
    destruct pre as [|c1 [|c2 [|c3 [|c4 pre]]]]; try discriminate E.
    injection E as E. apply Hq. rewrite E.
    do 4 right. by left.
  - apply IH. intros H. apply Hq. by right.
Qed.

Lemma search_finds_id digits rest :
  digits ≠ [] →
  Forall (λ c, is_ascii_digit c = true) digits →
  starts_with_decimal unicode_decimal rest = false →
  search_item_id' (ITEM_ID ++ digits ++ rest) = Some digits.
Proof.
  intros Hne Hd Hr.
  change (search_item_id' (ITEM_ID ++ digits ++ rest)) with
    (match strip_prefix ITEM_ID (ITEM_ID ++ digits ++ rest) with
     | Some after =>
         match leading_decimals' after with
         | [] => search_item_id' (tail (ITEM_ID ++ digits ++ rest))
         | item_id => Some item_id
         end
     | None => search_item_id' (tail (ITEM_ID ++ digits ++ rest))
     end).
  rewrite strip_prefix_app, (leading_decimals_digits digits rest Hd Hr).
  by destruct digits.
Qed.

Lemma quote_app a b :
  quote (a ++ b) = (qa ← quote a; qb ← quote b; Ok (qa ++ qb)).
Proof.
  induction a as [|c a IH]; simpl.
  - by destruct (quote b).
  - destruct (utf8 c) as [bytes|e]; [|done]. rewrite !bind_Ok, IH.
    destruct (quote a) as [qa|e]; [|done]. rewrite !bind_Ok.
    destruct (quote b) as [qb|e]; [|done]. rewrite !bind_Ok.
    by rewrite app_assoc.
Qed.

Lemma quote_digits digits :
  Forall (λ c, is_ascii_digit c = true) digits → quote digits = Ok digits.
Proof.
  induction 1 as [|c digits Hc _ IH]; [done|].
  cbn [quote]. unfold is_ascii_digit in Hc.
  apply andb_true_iff in Hc as [H1%N.leb_le H2%N.leb_le].
  unfold utf8. replace (c <? 128)%N with true
    by (symmetry; apply N.ltb_lt; lia).
  rewrite bind_Ok, IH, bind_Ok. cbn [flat_map app].
  unfold quote_byte, always_safe.
  replace (48 <=? c)%N with true by (symmetry; apply N.leb_le; lia).
  replace (c <=? 57)%N with true by (symmetry; apply N.leb_le; lia).
  by rewrite !orb_true_r.
Qed.

Lemma upper_hex_no_question_mark n : upper_hex n ≠ question_mark.
Proof.
  unfold upper_hex, question_mark. change (chr "?") with 63%N.
  destruct (N.ltb_spec n 10); lia.
Qed.

Lemma quote_byte_no_question_mark b : question_mark ∉ quote_byte b.
Proof.
  unfold quote_byte.
  destruct (always_safe b || (b =? chr "/")%N) eqn:E.
  - intros <-%list_elem_of_singleton. discriminate E.
  - unfold percent_byte. intros H.
    apply elem_of_cons in H as [H|H]; [discriminate H|].
    apply elem_of_cons in H as [H|H];
      [by apply (upper_hex_no_question_mark (b / 16))|].
    apply list_elem_of_singleton in H.
    by apply (upper_hex_no_question_mark (b mod 16)).
Qed.

Lemma quote_no_question_mark s q : quote s = Ok q → question_mark ∉ q.
Proof.
  revert q. induction s as [|c s IH]; intros q; simpl.
  - intros [= <-]. apply not_elem_of_nil.
  - destruct (utf8 c) as [bytes|e]; [|done]. rewrite bind_Ok.
    destruct (quote s) as [qs|e]; [|done]. rewrite bind_Ok.
    intros [= <-]. rewrite elem_of_app. intros [H|H]; [|by apply (IH qs)].
    apply list_elem_of_In, in_flat_map in H as (b & _ & H).
    by apply (quote_byte_no_question_mark b), list_elem_of_In.
Qed.

Lemma search_after_mobile_link s :
  search_item_id' (MOBILE_LINK ++ s) = search_item_id' s.
Proof. reflexivity. Qed.

End ConvertLinkLemmas.

Section ConvertLinkTheorems.

Variable unicode_decimal : N → bool.

Lemma search_without_id url :
  (∀ pre post, url = pre ++ ITEM_ID ++ post →
               starts_with_decimal unicode_decimal post = false) →
  search_item_id unicode_decimal url = None.
Proof.
  induction url as [|c url IH]; intros H; [done|].
  cbn [search_item_id].
  assert (search_item_id unicode_decimal url = None) as Hrest.
  { apply IH. intros pre post ->. by apply (H (c :: pre) post). }
  destruct (strip_prefix ITEM_ID (c :: url)) as [r|] eqn:E; [|done].
  apply strip_prefix_Some in E.
  by rewrite (leading_decimals_none unicode_decimal r (H [] r E)).
Qed.

(** X10. [convert_goofish_link] returns a link unchanged when no
    [item?id=] in it is followed by a decimal digit; and for a link with
    [item?id=] and the digits of an id after a part without question mark,
    it returns the mobile link whose [bfp] parameter is the URL-quoted JSON
    text of the id, of which nothing else of the link is part. *)
Theorem convert_goofish_link_spec :
  (∀ url,
      (∀ pre post, url = pre ++ ITEM_ID ++ post →
                   starts_with_decimal unicode_decimal post = false) →
      convert_goofish_link unicode_decimal url = Ok url) ∧
  (∀ pre digits rest,
      question_mark ∉ pre → digits ≠ [] →
      Forall (λ c, is_ascii_digit c = true) digits →
      starts_with_decimal unicode_decimal rest = false →
      convert_goofish_link unicode_decimal (pre ++ ITEM_ID ++ digits ++ rest) =
        Ok (MOBILE_LINK ++ str "%7B%22id%22%3A" ++ digits ++ str "%7D")).
Proof.
  split.
  - intros url H. unfold convert_goofish_link.
    by rewrite (search_without_id url H).
  - intros pre digits rest Hq Hne Hd Hr. unfold convert_goofish_link.
    rewrite (search_skips_prefix unicode_decimal pre _ Hq).
    rewrite (search_finds_id unicode_decimal digits rest Hne Hd Hr).
    cbv zeta. rewrite !quote_app, (quote_digits digits Hd).
    reflexivity.
Qed.

(** X11. Converting a link twice gives what converting it once gives: a
    mobile link is never taken for a product link again. *)
Theorem convert_goofish_link_idempotent (url converted : pystr) :
  convert_goofish_link unicode_decimal url = Ok converted →
  convert_goofish_link unicode_decimal converted = Ok converted.
Proof.
  unfold convert_goofish_link at 1.
  destruct (search_item_id unicode_decimal url) as [item_id|] eqn:E.
  - cbv zeta. destruct (quote _) as [quoted|e] eqn:Hq; [|done].
    rewrite bind_Ok. intros Hc.
    assert (converted = MOBILE_LINK ++ quoted) as -> by congruence.
    unfold convert_goofish_link. rewrite search_after_mobile_link.
    by rewrite (search_without_question_mark unicode_decimal quoted
                  (quote_no_question_mark _ _ Hq)).
  - intros [= <-]. unfold convert_goofish_link. by rewrite E.
Qed.

End ConvertLinkTheorems.

Lemma convert_goofish_link_spec_witness :
  convert_goofish_link (λ _, false) (str "https://www.goofish.com/") =
    Ok (str "https://www.goofish.com/") ∧
  convert_goofish_link (λ _, false)
    (str "https://www.goofish.com/" ++ ITEM_ID ++ str "42" ++ str "&spm=1") =
    Ok (MOBILE_LINK ++ str "%7B%22id%22%3A" ++ str "42" ++ str "%7D").
Proof.
  destruct (convert_goofish_link_spec (λ _, false)) as [Hno Hid]. split.
  - apply Hno. intros pre post H. exfalso.
    assert (question_mark ∈ str "https://www.goofish.com/") as Hin.
    { rewrite H, !elem_of_app. right. left. vm_compute.
      do 4 apply list_elem_of_further. apply list_elem_of_here. }
    vm_compute in Hin.
    repeat (apply elem_of_cons in Hin as [Hin|Hin]; [discriminate Hin|]).
    by apply elem_of_nil in Hin.
  - apply Hid.
    + apply (bool_decide_unpack _). by vm_compute.
    + discriminate.
    + by repeat constructor.
    + reflexivity.
Defined.

Lemma convert_goofish_link_idempotent_witness :
  convert_goofish_link (λ _, false)
    (str "https://pages.goofish.com/sharexy?loadingVisible=false&bft=item&bfs=idlepc.item&spm=a21ybx.item.0.0&bfp=%7B%22id%22%3A987654321%7D") =
  Ok (str "https://pages.goofish.com/sharexy?loadingVisible=false&bft=item&bfs=idlepc.item&spm=a21ybx.item.0.0&bfp=%7B%22id%22%3A987654321%7D").
Proof.
  apply (convert_goofish_link_idempotent (λ _, false)
           (str "https://www.goofish.com/item?id=987654321&categoryId=5")).
  vm_compute. reflexivity.
Defined.

(** ** The files of the images: [download_all_images] *)

Module Images.

(** The characters [str.strip()] removes: those of [str.isspace()]. *)
Definition is_space (c : N) : bool :=
  ((9 <=? c) && (c <=? 13) || (28 <=? c) && (c <=? 32) ||
   (c =? 133) || (c =? 160) || (c =? 5760) ||
   (8192 <=? c) && (c <=? 8202) || (c =? 8232) || (c =? 8233) ||
   (c =? 8239) || (c =? 8287) || (c =? 12288))%N.

Fixpoint lstrip (s : pystr) : pystr :=
  match s with
  | c :: rest => if is_space c then lstrip rest else s
  | [] => []
  end.

Definition strip (s : pystr) : pystr := rev (lstrip (rev (lstrip s))).

(** [s.split(sep)[0]]: the text before the first [sep], the whole text
    without one. *)
Fixpoint before_first (sep s : pystr) : pystr :=
  match s with
  | [] => []
  | c :: rest => if starts_with sep s then [] else c :: before_first sep rest
  end.

Definition slash : N := chr "/".
Definition dot : N := chr ".".

(** The text after the last [sep]. *)
Fixpoint after_last (sep : N) (s : pystr) : pystr :=
  match s with
  | [] => []
  | _ :: rest => if existsb (N.eqb sep) s then after_last sep rest else s
  end.

(** [os.path.basename], [os.path.splitext] and [os.path.join] of
    [posixpath]. *)
Definition basename (p : pystr) : pystr := after_last slash p.

(** [(p[:i], p[i:])] for the index [i] of the last dot. *)
Fixpoint at_last_dot (p : pystr) : option (pystr * pystr) :=
  match p with
  | [] => None
  | c :: rest =>
      match at_last_dot rest with
      | Some (root, ext) => Some (c :: root, ext)
      | None => if (c =? dot)%N then Some ([], p) else None
      end
  end.

Definition splitext (p : pystr) : pystr * pystr :=
  match at_last_dot p with
  | Some (root, ext) =>
      if existsb (N.eqb slash) ext then (p, [])
      else if forallb (N.eqb dot) (basename root) then (p, [])
      else (root, ext)
  | None => (p, [])
  end.

Definition join (a b : pystr) : pystr :=
  if starts_with [slash] b then b
  else if bool_decide (a = []) || bool_decide (last a = Some slash) then a ++ b
  else a ++ [slash] ++ b.

Definition IMAGE_SAVE_DIR : pystr := str "images".

(** The characters [re.sub] clears the name of: backslash, slash, star,
    question mark, colon, double quote, angle brackets and bar. *)
Definition forbidden (c : N) : bool :=
  ((c =? 92) || (c =? chr "/") || (c =? chr "*") || (c =? chr "?") ||
   (c =? chr ":") || (c =? 34) || (c =? chr "<") || (c =? chr ">") ||
   (c =? chr "|"))%N.

Definition HEIC : pystr := str ".heic".

(** What happens to the image number [i + 1] at its path. *)
Inductive image_outcome : Type :=
  | AlreadyThere      (* the file exists: no download *)
  | Downloaded        (* [_download_single_image] returns the path *)
  | NotDownloaded.    (* it returns [None] after its two attempts *)

Section Download.

(** Python's [str], and the file system and the network. *)
Variable py_str : json → pystr.
Variable outcome : nat → pystr → image_outcome.

Definition file_name (product_id : json) (i : nat) (url : pystr) : pystr :=
  let clean_url := before_first HEIC url in
  let file_name_base := (cut (chr "?") (basename clean_url)).1 in
  let file_name :=
    str "product_" ++ py_str product_id ++ str "_" ++
    str_of_int (Z.of_nat i + 1) ++ str "_" ++ file_name_base in
  let file_name := List.filter (λ c, negb (forbidden c)) file_name in
  if bool_decide ((splitext file_name).2 = []) then file_name ++ str ".jpg"
  else file_name.

Definition save_path (product_id : json) (i : nat) (url : pystr) : pystr :=
  join IMAGE_SAVE_DIR (file_name product_id i url).

(** [[url.strip() for url in image_urls if url.strip().startswith('http')]];
    only a [str] has [strip]. *)
Fixpoint http_urls (image_urls : list json) : res (list pystr) :=
  match image_urls with
  | [] => Ok []
  | JStr url :: rest =>
      urls ← http_urls rest;
      Ok (if starts_with (str "http") (strip url) then strip url :: urls
          else urls)
  | _ :: _ => Raise AttributeError
  end.

(** The loop over [enumerate(urls)], from the index [i] on. *)
Fixpoint saved_paths (product_id : json) (i : nat) (urls : list pystr)
  : list pystr :=
  match urls with
  | [] => []
  | url :: rest =>
      let path := save_path product_id i url in
      match outcome i path with
      | AlreadyThere | Downloaded => path :: saved_paths product_id (S i) rest
      | NotDownloaded => saved_paths product_id (S i) rest
      end
  end.

Definition download_all_images (product_id : json) (image_urls : list json)
  : res (list pystr) :=
  urls ← http_urls image_urls;
  Ok (saved_paths product_id 0 urls).

End Download.

End Images.

Example image_file_names :
  map (Images.file_name py_str_plain (JInt 7) 0)
      [str "https://img.example/a/b/photo.jpg?size=large";
       str "https://img.example/i/O1CN01.heic_640x640";
       str "http://img.example/x/"] =
  [str "product_7_1_photo.jpg"; str "product_7_1_O1CN01.jpg";
   str "product_7_1_.jpg"].
Proof. vm_compute. reflexivity. Qed.

(** A path inside the image directory: the directory, a slash and a file
    name that starts with [product_], holds none of the characters that
    are cleared, a slash among them, and has an extension. *)
Definition safe_path (path : pystr) : Prop :=
  ∃ name,
    path = str "images/" ++ name ∧
    starts_with (str "product_") name = true ∧
    Forall (λ c, Images.forbidden c = false) name ∧
    (Images.splitext name).2 ≠ [].

Definition is_digit (c : N) : bool := ((48 <=? c) && (c <=? 57))%N.

Section ImagesLemmas.

Import Images.

Variable py_str : json → pystr.
Variable outcome : nat → pystr → image_outcome.

Definition cleared (s : pystr) : pystr :=
  List.filter (λ c, negb (forbidden c)) s.

Lemma cleared_allowed s : Forall (λ c, forbidden c = false) (cleared s).
Proof.
  apply Forall_forall. intros c Hc.
  apply list_elem_of_In, List.filter_In in Hc as [_ Hc].
  by apply negb_true_iff.
Qed.

Lemma after_last_absent sep s : sep ∉ s → after_last sep s = s.
Proof.
  intros Hs. destruct s as [|c s]; [done|]. cbn [after_last].
  replace (existsb (N.eqb sep) (c :: s)) with false; [done|].
  symmetry. apply not_true_is_false. intros H.
  apply existsb_exists in H as (x & Hx & ->%N.eqb_eq).
  by apply Hs, list_elem_of_In.
Qed.

Lemma at_last_dot_jpg s :
  at_last_dot (s ++ str ".jpg") = Some (s, str ".jpg").
Proof. induction s as [|c s IH]; [done|]. simpl. by rewrite IH. Qed.

Lemma splitext_jpg c s :
  c ≠ dot → slash ∉ c :: s →
  splitext ((c :: s) ++ str ".jpg") = (c :: s, str ".jpg").
Proof.
  intros Hc Hs. unfold splitext. rewrite at_last_dot_jpg.
  change (existsb (N.eqb slash) (str ".jpg")) with false. cbv iota.
  unfold basename. rewrite (after_last_absent slash _ Hs).
  cbn [forallb]. by replace (dot =? c)%N with false
    by (symmetry; apply N.eqb_neq; congruence).
Qed.

(** The name before the extension is settled. *)
Definition raw_name (product_id : json) (i : nat) (url : pystr) : pystr :=
  cleared (py_str product_id) ++ str "_" ++
  str_of_int (Z.of_nat i + 1) ++ str "_" ++
  cleared (cut (chr "?") (basename (before_first HEIC url))).1.

Lemma str_of_int_digits n : 0 ≤ n → Forall (λ c, is_digit c = true) (str_of_int n).
Proof.
  intros Hn. unfold str_of_int.
  assert (∀ d, Forall (λ c, is_digit c = true)
                 (str (NilEmpty.string_of_uint d))) as Huint.
  { induction d; simpl; by constructor. }
  destruct n as [|p|p]; [by repeat constructor| |lia].
  cbn [Z.to_int NilZero.string_of_int NilZero.string_of_uint].
  destruct (Pos.to_uint p) eqn:E; try apply Huint.
  by repeat constructor.
Qed.

Lemma digits_allowed s :
  Forall (λ c, is_digit c = true) s → cleared s = s.
Proof.
  induction 1 as [|c s Hc _ IH]; [done|].
  unfold cleared in *. cbn [List.filter]. rewrite IH.
  unfold is_digit in Hc. apply andb_true_iff in Hc as [H1%N.leb_le H2%N.leb_le].
  replace (forbidden c) with false; [done|].
  symmetry. unfold forbidden. repeat (apply orb_false_iff; split);
    apply N.eqb_neq; cbn; lia.
Qed.

Lemma cleared_app a b : cleared (a ++ b) = cleared a ++ cleared b.
Proof. apply List.filter_app. Qed.

Lemma file_name_cases product_id i url :
  let name := str "product_" ++ raw_name product_id i url in
  (file_name py_str product_id i url = name ∧ (splitext name).2 ≠ []) ∨
  (file_name py_str product_id i url = name ++ str ".jpg" ∧
   (splitext name).2 = []).
Proof.
  intros name. unfold file_name. cbv zeta.
  fold (cleared (str "product_" ++ py_str product_id ++ str "_" ++
                 str_of_int (Z.of_nat i + 1) ++ str "_" ++
                 (cut (chr "?") (basename (before_first HEIC url))).1)).
  rewrite !cleared_app.
  rewrite (digits_allowed (str_of_int _))
    by (apply str_of_int_digits; lia).
  change (cleared (str "product_")) with (str "product_").
  change (cleared (str "_")) with (str "_").
  fold (raw_name product_id i url). fold name.
  case_bool_decide; [by right | by left].
Qed.

Lemma raw_name_allowed product_id i url :
  Forall (λ c, forbidden c = false) (raw_name product_id i url).
Proof.
  unfold raw_name. repeat (apply Forall_app; split);
    try apply cleared_allowed; try by repeat constructor.
  eapply Forall_impl; [apply (str_of_int_digits (Z.of_nat i + 1)); lia|].
  intros c Hc. cbv beta in Hc. unfold is_digit in Hc.
  apply andb_true_iff in Hc as [H1%N.leb_le H2%N.leb_le].
  unfold forbidden. repeat (apply orb_false_iff; split);
    apply N.eqb_neq; cbn; lia.
Qed.

Lemma allowed_no_slash s : Forall (λ c, forbidden c = false) s → slash ∉ s.
Proof.
  intros H Hin. rewrite Forall_forall in H. by specialize (H slash Hin).
Qed.

Lemma save_path_safe product_id i url :
  safe_path (save_path py_str product_id i url).
Proof.
  pose proof (raw_name_allowed product_id i url) as Hraw.
  assert (Forall (λ c, forbidden c = false)
            (str "product_" ++ raw_name product_id i url)) as Hname.
  { apply Forall_app. split; [by repeat constructor|done]. }
  unfold save_path.
  destruct (file_name_cases product_id i url) as [[-> Hext]|[-> Hext]].
  - exists (str "product_" ++ raw_name product_id i url).
    by repeat split.
  - exists ((str "product_" ++ raw_name product_id i url) ++ str ".jpg").
    split; [done|]. split; [done|]. split.
    + apply Forall_app. split; [done|by repeat constructor].
    + change (str "product_" ++ raw_name product_id i url) with
        (chr "p" :: (str "roduct_" ++ raw_name product_id i url)) in *.
      rewrite splitext_jpg; [done|done|]. by apply allowed_no_slash.
Qed.

Lemma saved_paths_elem product_id urls : ∀ i path,
  path ∈ saved_paths py_str outcome product_id i urls →
  ∃ k url, (i ≤ k)%nat ∧ path = save_path py_str product_id k url.
Proof.
  induction urls as [|url urls IH]; intros i path; [by intros ?%elem_of_nil|].
  cbn [saved_paths].
  assert (path ∈ saved_paths py_str outcome product_id (S i) urls →
          ∃ k u, (i ≤ k)%nat ∧ path = save_path py_str product_id k u) as Hrest.
  { intros H. destruct (IH _ _ H) as (k & u & Hk & ->).
    exists k, u. split; [lia|done]. }
  destruct (outcome i _); try done;
    intros [->|H]%elem_of_cons; try (by apply Hrest); by exists i, url.
Qed.

Lemma saved_paths_length product_id urls : ∀ i,
  (length (saved_paths py_str outcome product_id i urls) ≤ length urls)%nat.
Proof.
  induction urls as [|url urls IH]; intros i; [done|].
  cbn [saved_paths]. specialize (IH (S i)).
  destruct (outcome i _); simpl; lia.
Qed.

Lemma http_urls_length image_urls urls :
  http_urls image_urls = Ok urls → (length urls ≤ length image_urls)%nat.
Proof.
  revert urls. induction image_urls as [|v rest IH]; intros urls;
    cbn [http_urls].
  - by intros [= <-].
  - destruct v; try done.
    destruct (http_urls rest) as [us|e]; [|done]. rewrite bind_Ok.
    specialize (IH us eq_refl).
    destruct (starts_with (str "http") (strip s));
      intros [= <-]; cbn [length]; lia.
Qed.

End ImagesLemmas.

(** X12. Every path that [download_all_images] returns lies in the image
    directory: it is [images/] followed by a file name that starts with
    [product_], has no slash, backslash or other cleared character,
    whatever the product id and the URL hold, and has an extension; and
    there are no more paths than image URLs. *)
Theorem downloaded_paths_are_safe (py_str : json → pystr)
    (outcome : nat → pystr → Images.image_outcome) (product_id : json)
    (image_urls : list json) (paths : list pystr) :
  Images.download_all_images py_str outcome product_id image_urls = Ok paths →
  Forall safe_path paths ∧ (length paths ≤ length image_urls)%nat.
Proof.
  unfold Images.download_all_images.
  destruct (Images.http_urls image_urls) as [urls|e] eqn:E; [|done].
  rewrite bind_Ok. intros [= <-]. split.
  - apply Forall_forall. intros path Hin.
    destruct (saved_paths_elem _ _ _ _ _ _ Hin) as (k & url & _ & ->).
    apply save_path_safe.
  - pose proof (saved_paths_length py_str outcome product_id urls 0).
    pose proof (http_urls_length _ _ E). lia.
Qed.

Section ImageNames.

Import Images.

Variable py_str : json → pystr.
Variable outcome : nat → pystr → image_outcome.

Lemma str_inj (s t : string) : str s = str t → s = t.
Proof.
  unfold str. intros H.
  assert (∀ l l' : list ascii,
            map N_of_ascii l = map N_of_ascii l' → l = l') as Hmap.
  { induction l as [|a l IH]; intros [|b l']; try done.
    intros [= H1 H2]. f_equal; [|by apply IH].
    apply (f_equal ascii_of_N) in H1. by rewrite !ascii_N_embedding in H1. }
  apply Hmap in H.
  rewrite <- (string_of_list_ascii_of_string s),
          <- (string_of_list_ascii_of_string t).
  by rewrite H.
Qed.

Lemma str_of_int_inj n m : str_of_int n = str_of_int m → n = m.
Proof.
  unfold str_of_int. intros H%str_inj. apply to_int_inj.
  assert (∀ z, Z.to_int z ≠ Decimal.Pos Decimal.Nil ∧
               Z.to_int z ≠ Decimal.Neg Decimal.Nil) as Hnil.
  { intros [|p|p]; simpl; split; try discriminate;
      intros [= Hp]; by apply (Unsigned.to_uint_nonnil p). }
  destruct (Hnil n) as [Hn1 Hn2], (Hnil m) as [Hm1 Hm2].
  pose proof (NilZero.isi _ Hn1 Hn2) as Hn.
  pose proof (NilZero.isi _ Hm1 Hm2) as Hm.
  rewrite H in Hn. congruence.
Qed.

(** Two texts of digits, each followed by an underscore, are equal when
    what they start is equal. *)
Lemma digits_before_underscore a b x y :
  Forall (λ c, is_digit c = true) a → Forall (λ c, is_digit c = true) b →
  a ++ str "_" ++ x = b ++ str "_" ++ y → a = b.
Proof.
  change (str "_") with [95%N].
  intros Ha. revert b.
  induction Ha as [|c a Hc _ IH]; intros b Hb;
    destruct Hb as [|d b Hd Hb]; cbn [app].
  - done.
  - intros H. injection H as <- _. by vm_compute in Hd.
  - intros H. injection H as -> _. by vm_compute in Hc.
  - intros H. injection H as -> H. by rewrite (IH b Hb H).
Qed.

Lemma file_name_shape product_id i url :
  ∃ rest,
    file_name py_str product_id i url =
      (str "product_" ++ cleared (py_str product_id) ++ str "_") ++
      str_of_int (Z.of_nat i + 1) ++ str "_" ++ rest.
Proof.
  destruct (file_name_cases py_str product_id i url) as [[-> _]|[-> _]];
    unfold raw_name; eexists; by rewrite <- ?app_assoc.
Qed.

Lemma file_names_distinct product_id i j url url' :
  i ≠ j →
  file_name py_str product_id i url ≠ file_name py_str product_id j url'.
Proof.
  intros Hij Heq.
  destruct (file_name_shape product_id i url) as [x Hx].
  destruct (file_name_shape product_id j url') as [y Hy].
  rewrite Hx, Hy in Heq. apply app_inv_head in Heq.
  apply digits_before_underscore in Heq;
    try (apply str_of_int_digits; lia).
  apply str_of_int_inj in Heq. lia.
Qed.

Lemma save_path_file_name product_id i url :
  save_path py_str product_id i url =
    str "images/" ++ file_name py_str product_id i url.
Proof.
  unfold save_path.
  by destruct (file_name_cases py_str product_id i url) as [[-> _]|[-> _]].
Qed.

Lemma save_paths_distinct product_id i j url url' :
  i ≠ j →
  save_path py_str product_id i url ≠ save_path py_str product_id j url'.
Proof.
  intros Hij. rewrite !save_path_file_name. intros H%app_inv_head.
  by apply (file_names_distinct product_id i j url url').
Qed.

Lemma saved_paths_NoDup product_id urls : ∀ i,
  NoDup (saved_paths py_str outcome product_id i urls).
Proof.
  induction urls as [|url urls IH]; intros i; [constructor|].
  cbn [saved_paths].
  assert (save_path py_str product_id i url ∉
            saved_paths py_str outcome product_id (S i) urls) as Hnew.
  { intros Hin.
    destruct (saved_paths_elem _ _ _ _ _ _ Hin) as (k & u & Hk & Heq).
    apply (save_paths_distinct product_id i k url u); [lia|done]. }
  destruct (outcome i _); try apply IH; by constructor.
Qed.

End ImageNames.

(** X13. The images of a product never share a file: the file names of two
    different positions of the list differ, whatever the URLs are, so no
    download overwrites another one or is skipped as already there; the
    paths that [download_all_images] returns are pairwise different. *)
Theorem image_files_are_distinct (py_str : json → pystr)
    (outcome : nat → pystr → Images.image_outcome) (product_id : json) :
  (∀ i j url url',
      i ≠ j →
      Images.save_path py_str product_id i url ≠
        Images.save_path py_str product_id j url') ∧
  (∀ image_urls paths,
      Images.download_all_images py_str outcome product_id image_urls =
        Ok paths →
      NoDup paths).
Proof.
  split.
  - intros i j url url'. apply save_paths_distinct.
  - intros image_urls paths. unfold Images.download_all_images.
    destruct (Images.http_urls image_urls) as [urls|e]; [|done].
    rewrite bind_Ok. intros [= <-]. apply saved_paths_NoDup.
Qed.

Lemma downloaded_paths_are_safe_witness :
  Forall safe_path
    [str "images/product_7_1_photo.jpg"; str "images/product_7_3_O1CN01.jpg"].
Proof.
  apply (downloaded_paths_are_safe py_str_plain
           (λ i _, match i with
                   | O => Images.AlreadyThere
                   | S O => Images.NotDownloaded
                   | _ => Images.Downloaded
                   end)
           (JInt 7)
           [JStr (str " https://img.example/a/b/photo.jpg?size=large");
            JStr (str "ftp://img.example/no.png");
            JStr (str "https://img.example/a/second.png");
            JStr (str "https://img.example/i/O1CN01.heic_640x640")]).
  vm_compute. reflexivity.
Defined.

(** ** The search results: [_parse_search_results_json] *)

(** [s.replace(old, new)] for a non-empty [old]: the occurrences of [old]
    from left to right, without overlap; [skip] characters of a replaced
    occurrence are still to pass. *)
Fixpoint replace_from (old new : pystr) (skip : nat) (s : pystr) : pystr :=
  match s with
  | [] => []
  | c :: rest =>
      match skip with
      | S k => replace_from old new k rest
      | O =>
          if starts_with old s
          then new ++ replace_from old new (length old - 1) rest
          else c :: replace_from old new 0 rest
      end
  end.

Definition replace (old new s : pystr) : pystr := replace_from old new 0 s.

(** [f"{x:.0f}"]: the integer nearest to the exact value of [x], ties to
    even, with the sign of [x]. *)
Definition format_0f (x : float) : pystr :=
  match x with
  | S754_nan => str "nan"
  | S754_infinity s => if s then str "-inf" else str "inf"
  | S754_zero s => (if s then str "-" else []) ++ str "0"
  | S754_finite s m e =>
      (if s then str "-" else []) ++
      str_of_int (if 0 <=? e then Z.pos m * 2 ^ e
                  else div_half_even (Z.pos m) (2 ^ (- e)))
  end.

(** "当前价", "万", "¥" and "验货宝". *)
Definition CURRENT_PRICE_ZH : pystr := [24403; 21069; 20215]%N.
Definition WAN_ZH : pystr := [19975]%N.
Definition YEN : pystr := [165]%N.
Definition INSPECTION_ZH : pystr := [39564; 36135; 23453]%N.

Definition MAIN : list key :=
  [KStr (str "data"); KStr (str "item"); KStr (str "main")].

Section SearchResults.

(** Python's [str], [float] of a text, [str.isdigit], and
    [datetime.fromtimestamp(int(text)/1000).strftime("%Y-%m-%d %H:%M")],
    which depends on the time zone of the machine. *)
Variable py_str : json → pystr.
Variable py_float : pystr → res float.
Variable py_isdigit : pystr → bool.
Variable timestamp_text : pystr → res pystr.

(** The texts of the price parts that are dicts, each through [str], one
    after the other. *)
Fixpoint price_text (price_parts : list json) : pystr :=
  match price_parts with
  | [] => []
  | JDict d :: rest =>
      py_str (from_option id (JStr []) (dict_lookup (str "text") d)) ++
      price_text rest
  | _ :: rest => price_text rest
  end.

Definition current_price_of (price_parts : json) : res pystr :=
  let price :=
    match price_parts with
    | JList parts =>
        Images.strip (replace CURRENT_PRICE_ZH [] (price_text parts))
    | _ => str "Abnormal Price"
    end in
  if contains WAN_ZH price then
    x ← py_float (replace WAN_ZH [] (replace YEN [] price));
    Ok (YEN ++ format_0f (fmul x (float_of_scaled 10000 0)))
  else Ok price.

(** The loop over [r1_tags]. *)
Fixpoint inspection_tags (r1_tags : list json) : res (list pystr) :=
  match r1_tags with
  | [] => Ok []
  | tag_item :: rest =>
      content ← safe_get tag_item [KStr (str "data"); KStr (str "content")]
                         (Some (JStr []));
      inspected ← py_in_either INSPECTION_ZH (str "Inspection") content;
      tags ← inspection_tags rest;
      Ok (if inspected : bool then str "Inspection Service" :: tags else tags)
  end.

(** One iteration of the loop over the items: the entry that is appended
    is the dict [item_data_of] of the result. *)
Definition parse_search_item (item : json) : res listing_item :=
  main_data ← safe_get item (MAIN ++ [KStr (str "exContent")]) (Some (JDict []));
  click_params ←
    safe_get item (MAIN ++ [KStr (str "clickParam"); KStr (str "args")])
             (Some (JDict []));
  title ← safe_get main_data [KStr (str "title")]
                   (Some (JStr (str "Unknown Title")));
  price_parts ← safe_get main_data [KStr (str "price")] (Some (JList []));
  price ← current_price_of price_parts;
  area ← safe_get main_data [KStr (str "area")]
                  (Some (JStr (str "Unknown Area")));
  seller ← safe_get main_data [KStr (str "userNickName")]
                    (Some (JStr (str "Anonymous Seller")));
  raw_link ← safe_get item (MAIN ++ [KStr (str "targetUrl")]) (Some (JStr []));
  image_url ← safe_get main_data [KStr (str "picUrl")] (Some (JStr []));
  pub_time_ts ← py_get click_params (str "publishTime") (JStr []);
  item_id ← safe_get main_data [KStr (str "itemId")]
                     (Some (JStr (str "Unknown ID")));
  original_price ← safe_get main_data [KStr (str "oriPrice")]
                            (Some (JStr (str "Not available")));
  wants_count ← safe_get click_params [KStr (str "wantNum")]
                         (Some (JStr (str "NaN")));
  tag ← safe_get click_params [KStr (str "tag")] None;
  r1_tags ← safe_get main_data
              [KStr (str "fishTags"); KStr (str "r1"); KStr (str "tagList")]
              (Some (JList []));
  tag_items ← py_iter r1_tags;
  inspection ← inspection_tags tag_items;
  let tags :=
    (if py_eq_str tag (str "freeship") then [str "Free Shipping"] else []) ++
    inspection in
  item_link ←
    match raw_link with
    | JStr link =>
        Ok (replace (str "fleamarket://") (str "https://www.goofish.com/") link)
    | _ => Raise AttributeError
    end;
  publish_time ←
    match pub_time_ts with
    | JStr text =>
        if py_isdigit text then timestamp_text text
        else Ok (str "Unknown Time")
    | _ => Raise AttributeError
    end;
  Ok (ListingItem title price original_price wants_count tags area seller
                  item_link publish_time item_id).

(** The [try] block. *)
Definition parse_search_results (json_data : json) : res (list listing_item) :=
  items ← safe_get json_data [KStr (str "data"); KStr (str "resultList")]
                   (Some (JList []));
  if py_truthy items then
    item_list ← py_iter items;
    map_res parse_search_item item_list
  else Ok [].

(** [except Exception]: the page is empty. *)
Definition _parse_search_results_json (json_data : json) : list listing_item :=
  match parse_search_results json_data with
  | Ok page_data => page_data
  | Raise _ => []
  end.

End SearchResults.

Example replace_examples :
  replace (str "aa") (str "b") (str "aaaaa") = str "bba" ∧
  replace (str "fleamarket://") (str "https://www.goofish.com/")
          (str "fleamarket://item?id=5&x=fleamarket://") =
    str "https://www.goofish.com/item?id=5&x=https://www.goofish.com/".
Proof. split; vm_compute; reflexivity. Qed.

(** The [resultList] of a response and the [targetUrl] of an item, as
    [safe_get] reads them. *)
Definition result_list (json_data : json) : json :=
  from_option id (JList [])
    (nested_value json_data [KStr (str "data"); KStr (str "resultList")]).

Definition target_url (item : json) : json :=
  from_option id (JStr []) (nested_value item (MAIN ++ [KStr (str "targetUrl")])).

Section SearchResultsLemmas.

Variable py_str : json → pystr.
Variable py_float : pystr → res float.
Variable py_isdigit : pystr → bool.
Variable timestamp_text : pystr → res pystr.

Abbreviation parse_search_item' :=
  (parse_search_item py_str py_float py_isdigit timestamp_text).
Abbreviation parse_search_results' :=
  (parse_search_results py_str py_float py_isdigit timestamp_text).
Abbreviation _parse_search_results_json' :=
  (_parse_search_results_json py_str py_float py_isdigit timestamp_text).

Lemma map_res_raises {A B} (f : A → res B) (l : list A) :
  Exists (λ x, ∃ e, f x = Raise e) l → ∃ e, map_res f l = Raise e.
Proof.
  induction 1 as [x l [e Hx]|x l _ [e IH]]; simpl.
  - rewrite Hx. by exists e.
  - destruct (f x) as [y|e']; [|by exists e'].
    rewrite bind_Ok, IH. by exists e.
Qed.

Lemma parse_search_results_items json_data items :
  py_truthy (result_list json_data) = true →
  py_iter (result_list json_data) = Ok items →
  parse_search_results' json_data = map_res parse_search_item' items.
Proof.
  intros Ht Hi. unfold parse_search_results.
  rewrite safe_get_nested, bind_Ok.
  change (from_option id (from_option id NOT_AVAILABLE (Some (JList [])))
            (nested_value _ _)) with (result_list json_data).
  by rewrite Ht, Hi, bind_Ok.
Qed.

Lemma link_not_text_raises item :
  is_str (target_url item) = false → ∃ e, parse_search_item' item = Raise e.
Proof.
  intros Hlink. unfold parse_search_item.
  rewrite !safe_get_nested, !bind_Ok. cbv beta.
  change (from_option id (from_option id NOT_AVAILABLE (Some (JStr [])))
            (nested_value item (MAIN ++ [KStr (str "targetUrl")])))
    with (target_url item).
  repeat match goal with
         | |- ∃ e, (?m ≫= _) = Raise e =>
             let E := fresh "E" in
             destruct m eqn:E;
               [rewrite bind_Ok; cbv beta zeta|eexists; reflexivity]
         end.
  exfalso.
  match goal with
  | E : Ok (target_url item) = Ok ?a |- _ => injection E as <-
  end.
  destruct (target_url item); discriminate.
Qed.

End SearchResultsLemmas.

(** X14. A page of search results is all or nothing.  When every item of
    the [resultList] parses, [_parse_search_results_json] returns one entry
    per item, in the order of the list; when a single item raises, the
    other items are lost with it and the page is empty, which ends the
    pagination of the task.  An item whose [targetUrl] is present and is
    not a text is one that raises. *)
Theorem search_page_is_all_or_nothing
    (py_str : json → pystr) (py_float : pystr → res float)
    (py_isdigit : pystr → bool) (timestamp_text : pystr → res pystr)
    (json_data : json) (items : list json) :
  py_truthy (result_list json_data) = true →
  py_iter (result_list json_data) = Ok items →
  (∀ page,
      map_res (parse_search_item py_str py_float py_isdigit timestamp_text)
              items = Ok page →
      _parse_search_results_json py_str py_float py_isdigit timestamp_text
        json_data = page ∧
      length page = length items) ∧
  (Exists (λ item, ∃ e, parse_search_item py_str py_float py_isdigit
                          timestamp_text item = Raise e) items →
   _parse_search_results_json py_str py_float py_isdigit timestamp_text
     json_data = []) ∧
  (∀ item, is_str (target_url item) = false →
           ∃ e, parse_search_item py_str py_float py_isdigit timestamp_text
                  item = Raise e).
Proof.
  intros Ht Hi. split; [|split].
  - intros page Hpage. unfold _parse_search_results_json.
    rewrite (parse_search_results_items _ _ _ _ _ _ Ht Hi), Hpage.
    split; [done|]. by apply (map_res_length _ _ _ Hpage).
  - intros Hex. unfold _parse_search_results_json.
    rewrite (parse_search_results_items _ _ _ _ _ _ Ht Hi).
    by destruct (map_res_raises _ _ Hex) as [e ->].
  - apply link_not_text_raises.
Qed.

(** *** A page at concrete inputs *)

Module SearchRuns.

(** [str.isdigit] on ASCII texts.  The examples hold no price in 万 and no
    publish time, so that neither [float] nor the clock of the machine is
    asked. *)
Definition ascii_isdigit (s : pystr) : bool :=
  match s with
  | [] => false
  | _ => forallb is_digit s
  end.

Definition not_asked_float : pystr → res float := λ _, Raise ValueError.
Definition not_asked_clock : pystr → res pystr := λ _, Raise OverflowError.

Definition search_item (link : json) : json :=
  JDict [(str "data",
          JDict [(str "item",
                  JDict [(str "main",
                          JDict [(str "targetUrl", link);
                                 (str "clickParam",
                                  JDict [(str "args",
                                          JDict [(str "tag", JStr (str "freeship"))])]);
                                 (str "exContent",
                                  JDict [(str "title", JStr (str "Camera"));
                                         (str "price",
                                          JList [JDict [(str "text", JStr YEN)];
                                                 JInt 0;
                                                 JDict [(str "text", JInt 120)]])])])])])].

Definition search_page (items : list json) : json :=
  JDict [(str "data", JDict [(str "resultList", JList items)])].

Definition parse (json_data : json) : list listing_item :=
  _parse_search_results_json py_str_plain not_asked_float ascii_isdigit
                             not_asked_clock json_data.

End SearchRuns.

Section SearchWitnesses.

Import SearchRuns.

Example search_page_parsed :
  parse (search_page [search_item (JStr (str "fleamarket://item?id=5&x=1"))]) =
  [ListingItem (JStr (str "Camera")) (YEN ++ str "120")
               (JStr (str "Not available")) (JStr (str "NaN"))
               [str "Free Shipping"] (JStr (str "Unknown Area"))
               (JStr (str "Anonymous Seller"))
               (str "https://www.goofish.com/item?id=5&x=1")
               (str "Unknown Time") (JStr (str "Unknown ID"))].
Proof. vm_compute. reflexivity. Qed.

Lemma search_page_is_all_or_nothing_witness :
  parse (search_page [search_item (JStr (str "fleamarket://item?id=5&x=1"));
                      search_item (JInt 7)]) = [].
Proof.
  destruct (search_page_is_all_or_nothing py_str_plain not_asked_float
              ascii_isdigit not_asked_clock
              (search_page [search_item (JStr (str "fleamarket://item?id=5&x=1"));
                            search_item (JInt 7)])
              [search_item (JStr (str "fleamarket://item?id=5&x=1"));
               search_item (JInt 7)]) as (_ & Hnothing & Hlink).
  - reflexivity.
  - reflexivity.
  - apply Hnothing. apply Exists_cons_tl, Exists_cons_hd.
    apply Hlink. reflexivity.
Defined.

End SearchWitnesses.

(** ** The registration duration, continued *)

(** The years and months of the phrase, after the carry. *)
Definition years_and_months (total_days : Z) : res (Z * Z) :=
  '(years, remaining_days) ← years_and_remaining total_days;
  months ← py_round (fdiv remaining_days DAYS_IN_MONTH);
  Ok (if months =? 12 then (years + 1, 0) else (years, months)).

(** The duration [years], [months] is the one nearest to [n] days, in
    units of 1/32 day: a year has 11688 of them, a month 974. *)
Definition nearest_months (n years months : Z) : bool :=
  (0 <=? years) && (0 <=? months) && (months <=? 11) &&
  (Z.abs (32 * n - 11688 * years - 974 * months) <=? 487).

Definition nearest_months_of (n : Z) : bool :=
  match years_and_months n with
  | Ok (years, months) => nearest_months n years months
  | Raise _ => false
  end.

Lemma nearest_months_checked :
  forallb nearest_months_of (seqZ 1 10000) = true.
Proof. vm_compute. reflexivity. Qed.

Lemma format_registration_days_months n :
  0 < n →
  format_registration_days (JInt n) =
    '(years, months) ← years_and_months n;
    Ok (registration_phrase years months).
Proof.
  intros Hn. unfold format_registration_days, years_and_months.
  cbn [int_instance].
  replace (n <=? 0) with false by (symmetry; apply Z.leb_gt; lia).
  destruct (years_and_remaining n) as [[years remaining_days]|e]; [|done].
  rewrite !bind_Ok. cbv beta iota.
  destruct (py_round (fdiv remaining_days DAYS_IN_MONTH)) as [months|e];
    [|done].
  rewrite !bind_Ok. by destruct (months =? 12).
Qed.

(** X15. For every number of days from 1 to 10000 (more than 27 years),
    [format_registration_days] answers the phrase of the duration in whole
    years and months that is nearest to the days, by less than half a
    month, with a year of 365.25 days and a month of a twelfth of it; the
    months of the phrase are between 0 and 11, never 12. *)
Theorem registration_duration_is_nearest (n : Z) :
  1 ≤ n ≤ 10000 →
  ∃ years months,
    format_registration_days (JInt n) =
      Ok (registration_phrase years months) ∧
    0 ≤ years ∧ 0 ≤ months ≤ 11 ∧
    Z.abs (32 * n - 11688 * years - 974 * months) ≤ 487.
Proof.
  intros Hn.
  pose proof nearest_months_checked as Hall.
  rewrite forallb_forall in Hall.
  specialize (Hall n). unfold nearest_months_of in Hall.
  rewrite (format_registration_days_months n) by lia.
  destruct (years_and_months n) as [[years months]|e].
  - exists years, months. rewrite bind_Ok. split; [done|].
    unfold nearest_months in Hall.
    assert (In n (seqZ 1 10000)) as Hin
      by (apply list_elem_of_In, elem_of_seqZ; lia).
    apply Hall in Hin.
    apply andb_true_iff in Hin as [Hin H4%Z.leb_le].
    apply andb_true_iff in Hin as [Hin H3%Z.leb_le].
    apply andb_true_iff in Hin as [H1%Z.leb_le H2%Z.leb_le].
    lia.
  - assert (In n (seqZ 1 10000)) as Hin
      by (apply list_elem_of_In, elem_of_seqZ; lia).
    by apply Hall in Hin.
Qed.

Lemma registration_duration_is_nearest_witness :
  ∃ years months,
    format_registration_days (JInt 5000) =
      Ok (registration_phrase years months) ∧
    0 ≤ years ∧ 0 ≤ months ≤ 11 ∧
    Z.abs (32 * 5000 - 11688 * years - 974 * months) ≤ 487.
Proof. apply (registration_duration_is_nearest 5000). lia. Defined.

(** ** The traces of a task, continued *)

(** The events of the services called for one listing. *)
Definition service (ev : event) : Prop :=
  match ev with
  | EvAttempt _ _ | EvFailed _ _ | EvSleep _ | EvProfile _ | EvDownload _
  | EvNotify _ => True
  | _ => False
  end.

(** The events that neither open nor close a page or the browser. *)
Definition neutral (ev : event) : Prop :=
  match ev with
  | EvDetailFetch _ | EvClosePage | EvCloseBrowser => False
  | _ => True
  end.

(** The detail pages are opened one at a time and each is closed again; the
    browser is only closed while no detail page is open.  [open] tells
    whether a detail page is open before [evs]. *)
Fixpoint page_discipline (open : bool) (evs : list event) : bool :=
  match evs with
  | [] => negb open
  | EvDetailFetch _ :: rest => negb open && page_discipline true rest
  | EvClosePage :: rest => open && page_discipline false rest
  | EvCloseBrowser :: rest => negb open && page_discipline open rest
  | _ :: rest => page_discipline open rest
  end.

(** Once a key is inserted, what follows is safe for it. *)
Fixpoint settled (evs : list event) : Prop :=
  match evs with
  | [] => True
  | EvAddKey K :: rest => Forall (safe_for K) rest ∧ settled rest
  | _ :: rest => settled rest
  end.

Definition is_notification (ev : event) : bool :=
  match ev with
  | EvNotify _ => true
  | _ => false
  end.

Section TraceProperties.

Variable loads : pystr → option json.
Variable py_str : json → pystr.
Variable dumps : json → pystr.
Variable cfg : task_config.

Abbreviation process_item' := (process_item loads py_str dumps cfg).
Abbreviation run_items' := (run_items loads py_str dumps cfg).
Abbreviation run_pages' := (run_pages loads py_str dumps cfg).
Abbreviation scrape_xianyu' := (scrape_xianyu loads py_str dumps cfg).
Abbreviation fetch_and_analyse' := (fetch_and_analyse loads py_str cfg).

(** *** From one listing to the task *)

Section Lifting.

Variable P : state → list event → state → Prop.
Hypothesis P_nil : ∀ st, P st [] st.
Hypothesis P_app : ∀ st evs st' evs' st'',
  P st evs st' → P st' evs' st'' → P st (evs ++ evs') st''.
Hypothesis P_item : ∀ st it env,
  P st (process_item' st it env).1.1 (process_item' st it env).1.2.
Hypothesis P_pause : ∀ st, P st [EvRandomSleep 25 50] st.
Hypothesis P_close : ∀ st, P st [EvCloseBrowser] st.

Lemma run_items_lift items : ∀ st,
  P st (run_items' st items).1.1 (run_items' st items).1.2.
Proof.
  induction items as [|[it env] items IH]; intros st; simpl; [apply P_nil|].
  pose proof (P_item st it env) as H.
  destruct (process_item' st it env) as [[evs st'] c]. simpl in H.
  destruct c; [|done|done].
  specialize (IH st').
  destruct (run_items' st' items) as [[evs' st''] c']. simpl in *.
  by eapply P_app.
Qed.

Lemma run_pages_lift outcomes : ∀ st,
  P st (run_pages' st outcomes).1 (run_pages' st outcomes).2.
Proof.
  induction outcomes as [|o rest IH]; intros st; cbn [run_pages];
    [apply P_nil|].
  destruct o as [| | |e|[|item items]]; try apply P_nil.
  - apply IH.
  - pose proof (run_items_lift (item :: items) st) as H.
    destruct (run_items' st (item :: items)) as [[evs st'] c].
    cbn [fst snd] in H.
    destruct c; [|done|done].
    destruct rest as [|o' rest']; [done|].
    specialize (IH st').
    destruct (run_pages' st' (o' :: rest')) as [evs' st''].
    cbn [fst snd] in *.
    eapply P_app; [exact H|].
    change (EvRandomSleep 25 50 :: evs') with ([EvRandomSleep 25 50] ++ evs').
    eapply P_app; [apply P_pause|exact IH].
Qed.

(** A task either raises while it loads the history, or goes on to the
    browser and ends with [final_events]. *)
Lemma scrape_xianyu_lift w :
  (∃ e, (load_history loads w).2 = Raise e ∧
        scrape_xianyu' w = ((load_history loads w).1, initial_file w, Raise e)) ∨
  (∃ links evs st,
      (load_history loads w).2 = Ok links ∧
      P (State links 0 (initial_file w)) evs st ∧
      scrape_xianyu' w =
        ((load_history loads w).1 ++ evs ++ final_events, file st,
         Ok (processed_item_count st))).
Proof.
  unfold scrape_xianyu, initial_file.
  destruct (load_history loads w) as [evs0 [links|e]]; [|left; eauto].
  right. cbn [fst snd]. destruct (setup w).
  - exists links, [EvCloseBrowser], (State links 0 (from_option id [] (history_file w))).
    split; [done|]. split; [apply P_close|done].
  - exists links, [], (State links 0 (from_option id [] (history_file w))).
    split; [done|]. split; [apply P_nil|done].
  - pose proof (run_pages_lift (pages w)
                  (State links 0 (from_option id [] (history_file w)))) as H.
    destruct (run_pages' _ (pages w)) as [evs st]. simpl in H.
    exists links, evs, st. by split.
Qed.

End Lifting.

(** *** The events of one listing *)

Local Ltac service_events :=
  repeat first
    [ apply io_bind_events; [|intros ?]
    | progress (unfold lift, emit; cbn [fst snd])
    | apply Forall_nil_2
    | (apply Forall_cons; split; [exact I|])
    | match goal with
      | |- Forall _ (fst (if ?b then _ else _)) => destruct b
      | |- Forall _ (fst (match ?x with _ => _ end)) => destruct x
      end ].

Lemma retry_from_service {A} f (func : nat → res A) retries delay i todo :
  Forall service (retry_from f func retries delay i todo).1.
Proof.
  revert i. induction todo as [|todo IH]; intros i; simpl; [constructor|].
  destruct (func i) as [v|e]; simpl.
  - by repeat constructor.
  - specialize (IH (S i)).
    destruct (retry_from f func retries delay (S i) todo) as [evs r].
    simpl in *. constructor; [done|]. constructor; [done|].
    apply Forall_app. split; [|done].
    destruct (i <? retries - 1)%nat; by repeat constructor.
Qed.

Lemma build_record_service it env detail_json :
  Forall service (build_record cfg it env detail_json).1.
Proof. unfold build_record. service_events. Qed.

Lemma download_service urls : Forall service (download_all_images urls).1.
Proof. unfold download_all_images. service_events. Qed.

Lemma get_ai_analysis_service prompt replies :
  Forall service (get_ai_analysis loads prompt replies).1.
Proof.
  unfold get_ai_analysis, retry_on_failure.
  pose proof (retry_from_service FnAnalysis
                (λ i, get_ai_analysis_body loads prompt (replies i)) 5 10 0 5).
  by destruct (retry_from _ _ _ _ _ _).
Qed.

Lemma analyse_service env final_record :
  Forall service (analyse loads cfg env final_record).1.
Proof.
  unfold analyse. case_bool_decide; [constructor|].
  pose proof (get_ai_analysis_service (ai_prompt_text cfg) (ai_replies env)).
  destruct (get_ai_analysis _ _ _) as [evs r]. simpl in *.
  destruct (py_truthy r); [destruct r|]; done.
Qed.

Lemma send_ntfy_notification_service it reason :
  Forall service (send_ntfy_notification cfg it reason).1.
Proof.
  unfold send_ntfy_notification, retry_on_failure.
  pose proof (retry_from_service FnNotify
    (λ _ : nat, if notify_configured cfg
                then if sliceable (item_title it) then Ok true
                     else Raise TypeError
                else Ok false) 3 5 0 3) as H.
  destruct (retry_from _ _ _ _ _ _) as [evs r]. simpl in *.
  apply Forall_app. split; [done|].
  destruct r as [[]|]; by repeat constructor.
Qed.

Lemma notify_service it result : Forall service (notify cfg it result).1.
Proof.
  unfold notify. destruct (py_truthy result); [|constructor].
  apply io_bind_events; [constructor|]. intros r.
  destruct (py_truthy r); [|constructor].
  apply io_bind_events; [constructor|]. intros reason.
  apply send_ntfy_notification_service.
Qed.

Lemma service_neutral evs : Forall service evs → Forall neutral evs.
Proof. intros H. eapply Forall_impl; [exact H|]. by intros []. Qed.

(** After the page is opened, the [try] block neither opens nor closes a
    page. *)
Lemma fetch_and_analyse_trace it env :
  ∃ rest,
    (fetch_and_analyse' it env).1 = EvDetailFetch (item_link it) :: rest ∧
    Forall neutral rest.
Proof.
  unfold fetch_and_analyse. rewrite (emit_bind (EvDetailFetch (item_link it))).
  cbn [fst snd]. eexists. split; [reflexivity|].
  destruct (detail env) as [[detail_json|]|e].
  - rewrite lift_bind_ok.
    destruct (block_detected_ok py_str detail_json) as [b ->].
    rewrite lift_bind_ok. destruct b.
    + rewrite !emit_bind. by repeat constructor.
    + apply io_bind_events;
        [apply service_neutral, build_record_service|]. intros [fr urls].
      apply io_bind_events; [apply service_neutral, download_service|].
      intros _.
      pose proof (service_neutral _ (analyse_service env fr)) as Ha.
      destruct (analyse loads cfg env fr) as [evs [result fr']].
      apply io_bind_events; [done|]. intros _.
      apply io_bind_events; [apply service_neutral, notify_service|].
      intros _. constructor.
  - rewrite lift_bind_ok, emit_bind. by repeat constructor.
  - rewrite lift_bind_raise. constructor.
Qed.

(** The three shapes of the trace of a listing. *)
Lemma process_item_trace st it env :
  (process_item' st it env).1.1 = [] ∨
  (process_item' st it env).1.1 = [EvSkip (item_link it)] ∨
  ∃ mid, Forall neutral mid ∧
    (process_item' st it env).1.1 =
      EvRandomSleep 3 6 :: EvDetailFetch (item_link it) :: mid ++ closing.
Proof.
  unfold process_item.
  destruct ((0 <? debug_limit cfg) &&
            (debug_limit cfg <=? processed_item_count st)); [by left|].
  case_bool_decide as Hin.
  { destruct (sliceable (item_title it)); [right; by left | by left]. }
  destruct (sliceable (item_title it)); [|by left].
  cbn [negb]. right. right.
  destruct (fetch_and_analyse_trace it env) as (rest & Hevs & Hrest).
  destruct (fetch_and_analyse' it env) as [evs r].
  cbn [fst snd] in *. subst evs.
  destruct r as [[| |record]|e]; cbn [fst].
  - exists rest. by rewrite <- app_comm_cons.
  - exists rest. by rewrite <- app_comm_cons.
  - unfold save_to_jsonl.
    exists (rest ++ [EvAppend record (write_ok env);
                     EvAddKey (get_link_unique_key (item_link it));
                     EvRandomSleep 15 30]).
    split.
    + apply Forall_app. split; [done|]. by repeat constructor.
    + destruct (write_ok env); cbn [fst]; rewrite <- app_comm_cons;
        by rewrite <- !app_assoc.
  - exists (rest ++ [EvDetailFailed]). split.
    + apply Forall_app. split; [done|]. by repeat constructor.
    + rewrite <- app_comm_cons. by rewrite <- !app_assoc.
Qed.

(** *** Pages and browser *)

Lemma neutral_discipline evs :
  Forall neutral evs →
  ∀ open rest, page_discipline open (evs ++ rest) = page_discipline open rest.
Proof.
  induction 1 as [|ev evs Hev _ IH]; intros open rest; [done|].
  destruct ev; try done; simpl; apply IH.
Qed.

Lemma warning_neutral evs : Forall warning evs → Forall neutral evs.
Proof.
  intros H. eapply Forall_impl; [exact H|]. by intros ev [-> | ->].
Qed.

(** The trace of a listing is a closed bracket of page events. *)
Lemma process_item_discipline st it env rest :
  page_discipline false ((process_item' st it env).1.1 ++ rest) =
    page_discipline false rest.
Proof.
  destruct (process_item_trace st it env) as [->|[->|(mid & Hmid & ->)]];
    [done|done|].
  cbn [app page_discipline negb andb]. rewrite <- app_assoc.
  by rewrite (neutral_discipline mid Hmid).
Qed.

(** X16. In every run of a task the detail pages are opened one at a time,
    every detail page that is opened is closed again before the next one is
    opened, and the browser is never closed while a detail page is open. *)
Theorem detail_pages_are_closed (w : world) :
  page_discipline false (scrape_xianyu' w).1.1 = true.
Proof.
  pose proof (warning_neutral _ (load_history_warns loads w)) as Hw.
  destruct (scrape_xianyu_lift
              (λ _ evs _, ∀ rest, page_discipline false (evs ++ rest) =
                                    page_discipline false rest)) with (w := w)
    as [(e & _ & ->)|(links & evs & st & _ & Hevs & ->)].
  - done.
  - intros st evs st' evs' st'' H1 H2 rest.
    by rewrite <- app_assoc, H1, H2.
  - intros st it env rest. apply process_item_discipline.
  - done.
  - done.
  - cbn [fst]. rewrite <- (app_nil_r (load_history loads w).1).
    by rewrite (neutral_discipline _ Hw).
  - cbn [fst]. by rewrite (neutral_discipline _ Hw), Hevs.
Qed.

(** *** The count and the file *)

Lemma item_step_added st it env r :
  item_step dumps cfg st it env r →
  0 ≤ added r.1.1 ≤ 1 ∧
  Z.of_nat (length (appended dumps r.1.1)) ≤ added r.1.1.
Proof.
  intros Hstep.
  destruct Hstep as [Hl|Hin|Hs|Hnin|rest Hnin Hrest|rest record Hnin Hrest Hkey];
    cbn [fst snd]; simpl added; simpl appended; simpl length; try lia.
  - destruct (inner_quiet dumps rest Hrest) as (-> & -> & _). simpl. lia.
  - rewrite added_app, appended_app.
    destruct (inner_quiet dumps rest Hrest) as (-> & -> & _).
    destruct (write_ok env); simpl; lia.
Qed.

(** What the loops keep of the count and of the file. *)
Definition accounts (st : state) (evs : list event) (st' : state) : Prop :=
  0 ≤ added evs ∧
  Z.of_nat (length (appended dumps evs)) ≤ added evs ∧
  processed_item_count st' = processed_item_count st + added evs ∧
  file st' = file st ++ appended dumps evs ∧
  (0 < debug_limit cfg → processed_item_count st ≤ debug_limit cfg →
   processed_item_count st' ≤ debug_limit cfg).

Lemma accounts_quiet st evs :
  added evs = 0 → appended dumps evs = [] → accounts st evs st.
Proof.
  intros Ha Hf. unfold accounts. rewrite Ha, Hf, app_nil_r. simpl.
  repeat split; lia.
Qed.

Lemma accounts_app st evs st' evs' st'' :
  accounts st evs st' → accounts st' evs' st'' →
  accounts st (evs ++ evs') st''.
Proof.
  intros (H1 & H2 & H3 & H4 & H5) (H1' & H2' & H3' & H4' & H5').
  unfold accounts. rewrite added_app, appended_app, length_app, app_assoc.
  rewrite <- H4, <- H4'. repeat split; lia.
Qed.

Lemma accounts_item st it env :
  accounts st (process_item' st it env).1.1 (process_item' st it env).1.2.
Proof.
  pose proof (process_item_step loads py_str dumps cfg st it env) as Hstep.
  destruct (item_step_added _ _ _ _ Hstep) as [Ha Hl].
  destruct (item_step_accounts _ _ _ _ _ _ Hstep) as [Hc Hf].
  unfold accounts. repeat split; try lia; try done.
  intros Hlim Hle. rewrite Hc.
  unfold process_item in *.
  destruct ((0 <? debug_limit cfg) &&
            (debug_limit cfg <=? processed_item_count st)) eqn:E.
  - simpl. lia.
  - apply andb_false_iff in E as [E%Z.ltb_ge|E%Z.leb_gt]; lia.
Qed.

Lemma scrape_xianyu_accounts w :
  (scrape_xianyu' w).1.2 = initial_file w ++ appended dumps (scrape_xianyu' w).1.1 ∧
  Z.of_nat (length (appended dumps (scrape_xianyu' w).1.1)) ≤
    added (scrape_xianyu' w).1.1 ∧
  ∀ n, (scrape_xianyu' w).2 = Ok n →
       n = added (scrape_xianyu' w).1.1 ∧
       (0 < debug_limit cfg → n ≤ debug_limit cfg).
Proof.
  destruct (warnings_quiet dumps [] _ (load_history_warns loads w))
    as (_ & Ha0 & Hf0 & _).
  destruct (scrape_xianyu_lift accounts) with (w := w)
    as [(e & _ & ->)|(links & evs & st & _ & Hevs & ->)].
  - intros st. by apply accounts_quiet.
  - apply accounts_app.
  - apply accounts_item.
  - intros st. by apply accounts_quiet.
  - intros st. by apply accounts_quiet.
  - cbn [fst snd]. rewrite Ha0, Hf0, app_nil_r.
    split; [done|]. split; [done|]. by intros n.
  - cbn [fst snd]. destruct Hevs as (H1 & H2 & H3 & H4 & H5).
    cbn [processed_item_count file] in *.
    rewrite !added_app, !appended_app, !length_app, Ha0, Hf0.
    simpl. rewrite !app_nil_r.
    split; [done|]. split; [lia|]. intros n [= <-].
    split; [lia|]. intros Hlim. apply H5; lia.
Qed.

(** X17. A run never rewrites the history file: the file at the end is the
    file at the start followed by the lines of the successful appends, in
    their order; the count that is returned is the number of keys inserted
    in the run, and no more lines are appended than keys are inserted. *)
Theorem history_file_is_append_only (w : world) :
  (scrape_xianyu' w).1.2 =
    initial_file w ++ appended dumps (scrape_xianyu' w).1.1 ∧
  Z.of_nat (length (appended dumps (scrape_xianyu' w).1.1)) ≤
    added (scrape_xianyu' w).1.1 ∧
  (∀ n, (scrape_xianyu' w).2 = Ok n → n = added (scrape_xianyu' w).1.1).
Proof.
  destruct (scrape_xianyu_accounts w) as (Hf & Hl & Hn).
  split; [done|]. split; [done|]. intros n Hr. by destruct (Hn n Hr).
Qed.

(** X18. With a debug limit [debug_limit > 0] a task never counts more than
    [debug_limit] new listings. *)
Theorem debug_limit_is_respected (w : world) (n : Z) :
  0 < debug_limit cfg → (scrape_xianyu' w).2 = Ok n →
  0 ≤ n ≤ debug_limit cfg.
Proof.
  intros Hlim Hr. destruct (scrape_xianyu_accounts w) as (_ & Hl & Hn).
  destruct (Hn n Hr) as [-> Hle]. split; [lia|auto].
Qed.

(** *** A key that is inserted stays processed *)

Lemma settled_app evs evs' :
  settled evs → settled evs' →
  (∀ K, EvAddKey K ∈ evs → Forall (safe_for K) evs') →
  settled (evs ++ evs').
Proof.
  induction evs as [|ev evs IH]; intros H1 H2 H3; [done|].
  destruct ev; simpl in *;
    try (apply IH; [done|done|intros K HK; apply H3; by right]).
  destruct H1 as [Hsafe H1]. split.
  - apply Forall_app. split; [done|]. apply H3. by left.
  - apply IH; [done|done|]. intros K HK. apply H3. by right.
Qed.

Lemma settled_split pre K post :
  settled (pre ++ EvAddKey K :: post) → Forall (safe_for K) post.
Proof.
  induction pre as [|ev pre IH]; simpl.
  - by intros [H _].
  - destruct ev; try done. intros [_ H]. by apply IH.
Qed.

Lemma inner_settled evs :
  Forall inner evs → settled evs ∧ ∀ K, EvAddKey K ∉ evs.
Proof.
  induction 1 as [|ev evs Hev _ [IH1 IH2]].
  - split; [done|]. intros K. apply not_elem_of_nil.
  - destruct ev; try done; (split; [done|]); intros K;
      rewrite elem_of_cons; intros [?|?]; try done; by eapply IH2.
Qed.

Lemma warning_settled evs :
  Forall warning evs → settled evs ∧ ∀ K, EvAddKey K ∉ evs.
Proof.
  induction 1 as [|ev evs Hev _ [IH1 IH2]].
  - split; [done|]. intros K. apply not_elem_of_nil.
  - destruct Hev as [-> | ->]; (split; [done|]); intros K;
      rewrite elem_of_cons; intros [?|?]; try done; by eapply IH2.
Qed.

(** What the loops keep of the processed set. *)
Definition keeps_keys (st : state) (evs : list event) (st' : state) : Prop :=
  settled evs ∧
  (∀ K, EvAddKey K ∈ evs → K ∈ processed_links st') ∧
  (∀ K, K ∈ processed_links st →
        K ∈ processed_links st' ∧ Forall (safe_for K) evs).

Lemma keeps_keys_quiet st evs :
  settled evs → (∀ K, EvAddKey K ∉ evs) → (∀ K, Forall (safe_for K) evs) →
  keeps_keys st evs st.
Proof.
  intros H1 H2 H3. split; [done|]. split.
  - intros K HK. by destruct (H2 K).
  - intros K HK. by split.
Qed.

Lemma keeps_keys_app st evs st' evs' st'' :
  keeps_keys st evs st' → keeps_keys st' evs' st'' →
  keeps_keys st (evs ++ evs') st''.
Proof.
  intros (H1 & H2 & H3) (H1' & H2' & H3'). split; [|split].
  - apply settled_app; [done|done|].
    intros K HK. by destruct (H3' K (H2 K HK)).
  - intros K [HK|HK]%elem_of_app; [|by apply H2'].
    by destruct (H3' K (H2 K HK)).
  - intros K HK. destruct (H3 K HK) as [HK' Hs].
    destruct (H3' K HK') as [HK'' Hs']. split; [done|].
    apply Forall_app. by split.
Qed.

Lemma keeps_keys_item st it env :
  keeps_keys st (process_item' st it env).1.1 (process_item' st it env).1.2.
Proof.
  pose proof (process_item_step loads py_str dumps cfg st it env) as Hstep.
  split; [|split].
  - destruct Hstep as [Hl|Hin|Hs|Hnin|rest Hnin Hrest|rest record Hnin Hrest Hkey];
      cbn [fst snd]; try done.
    + simpl. by destruct (inner_settled rest Hrest).
    + simpl. destruct (inner_settled rest Hrest) as [Hs Hno].
      apply settled_app; [done| |].
      * simpl. split; [|done]. by repeat constructor.
      * intros K HK. by destruct (Hno K).
  - intros K.
    destruct Hstep as [Hl|Hin|Hs|Hnin|rest Hnin Hrest|rest record Hnin Hrest Hkey];
      cbn [fst snd processed_links].
    + by intros ?%elem_of_nil.
    + rewrite list_elem_of_singleton. by intros.
    + by intros ?%elem_of_nil.
    + unfold closing. cbn [app]. intros HK.
      repeat (apply elem_of_cons in HK as [HK|HK]; [discriminate|]).
      by apply elem_of_nil in HK.
    + destruct (inner_settled rest Hrest) as [_ Hno].
      rewrite !elem_of_cons. intros [?|[?|?]]; try done. by destruct (Hno K).
    + destruct (inner_settled rest Hrest) as [_ Hno].
      unfold closing. cbn [app].
      rewrite !elem_of_cons, elem_of_app. intros [?|[?|[?|HK]]]; try done.
      { by destruct (Hno K). }
      apply elem_of_cons in HK as [HK|HK]; [discriminate|].
      apply elem_of_cons in HK as [HK|HK]; [injection HK as ->; set_solver|].
      repeat (apply elem_of_cons in HK as [HK|HK]; [discriminate|]).
      by apply elem_of_nil in HK.
  - intros K HK. destruct (item_step_safe loads py_str dumps cfg K _ _ _ _ Hstep HK). by split.
Qed.

(** X19. Once the key of a listing is inserted into the processed set, the
    rest of the run never fetches the detail of a listing with that key
    again, never appends a record for it and never inserts it again. *)
Theorem inserted_key_is_processed_once (w : world) (pre post : list event)
    (K : pystr) :
  (scrape_xianyu' w).1.1 = pre ++ EvAddKey K :: post →
  Forall (safe_for K) post.
Proof.
  intros Htrace. apply (settled_split pre). rewrite <- Htrace.
  destruct (warning_settled _ (load_history_warns loads w)) as [Hs0 Hno0].
  destruct (scrape_xianyu_lift keeps_keys) with (w := w)
    as [(e & _ & ->)|(links & evs & st & _ & Hevs & ->)].
  - intros st. apply keeps_keys_quiet;
      [done|intros K'; apply not_elem_of_nil|by constructor].
  - apply keeps_keys_app.
  - apply keeps_keys_item.
  - intros st. apply keeps_keys_quiet; [done| |by repeat constructor].
    intros K'. rewrite list_elem_of_singleton. done.
  - intros st. apply keeps_keys_quiet; [done| |by repeat constructor].
    intros K'. rewrite list_elem_of_singleton. done.
  - done.
  - cbn [fst]. destruct Hevs as (H1 & H2 & H3).
    apply settled_app; [done| |].
    + apply settled_app; [done|done|]. intros K' _. by repeat constructor.
    + intros K' HK'. by destruct (Hno0 K').
Qed.

(** *** What is saved is loaded by the next run *)




(** *** Notifications *)

(** X21. A listing is notified at most once, and only when notifications are
    configured and the analysis returned an object whose [is_recommended]
    is true in Python's sense; the reason that is sent is the [reason] of
    the object, or "No reason provided". *)
Theorem notification_needs_recommendation (it : listing_item)
    (result : json) :
  (length (List.filter is_notification (notify cfg it result).1) ≤ 1)%nat ∧
  ∀ reason,
    EvNotify reason ∈ (notify cfg it result).1 →
    notify_configured cfg = true ∧
    ∃ d recommended,
      result = JDict d ∧
      dict_lookup (str "is_recommended") d = Some recommended ∧
      py_truthy recommended = true ∧
      reason = from_option id (JStr (str "No reason provided"))
                 (dict_lookup (str "reason") d).
Proof.
  unfold notify. destruct (py_truthy result); [|split; [simpl; lia|]].
  2:{ by intros reason ?%elem_of_nil. }
  destruct result as [| | | | | |d];
    try (split; [simpl; lia | by intros reason ?%elem_of_nil]).
  cbn [py_get]. rewrite lift_bind_ok.
  destruct (dict_lookup (str "is_recommended") d) as [recommended|] eqn:Hd;
    cbn [from_option id];
    [|split; [simpl; lia | by intros reason ?%elem_of_nil]].
  destruct (py_truthy recommended) eqn:Hrec;
    [|split; [simpl; lia | by intros reason ?%elem_of_nil]].
  rewrite lift_bind_ok. unfold send_ntfy_notification, retry_on_failure.
  destruct (notify_configured cfg), (sliceable (item_title it));
    cbn [retry_from fst snd app Nat.ltb Nat.leb Nat.sub List.filter
         is_notification length];
    (split; [lia|]); intros reason Hin;
    repeat (apply elem_of_cons in Hin as [Hin|Hin]; [try discriminate|]);
    try (by apply elem_of_nil in Hin).
  injection Hin as ->. split; [done|]. by exists d, recommended.
Qed.

(** *** An analysis that is not an object *)

Lemma fetch_and_analyse_steps it env detail_json final_record urls
    evs_record evs_images evs_ai result final_record' :
  detail env = Ok (Some detail_json) →
  block_detected py_str detail_json = Ok false →
  build_record cfg it env detail_json = (evs_record, Ok (final_record, urls)) →
  download_all_images urls = (evs_images, Ok tt) →
  analyse loads cfg env final_record = (evs_ai, (result, final_record')) →
  fetch_and_analyse' it env =
    (EvDetailFetch (item_link it) :: evs_record ++ evs_images ++ evs_ai ++
       (notify cfg it result).1,
     match (notify cfg it result).2 with
     | Ok _ => Ok (Assembled (JDict final_record'))
     | Raise e => Raise e
     end).
Proof.
  intros Hd Hb Hrec Himg Ha. unfold fetch_and_analyse.
  rewrite (emit_bind (EvDetailFetch (item_link it))), Hd, lift_bind_ok, Hb,
    lift_bind_ok, Hrec, io_bind_ok, Himg, io_bind_ok, Ha, io_bind_ok.
  cbn [fst snd]. destruct (notify cfg it result) as [evs [[]|e]];
    cbn [fst snd mbind io_bind mret io_ret]; by rewrite ?app_nil_r.
Qed.

(** X22. When the analysis returns a value that is true in Python's sense
    and is not an object (a list, a number, a text), reading its
    [is_recommended] raises: the listing is given up after the analysis,
    nothing is appended and its key is not inserted, so the next run
    fetches and analyses it again. *)
Theorem analysis_not_an_object_drops_listing (st : state) (it : listing_item)
    (env : item_env) (detail_json : json)
    (final_record final_record' : list (pystr * json)) (urls : list json)
    (evs_record evs_images evs_ai : list event) (result : json) :
  fetched cfg st it →
  detail env = Ok (Some detail_json) →
  block_detected py_str detail_json = Ok false →
  build_record cfg it env detail_json = (evs_record, Ok (final_record, urls)) →
  download_all_images urls = (evs_images, Ok tt) →
  analyse loads cfg env final_record = (evs_ai, (result, final_record')) →
  py_truthy result = true → (∀ d, result ≠ JDict d) →
  process_item' st it env =
    (EvRandomSleep 3 6 :: EvDetailFetch (item_link it) ::
       evs_record ++ evs_images ++ evs_ai ++ EvDetailFailed :: closing,
     st, Continue).
Proof.
  intros Hf Hd Hb Hrec Himg Ha Ht Hnd.
  rewrite (process_item_fetched loads py_str dumps cfg st it env Hf).
  rewrite (fetch_and_analyse_steps it env _ _ _ _ _ _ _ _ Hd Hb Hrec Himg Ha).
  unfold notify. rewrite Ht.
  destruct result as [| | | | | |d]; try (by destruct (Hnd d));
    cbn [py_get lift mbind io_bind fst snd];
    rewrite app_nil_r, <- !app_comm_cons, <- !app_assoc; reflexivity.
Qed.

End TraceProperties.

(** *** The properties of the traces at concrete inputs *)

Module TraceRuns.
Import Demo DemoRuns.

(** The task of [Demo] with a debug limit of one listing. *)
Definition limited : task_config :=
  TaskConfig (str "film camera") (str "Camera watch")
             (str "Recommend only tested cameras.") 1 true.

Definition third_item : listing_item :=
  listing "Third camera" "https://www.goofish.com/item?id=33" 33.

(** The new listing again, with another tracking parameter. *)
Definition new_item_again : listing_item :=
  listing "New camera" "https://www.goofish.com/item?id=22&spm=a21" 22.

Definition new_key : pystr := str "https://www.goofish.com/item?id=22".

(** The analysis answers a list. *)
Definition env_answers_list : item_env :=
  answering (λ _, Ok (Some (str "[1]"))) true "SUCCESS::ok".

Definition env_recommends : item_env :=
  answering (λ _, Ok (Some verdict_yes)) true "SUCCESS::ok".

Fixpoint before_insert (K : pystr) (evs : list event) : list event :=
  match evs with
  | [] => []
  | EvAddKey k :: rest =>
      if bool_decide (k = K) then [] else EvAddKey k :: before_insert K rest
  | ev :: rest => ev :: before_insert K rest
  end.

Fixpoint after_insert (K : pystr) (evs : list event) : list event :=
  match evs with
  | [] => []
  | EvAddKey k :: rest =>
      if bool_decide (k = K) then rest else after_insert K rest
  | _ :: rest => after_insert K rest
  end.


End TraceRuns.

Section TraceWitnesses.

Import Demo DemoRuns TraceRuns.

Lemma debug_limit_is_respected_witness :
  (scrape_xianyu json_loads py_str_plain dumps_plain limited
     (one_page [(new_item, env_ok); (third_item, env_ok)] [])).2 = Ok 1 ∧
  0 ≤ 1 ≤ debug_limit limited.
Proof.
  split; [vm_compute; reflexivity|].
  apply (debug_limit_is_respected json_loads py_str_plain dumps_plain limited
           (one_page [(new_item, env_ok); (third_item, env_ok)] []) 1).
  - reflexivity.
  - vm_compute. reflexivity.
Defined.

Lemma inserted_key_is_processed_once_witness :
  let w := one_page [(new_item, env_ok); (third_item, env_ok);
                     (new_item_again, env_ok)] [] in
  EvSkip (item_link new_item_again) ∈ after_insert new_key (run w).1.1 ∧
  Forall (safe_for new_key) (after_insert new_key (run w).1.1).
Proof.
  intros w. split.
  - vm_compute.
    repeat first [apply list_elem_of_here | apply list_elem_of_further].
  - apply (inserted_key_is_processed_once json_loads py_str_plain dumps_plain
             cfg w (before_insert new_key (run w).1.1)
             (after_insert new_key (run w).1.1) new_key).
    vm_compute. reflexivity.
Defined.


Lemma notification_needs_recommendation_witness :
  let result := JDict [(str "is_recommended", JBool true);
                       (str "reason", JStr (str "tested"))] in
  notify cfg new_item result =
    ([EvAttempt FnNotify 0; EvNotify (JStr (str "tested"))], Ok tt) ∧
  notify_configured cfg = true.
Proof.
  intros result. split; [reflexivity|].
  destruct (notification_needs_recommendation cfg new_item result) as [_ H].
  apply (H (JStr (str "tested"))). vm_compute.
  apply list_elem_of_further, list_elem_of_here.
Defined.

Lemma analysis_not_an_object_drops_listing_witness :
  ∃ evs,
    process_item json_loads py_str_plain dumps_plain cfg st0 new_item
      env_answers_list = (evs, st0, Continue) ∧
    (analyse json_loads cfg env_answers_list built_record).2.1 =
      JList [JInt 1].
Proof.
  eexists. split; [|vm_compute; reflexivity].
  apply (analysis_not_an_object_drops_listing json_loads py_str_plain
           dumps_plain cfg st0 new_item env_answers_list
           (detail_payload "SUCCESS::ok") built_record
           (analyse json_loads cfg env_answers_list built_record).2.2
           built_urls built.1 (download_all_images built_urls).1
           (analyse json_loads cfg env_answers_list built_record).1
           (analyse json_loads cfg env_answers_list built_record).2.1).
  - split; [left; vm_compute; discriminate|].
    split; [apply not_elem_of_empty|reflexivity].
  - reflexivity.
  - vm_compute. reflexivity.
  - vm_compute. reflexivity.
  - vm_compute. reflexivity.
  - by destruct (analyse json_loads cfg env_answers_list built_record)
      as [? [? ?]].
  - vm_compute. reflexivity.
  - intros d. vm_compute. discriminate.
Defined.

End TraceWitnesses.
